(** * eLibrary judiciary scraper: a shallow embedding of [main.py] and
    [link_scraper.py], and the properties of their retry loops, JSON
    recovery, link extraction and spreadsheet merge.

    Conventions of the embedding.
    - Python [str] is [string]; a character is a code point below 256.
    - Python values produced by [json.loads] / [json_repair.loads] are
      [pyval]; dictionaries keep insertion order (association lists).
    - An exception is an [exn] value; only instances of [Exception] are
      modelled ([KeyboardInterrupt] and [SystemExit] are not).
    - Everything the program does to the outside world (HTTP requests,
      model calls, sleeping, printing, file writes) is recorded in the
      [trace] of a [world]; what the outside world answers is read from an
      [env] of oracles.  The n-th call of [requests.get] (resp.
      [generate_content]) in a run is answered by the oracle at index n.
    - Library functions whose code is not part of the repository
      ([json.loads], [json_repair.loads], [int], BeautifulSoup, pandas'
      constructors and readers) are fields of [env]; properties are proved
      for every [env]. *)

From Stdlib Require Import ZArith String Ascii List Bool Lia Sorted.
From stdpp Require Import gmap strings list pretty.
Import ListNotations.

Local Open Scope Z_scope.
Set Warnings "-register-all".

(** ** Python values and exceptions *)

Inductive pyval : Type :=
| PyNone
| PyBool (b : bool)
| PyInt (z : Z)
| PyFloat (repr : string)
| PyStr (s : string)
| PyList (xs : list pyval)
| PyDict (kvs : list (string * pyval)).

(** [d.get(k)] / [k in d] / [d[k]] on an insertion-ordered dict. *)
Fixpoint dict_get (d : list (string * pyval)) (k : string) : option pyval :=
  match d with
  | [] => None
  | (k', v) :: d' => if String.eqb k' k then Some v else dict_get d' k
  end.

(** The part of the [requests.exceptions] hierarchy below
    [RequestException].  [MissingSchema], [InvalidSchema] and [InvalidURL]
    are what [requests.get] raises for a malformed URL; [HTTPError] is what
    [raise_for_status] raises. *)
Inductive requests_exception : Type :=
| HTTPError (status_code : Z)
| ConnectionError
| Timeout
| TooManyRedirects
| MissingSchema
| InvalidSchema
| InvalidURL
| RequestException.

Inductive exn_class : Type :=
| Requests (r : requests_exception)
| JSONDecodeError
| ValueError
| AttributeError
| TypeError
| PermissionError
| OtherException (name : string).

(** An exception instance: its class, [str(e)], the attribute [e.code] when
    [hasattr(e, 'code')], and the tuple [e.args]. *)
Record exn : Type := mk_exn {
  exn_cls : exn_class;
  exn_str : string;
  exn_code : option pyval;
  exn_args : list pyval
}.

Definition is_RequestException (e : exn) : bool :=
  match exn_cls e with Requests _ => true | _ => false end.

Definition is_JSONDecodeError (e : exn) : bool :=
  match exn_cls e with JSONDecodeError => true | _ => false end.

Definition is_PermissionError (e : exn) : bool :=
  match exn_cls e with PermissionError => true | _ => false end.

(** [raise ValueError(msg)] *)
Definition value_error (msg : string) : exn :=
  mk_exn ValueError msg None [PyStr msg].

Inductive outcome (A : Type) : Type :=
| Returns (a : A)
| Raises (e : exn).
Arguments Returns {A} a.
Arguments Raises {A} e.

(** ** Strings *)

Definition nl : string := String (ascii_of_nat 10) EmptyString.

(** [str.isspace] on one character, for code points below 256:
    TAB..CR, FS..US, SPACE, NEL and NBSP.  The same set is what [\s]
    matches in a [str] pattern. *)
Definition py_isspace (c : ascii) : bool :=
  let n := nat_of_ascii c in
  ((9 <=? n) && (n <=? 13) || (28 <=? n) && (n <=? 32)
   || (n =? 133) || (n =? 160))%nat.

Fixpoint lstrip (s : string) : string :=
  match s with
  | String c s' => if py_isspace c then lstrip s' else s
  | EmptyString => EmptyString
  end.

Fixpoint rstrip (s : string) : string :=
  match s with
  | String c s' =>
      match rstrip s' with
      | EmptyString => if py_isspace c then EmptyString else String c EmptyString
      | r => String c r
      end
  | EmptyString => EmptyString
  end.

(** [s.strip()] *)
Definition strip (s : string) : string := lstrip (rstrip s).

(** [s.rstrip('/')] *)
Fixpoint rstrip_slash (s : string) : string :=
  match s with
  | String c s' =>
      match rstrip_slash s' with
      | EmptyString => if Ascii.eqb c "/" then EmptyString else String c EmptyString
      | r => String c r
      end
  | EmptyString => EmptyString
  end.

(** [s.startswith('#')] *)
Definition startswith_hash (s : string) : bool :=
  match s with String c _ => Ascii.eqb c "#" | EmptyString => false end.

Definition is_empty (s : string) : bool :=
  match s with EmptyString => true | _ => false end.

(** ** Tables (pandas DataFrames) *)

(** A cell is a value or pandas' missing value. *)
Inductive cell : Type :=
| NaN
| Cell (v : pyval).

(** Column labels in order, and the rows, each with one cell per column. *)
Record dataframe : Type := mk_df {
  columns : list string;
  rows : list (list cell)
}.

(** ** The outside world *)

Inductive gen_config : Type :=
| CaseInstruction      (* the system instruction of lines 166-184 *)
| StricterInstruction. (* "OUTPUT ONLY VALID JSON ARRAY. No markdown or extras." *)

Inductive event : Type :=
| EPrint (line : string)                       (* print(...) *)
| EPrintErr (line : string)                    (* print(..., file=sys.stderr) *)
| EInput (prompt : string)                     (* input(prompt) *)
| ESleep (seconds : Z)                         (* time.sleep(seconds) *)
| EGet (url : string) (timeout : Z)            (* requests.get(url, timeout=...) *)
| EGenerate (cfg : gen_config) (contents : string)
| EWriteFile (path : string) (data : string)   (* open(path, "w") ... f.write(data) *)
| EToExcel (path : string) (df : dataframe).   (* df.to_excel(path, index=False) *)

Record world : Type := mk_world {
  trace : list event;
  n_get : nat;
  n_generate : nat
}.

Definition world0 : world := mk_world [] 0 0.

(** A [requests.Response]: status, body, and [str(e)] of the [HTTPError]
    that [raise_for_status()] raises for it when the status is 4xx or 5xx. *)
Record http_response : Type := mk_http_response {
  status_code : Z;
  content : string;
  status_error : string
}.

(** A [GenerateContentResponse]: its [.text] is [None] or a [str]. *)
Record model_response : Type := mk_model_response {
  text : option string
}.

Record env : Type := mk_env {
  (* requests.get: the answer to the n-th request of the run *)
  requests_get : nat -> string -> Z -> outcome http_response;
  (* client.models.generate_content: the answer to the n-th call of the run *)
  generate_content : nat -> gen_config -> string -> outcome model_response;
  (* json.loads and json_repair.loads *)
  json_loads : string -> outcome pyval;
  json_repair_loads : string -> outcome pyval;
  (* the builtin int(); None when it raises *)
  py_int : pyval -> option Z;
  (* BeautifulSoup(content, "html.parser").get_text(separator="\n", strip=True) *)
  soup_get_text : string -> string;
  (* os.path.exists, open(path, "r").read(), open(path, 'a'), os.path.join *)
  path_exists : string -> bool;
  read_text : string -> outcome string;
  open_append : string -> outcome unit;
  os_path_join : string -> string -> string;
  (* what the user types at input(...) *)
  input_line : string;
  (* os.environ.get("GEMINI_API_KEY") and genai.Client(api_key=...) *)
  environ_api_key : option string;
  genai_Client : string -> outcome unit;
  (* pd.DataFrame(records), which raises on a list it cannot turn into a
     table (AttributeError for a dict followed by something else),
     pd.read_excel(path, engine='openpyxl'), df.to_excel(path, index=False) *)
  pd_DataFrame : list pyval -> outcome dataframe;
  pd_read_excel : string -> outcome dataframe;
  pd_to_excel : string -> dataframe -> outcome unit
}.

(** ** The monad of effectful code: state passing with exceptions *)

Definition M (A : Type) : Type := world -> outcome A * world.

Definition ret {A} (a : A) : M A := fun w => (Returns a, w).

Definition raise {A} (e : exn) : M A := fun w => (Raises e, w).

Definition bind {A B} (m : M A) (k : A -> M B) : M B :=
  fun w =>
    match m w with
    | (Returns a, w') => k a w'
    | (Raises e, w') => (Raises e, w')
    end.

(** [try: m] with the outcome handed to the handler code that follows. *)
Definition try_ {A} (m : M A) : M (outcome A) :=
  fun w => let (r, w') := m w in (Returns r, w').

(** A library call without effect on the world that may raise. *)
Definition lift {A} (r : outcome A) : M A := fun w => (r, w).

Declare Scope M_scope.
Delimit Scope M_scope with M.
Notation "x <- m ;; k" := (bind m (fun x => k))
  (at level 100, m at next level, right associativity) : M_scope.
Notation "m ;; k" := (bind m (fun _ => k))
  (at level 100, right associativity) : M_scope.
Local Open Scope M_scope.

Definition emit (ev : event) : M unit :=
  fun w => (Returns tt, mk_world (trace w ++ [ev]) (n_get w) (n_generate w)).

Definition print (line : string) : M unit := emit (EPrint line).
Definition print_err (line : string) : M unit := emit (EPrintErr line).
Definition sleep (seconds : Z) : M unit := emit (ESleep seconds).
Definition write_file (path data : string) : M unit := emit (EWriteFile path data).

(** Projections of a trace used to state properties. *)
Definition sleeps (tr : list event) : list Z :=
  omap (fun ev => match ev with ESleep d => Some d | _ => None end) tr.

Definition gets (tr : list event) : list string :=
  omap (fun ev => match ev with EGet u _ => Some u | _ => None end) tr.

Definition generates (tr : list event) : list gen_config :=
  omap (fun ev => match ev with EGenerate c _ => Some c | _ => None end) tr.

Definition written_files (tr : list event) : list string :=
  omap (fun ev => match ev with EWriteFile p _ => Some p | _ => None end) tr.

Definition excel_writes (tr : list event) : list (string * dataframe) :=
  omap (fun ev => match ev with EToExcel p df => Some (p, df) | _ => None end) tr.

(** The two calls that consume an oracle answer. *)
Definition do_requests_get (E : env) (url : string) (timeout : Z) : M http_response :=
  fun w =>
    (requests_get E (n_get w) url timeout,
     mk_world (trace w ++ [EGet url timeout]) (S (n_get w)) (n_generate w)).

Definition do_generate_content (E : env) (cfg : gen_config) (contents : string)
  : M model_response :=
  fun w =>
    (generate_content E (n_generate w) cfg contents,
     mk_world (trace w ++ [EGenerate cfg contents]) (n_get w) (S (n_generate w))).

(** [resp.raise_for_status()]: [HTTPError] for a 4xx or 5xx status. *)
Definition raise_for_status (resp : http_response) : M unit :=
  if (400 <=? status_code resp) && (status_code resp <? 600)
  then raise (mk_exn (Requests (HTTPError (status_code resp)))
                     (status_error resp) None [PyStr (status_error resp)])
  else ret tt.

(** [requests.get(url, timeout=timeout)] followed by [raise_for_status()]:
    the body of the [try] of both fetchers. *)
Definition get_checked (E : env) (url : string) (timeout : Z) : M http_response :=
  resp <- do_requests_get E url timeout ;;
  raise_for_status resp ;;
  ret resp.

(** Lines of a text file as iterating over it yields them (each without
    its terminator; the text is what text mode delivers, newlines already
    translated to LF).  A final empty piece is harmless: blank lines are
    dropped by [load_links]. *)
Fixpoint file_lines (s : string) : list string :=
  match s with
  | EmptyString => [EmptyString]
  | String c s' =>
      if Ascii.eqb c (ascii_of_nat 10) then EmptyString :: file_lines s'
      else match file_lines s' with
           | l :: ls => String c l :: ls
           | [] => [String c EmptyString]
           end
  end.

(** * Helpers of the extraction pipeline and the spreadsheet sink *)

(** [s[:n]] *)
Fixpoint str_take (n : N) (s : string) : string :=
  match s with
  | EmptyString => EmptyString
  | String c s' => if (n =? 0)%N then EmptyString else String c (str_take (N.pred n) s')
  end.

(** ** [re.search(r"(\[\s*\{.*?\}\s*\])", text, re.S)]

    The pattern is matched by hand: an opening bracket, whitespace, an
    opening brace, as few characters as possible (any character, newlines
    included), a closing brace, whitespace, a closing bracket; the
    leftmost start wins.  Neither the brace nor the bracket is
    whitespace, so the greedy [\s*] has one way to match. *)

(** [\s*] followed by the character [c], at the start of [s]: the text
    matched. *)
Fixpoint match_spaces_then (c : ascii) (s : string) : option string :=
  match s with
  | EmptyString => None
  | String x s' =>
      if Ascii.eqb x c then Some (String x EmptyString)
      else if py_isspace x then
        match match_spaces_then c s' with
        | Some m => Some (String x m)
        | None => None
        end
      else None
  end.

(** [.*?\}\s*\]] at the start of [s]: the text matched. *)
Fixpoint match_lazy_close (s : string) : option string :=
  match s with
  | EmptyString => None
  | String x s' =>
      match (if Ascii.eqb x "}" then match_spaces_then "]" s' else None) with
      | Some m => Some (String x m)
      | None =>
          match match_lazy_close s' with
          | Some m => Some (String x m)
          | None => None
          end
      end
  end.

(** The text after [\s*\{] at the start of [s], with the text matched. *)
Fixpoint match_spaces_brace (s : string) : option (string * string) :=
  match s with
  | EmptyString => None
  | String x s' =>
      if Ascii.eqb x "{" then Some (String x EmptyString, s')
      else if py_isspace x then
        match match_spaces_brace s' with
        | Some (m, r) => Some (String x m, r)
        | None => None
        end
      else None
  end.

(** The whole pattern at the start of [s]. *)
Definition match_array_here (s : string) : option string :=
  match s with
  | String x s' =>
      if Ascii.eqb x "[" then
        match match_spaces_brace s' with
        | Some (m, r) =>
            match match_lazy_close r with
            | Some m' => Some (String x (m +:+ m'))
            | None => None
            end
        | None => None
        end
      else None
  | EmptyString => None
  end.

(** [m.group(1)] of the search, [None] when there is no match. *)
Fixpoint re_search_array (s : string) : option string :=
  match match_array_here s with
  | Some m => Some m
  | None =>
      match s with
      | String _ s' => re_search_array s'
      | EmptyString => None
      end
  end.

(** ** pandas *)

Definition expected_columns : list string :=
  ["Case Number"; "Case Title"; "Facts"; "Decision"; "Ruling"; "Verdict"].

(** The cell of column [c] in a row laid out by [cols]; missing when the
    row has no such column. *)
Fixpoint row_get (cols : list string) (row : list cell) (c : string) : cell :=
  match cols, row with
  | c' :: cols', x :: row' => if String.eqb c' c then x else row_get cols' row' c
  | _, _ => NaN
  end.

Definition reindex (cols new_cols : list string) (row : list cell) : list cell :=
  map (row_get cols row) new_cols.

(** [pd.concat([a, b], ignore_index=True)] for frames with unique column
    labels (what [read_excel] and [DataFrame(list of dicts)] produce): the
    columns of [a], then those of [b] that [a] lacks; the rows of [a], then
    the rows of [b], each laid out by the combined columns with missing
    cells where its frame had no such column. *)
Definition pd_concat (a b : dataframe) : dataframe :=
  let cols :=
    columns a ++ filter (fun c => negb (bool_decide (c ∈ columns a))) (columns b) in
  mk_df cols (map (reindex (columns a) cols) (rows a)
              ++ map (reindex (columns b) cols) (rows b)).

(** ** The pipeline *)

Definition debug_empty_response (idx : nat) : string :=
  "debug_empty_response_" +:+ pretty idx +:+ ".txt".

Definition debug_bad_json (idx : nat) : string :=
  "debug_bad_json_" +:+ pretty idx +:+ ".txt".

(** What [x.attr] raises when [x] is [None]. *)
Definition none_has_no_attribute (attr : string) : exn :=
  mk_exn AttributeError ("'NoneType' object has no attribute '" +:+ attr +:+ "'") None [].

(** [not response or not hasattr(response, 'text') or not response.text] *)
Definition response_is_empty (response : option model_response) : bool :=
  match response with
  | None => true
  | Some r => match text r with None => true | Some t => is_empty t end
  end.


(** * Further helpers *)

(** [range(0, stop, step)] for a positive [step]: the multiples of [step]
    below [stop]. *)
Definition range_from_zero (stop step : nat) : list nat :=
  map (fun k => (k * step)%nat) (seq 0 ((stop + step - 1) / step)).

(** How a script ends: it returns from its main function, or leaves
    through [sys.exit(code)]. *)
Inductive termination : Type :=
| Returned
| Exited (code : Z).

(** The parsed command line of link_scraper.py: [args.all], [args.filter]
    ([None] when the option is absent) and [args.timeout]. *)
Record cli_args : Type := mk_cli_args {
  arg_all : bool;
  arg_filter : option string;
  arg_timeout : Z
}.

(** The double quote character as a string. *)
Definition dq : string := String (ascii_of_nat 34) EmptyString.

(** What a trace shows on standard output and on standard error. *)
Definition stdout (tr : list event) : list string :=
  omap (fun ev => match ev with EPrint line => Some line | _ => None end) tr.

Definition stderr (tr : list event) : list string :=
  omap (fun ev => match ev with EPrintErr line => Some line | _ => None end) tr.

(** * A model of [urllib.parse]

    [urlparse], [urlunparse] and [urljoin] of the Python standard library
    (CPython 3.11) on [str] arguments, written after the library's code.
    Left out: the [ValueError] for a host with unbalanced or invalid
    square brackets and the NFKC check of a non-ASCII host (the model
    goes on where the library raises). *)

Module urllib_parse.

Definition uses_relative : list string :=
  [""; "ftp"; "http"; "gopher"; "nntp"; "imap"; "wais"; "file"; "https"; "shttp"; "mms";
   "prospero"; "rtsp"; "rtspu"; "sftp"; "svn"; "svn+ssh"; "ws"; "wss"].

Definition uses_netloc : list string :=
  [""; "ftp"; "http"; "gopher"; "nntp"; "telnet"; "imap"; "wais"; "file"; "mms"; "https";
   "shttp"; "snews"; "prospero"; "rtsp"; "rtspu"; "rsync"; "svn"; "svn+ssh"; "sftp"; "nfs";
   "git"; "git+ssh"; "ws"; "wss"].

Definition uses_params : list string :=
  [""; "ftp"; "hdl"; "prospero"; "http"; "imap"; "https"; "shttp"; "rtsp"; "rtspu"; "sip";
   "sips"; "mms"; "sftp"; "tel"].

(** [s in l] for a list of strings *)
Definition str_in (s : string) (l : list string) : bool := existsb (String.eqb s) l.

Definition is_upper (c : ascii) : bool :=
  let n := nat_of_ascii c in ((65 <=? n) && (n <=? 90))%nat.

Definition is_lower (c : ascii) : bool :=
  let n := nat_of_ascii c in ((97 <=? n) && (n <=? 122))%nat.

Definition is_digit (c : ascii) : bool :=
  let n := nat_of_ascii c in ((48 <=? n) && (n <=? 57))%nat.

(** [c.isascii() and c.isalpha()] *)
Definition is_ascii_alpha (c : ascii) : bool := is_upper c || is_lower c.

(** [c in scheme_chars]: letters, digits and [+-.] *)
Definition is_scheme_char (c : ascii) : bool :=
  is_ascii_alpha c || is_digit c
  || Ascii.eqb c "+" || Ascii.eqb c "-" || Ascii.eqb c ".".

Definition to_lower (c : ascii) : ascii :=
  if is_upper c then ascii_of_nat (nat_of_ascii c + 32) else c.

Fixpoint str_lower (s : string) : string :=
  match s with
  | EmptyString => EmptyString
  | String c s' => String (to_lower c) (str_lower s')
  end.

Fixpoint str_forall (p : ascii -> bool) (s : string) : bool :=
  match s with
  | EmptyString => true
  | String c s' => p c && str_forall p s'
  end.

(** [c in s] *)
Fixpoint str_contains (c : ascii) (s : string) : bool :=
  match s with
  | EmptyString => false
  | String x s' => Ascii.eqb x c || str_contains c s'
  end.

(** [(s[:i], s[i+1:])] for [i = s.find(c)]; [None] when [c] is not in [s]. *)
Fixpoint partition_at (c : ascii) (s : string) : option (string * string) :=
  match s with
  | EmptyString => None
  | String x s' =>
      if Ascii.eqb x c then Some (EmptyString, s')
      else match partition_at c s' with
           | Some (a, b) => Some (String x a, b)
           | None => None
           end
  end.

(** [s.split(c)] *)
Fixpoint split_on (c : ascii) (s : string) : list string :=
  match s with
  | EmptyString => [EmptyString]
  | String x s' =>
      if Ascii.eqb x c then EmptyString :: split_on c s'
      else match split_on c s' with
           | l :: ls => String x l :: ls
           | [] => [String x EmptyString]
           end
  end.

(** ['/'.join(l)] *)
Fixpoint join_slash (l : list string) : string :=
  match l with
  | [] => EmptyString
  | [s] => s
  | s :: l' => s +:+ "/" +:+ join_slash l'
  end.

(** [url.lstrip(_WHATWG_C0_CONTROL_OR_SPACE)]: code points up to 32. *)
Fixpoint lstrip_c0 (s : string) : string :=
  match s with
  | String c s' => if (nat_of_ascii c <=? 32)%nat then lstrip_c0 s' else s
  | EmptyString => EmptyString
  end.

Fixpoint rstrip_c0 (s : string) : string :=
  match s with
  | String c s' =>
      match rstrip_c0 s' with
      | EmptyString =>
          if (nat_of_ascii c <=? 32)%nat then EmptyString else String c EmptyString
      | r => String c r
      end
  | EmptyString => EmptyString
  end.

(** Removal of [_UNSAFE_URL_BYTES_TO_REMOVE]: tab, carriage return, line
    feed. *)
Definition is_unsafe (c : ascii) : bool :=
  let n := nat_of_ascii c in ((n =? 9) || (n =? 13) || (n =? 10))%nat.

Fixpoint remove_unsafe (s : string) : string :=
  match s with
  | EmptyString => EmptyString
  | String c s' => if is_unsafe c then remove_unsafe s' else String c (remove_unsafe s')
  end.

(** [_splitnetloc(url, 2)] on the text after the two slashes: the text up
    to the first of [/?#], and the rest. *)
Fixpoint splitnetloc (s : string) : string * string :=
  match s with
  | EmptyString => (EmptyString, EmptyString)
  | String x s' =>
      if Ascii.eqb x "/" || Ascii.eqb x "?" || Ascii.eqb x "#" then (EmptyString, s)
      else let (d, r) := splitnetloc s' in (String x d, r)
  end.

Record SplitResult : Type := mk_split {
  s_scheme : string;
  s_netloc : string;
  s_path : string;
  s_query : string;
  s_fragment : string
}.

(** [urlsplit(url, scheme)] *)
Definition urlsplit (url scheme : string) : SplitResult :=
  let url := remove_unsafe (lstrip_c0 url) in
  let scheme := remove_unsafe (lstrip_c0 (rstrip_c0 scheme)) in
  let '(scheme, url) :=
    match partition_at ":" url with
    | Some (String c0 pre, rest) =>
        if is_ascii_alpha c0 && str_forall is_scheme_char (String c0 pre)
        then (str_lower (String c0 pre), rest)
        else (scheme, url)
    | _ => (scheme, url)
    end in
  let '(netloc, url) :=
    match url with
    | String "/" (String "/" rest) => splitnetloc rest
    | _ => (EmptyString, url)
    end in
  let '(url, fragment) :=
    match partition_at "#" url with
    | Some (a, b) => (a, b)
    | None => (url, EmptyString)
    end in
  let '(url, query) :=
    match partition_at "?" url with
    | Some (a, b) => (a, b)
    | None => (url, EmptyString)
    end in
  mk_split scheme netloc url query fragment.

(** [url] cut after its last slash: the part up to and including the
    slash, and the rest; without a slash the first part is empty. *)
Fixpoint rsplit_slash (s : string) : string * string :=
  match s with
  | EmptyString => (EmptyString, EmptyString)
  | String x s' =>
      let (h, t) := rsplit_slash s' in
      if str_contains "/" s' then (String x h, t)
      else if Ascii.eqb x "/" then (String x EmptyString, s')
      else (EmptyString, String x s')
  end.

(** [_splitparams(url)] *)
Definition splitparams (url : string) : string * string :=
  let (h, t) := rsplit_slash url in
  match partition_at ";" t with
  | Some (a, b) => (h +:+ a, b)
  | None => (url, EmptyString)
  end.

Record ParseResult : Type := mk_parse {
  scheme : string;
  netloc : string;
  path : string;
  params : string;
  query : string;
  fragment : string
}.

(** [urlparse(url, scheme)] *)
Definition urlparse (url default_scheme : string) : ParseResult :=
  let r := urlsplit url default_scheme in
  let '(url, params) :=
    if str_in (s_scheme r) uses_params && str_contains ";" (s_path r)
    then splitparams (s_path r)
    else (s_path r, EmptyString) in
  mk_parse (s_scheme r) (s_netloc r) url params (s_query r) (s_fragment r).

Definition starts_with_two_slashes (s : string) : bool :=
  match s with String "/" (String "/" _) => true | _ => false end.

Definition starts_with_slash (s : string) : bool :=
  match s with String "/" _ => true | _ => false end.

(** [urlunsplit((scheme, netloc, url, query, fragment))] *)
Definition urlunsplit (scheme netloc url query fragment : string) : string :=
  let url :=
    if negb (is_empty netloc)
       || (negb (is_empty scheme) && str_in scheme uses_netloc
           && negb (starts_with_two_slashes url))
    then
      let url :=
        if negb (is_empty url) && negb (starts_with_slash url) then "/" +:+ url else url in
      "//" +:+ netloc +:+ url
    else url in
  let url := if negb (is_empty scheme) then scheme +:+ ":" +:+ url else url in
  let url := if negb (is_empty query) then url +:+ "?" +:+ query else url in
  if negb (is_empty fragment) then url +:+ "#" +:+ fragment else url.

(** [urlunparse((scheme, netloc, url, params, query, fragment))] *)
Definition urlunparse (p : ParseResult) : string :=
  let url := if negb (is_empty (params p)) then path p +:+ ";" +:+ params p else path p in
  urlunsplit (scheme p) (netloc p) url (query p) (fragment p).

(** [segments[1:-1] = filter(None, segments[1:-1])] *)
Definition filter_inner (segments : list string) : list string :=
  match segments with
  | first :: rest =>
      match rev rest with
      | last :: inner_rev =>
          first :: filter (fun s => negb (is_empty s)) (rev inner_rev) ++ [last]
      | [] => segments
      end
  | [] => []
  end.

(** The loop over the segments: [..] pops, [.] is skipped. *)
Fixpoint resolve_segments (resolved_path : list string) (segments : list string)
  : list string :=
  match segments with
  | [] => resolved_path
  | seg :: rest =>
      if String.eqb seg ".." then resolve_segments (removelast resolved_path) rest
      else if String.eqb seg "." then resolve_segments resolved_path rest
      else resolve_segments (resolved_path ++ [seg]) rest
  end.

(** [urljoin(base, url)] *)
Definition urljoin (base url : string) : string :=
  if is_empty base then url
  else if is_empty url then base
  else
    let b := urlparse base EmptyString in
    let u := urlparse url (scheme b) in
    if negb (String.eqb (scheme u) (scheme b)) || negb (str_in (scheme u) uses_relative)
    then url
    else if str_in (scheme u) uses_netloc && negb (is_empty (netloc u))
    then urlunparse u
    else
      let netloc' := if str_in (scheme u) uses_netloc then netloc b else netloc u in
      if is_empty (path u) && is_empty (params u) then
        urlunparse (mk_parse (scheme u) netloc' (path b) (params b)
                             (if is_empty (query u) then query b else query u)
                             (fragment u))
      else
        let base_parts := split_on "/" (path b) in
        let base_parts :=
          if negb (is_empty (List.last base_parts EmptyString))
          then removelast base_parts else base_parts in
        let segments :=
          if starts_with_slash (path u) then split_on "/" (path u)
          else filter_inner (base_parts ++ split_on "/" (path u)) in
        let resolved_path := resolve_segments [] segments in
        let resolved_path :=
          if String.eqb (List.last segments EmptyString) "."
             || String.eqb (List.last segments EmptyString) ".."
          then resolved_path ++ [EmptyString] else resolved_path in
        let joined := join_slash resolved_path in
        urlunparse (mk_parse (scheme u) netloc'
                             (if is_empty joined then "/" else joined)
                             (params u) (query u) (fragment u)).

End urllib_parse.

(** * main.py *)

Module main.

Section Main.
Variable E : env.

(** [load_links(path)], lines 28-33. *)
Definition load_links (path : string) : M (list string) :=
  if negb (path_exists E path) then
    print ("Warning: Links file '" +:+ path +:+ "' not found. Using empty list.") ;;
    ret []
  else
    txt <- lift (read_text E path) ;;
    ret (filter (fun line => negb (is_empty line)) (map strip (file_lines txt))).

(** [chunks(lst, n)], lines 36-38: the slices [lst[i:i + n]] the generator
    yields for [i] in [range(0, len(lst), n)].  A zero [n] is the
    [ValueError] of [range], raised when the generator is first advanced;
    for a negative [n] the range is empty. *)
Definition chunks {A : Type} (lst : list A) (n : Z) : outcome (list (list A)) :=
  if (n =? 0)%Z then Raises (value_error "range() arg 3 must not be zero")
  else if (n <? 0)%Z then Returns []
  else
    Returns (map (fun i => take (Z.to_nat n) (drop i lst))
                 (range_from_zero (length lst) (Z.to_nat n))).

Definition TRANSIENT_STATUS : gset Z := {[ 429; 500; 502; 503; 504 ]}.

(** Lines 49-57: the status code read off an exception.  [None] is Python's
    [None], also when the inner [try] caught an exception of [int(...)] or
    of [.get] on something that is not a dict. *)
Definition extract_status (e : exn) : option Z :=
  match exn_code e with
  | Some c => py_int E c
  | None =>
      match exn_args e with
      | PyDict d :: _ =>
          match dict_get d "error" with
          | Some (PyDict err) =>
              py_int E (default (PyInt 0) (dict_get err "code"))
          | Some _ => None
          | None => None
          end
      | _ => None
      end
  end.

(** [status in TRANSIENT_STATUS] *)
Definition is_transient (status : option Z) : bool :=
  match status with
  | Some s => bool_decide (s ∈ TRANSIENT_STATUS)
  | None => false
  end.

(** The loop of [call_model_with_retries], lines 44-63, over the remaining
    values of [range(1, max_retries + 1)].  Falling off the loop returns
    [None]. *)
Fixpoint call_model_loop (cfg : gen_config) (contents : string) (max_retries : nat)
    (attempts : list nat) (delay : Z) : M (option model_response) :=
  match attempts with
  | [] => ret None
  | attempt :: rest =>
      r <- try_ (do_generate_content E cfg contents) ;;
      match r with
      | Returns resp => ret (Some resp)
      | Raises e =>
          let status := extract_status e in
          let transient := is_transient status in
          if negb transient || (attempt =? max_retries)%nat then raise e
          else
            print ("Transient error (attempt " +:+ pretty attempt +:+ "/"
                   +:+ pretty max_retries +:+ "): " +:+ exn_str e
                   +:+ ". Retrying in " +:+ pretty delay +:+ "s...") ;;
            sleep delay ;;
            call_model_loop cfg contents max_retries rest (delay * 2)
      end
  end.

Definition call_model_with_retries (cfg : gen_config) (contents : string)
    (max_retries : nat) (initial_delay : Z) : M (option model_response) :=
  call_model_loop cfg contents max_retries (seq 1 max_retries) initial_delay.

(** The loop of [fetch_page_with_retries], lines 68-78. *)
Fixpoint fetch_page_loop (url : string) (timeout : Z) (max_retries : nat)
    (attempts : list nat) (delay : Z) : M (option http_response) :=
  match attempts with
  | [] => ret None
  | attempt :: rest =>
      r <- try_ (get_checked E url timeout) ;;
      match r with
      | Returns resp => ret (Some resp)
      | Raises e =>
          if is_RequestException e then
            if (attempt =? max_retries)%nat then raise e
            else
              print ("Request error (attempt " +:+ pretty attempt +:+ "/"
                     +:+ pretty max_retries +:+ "): " +:+ exn_str e
                     +:+ ". Retrying in " +:+ pretty delay +:+ "s...") ;;
              sleep delay ;;
              fetch_page_loop url timeout max_retries rest (delay * 2)
          else raise e
      end
  end.

Definition fetch_page_with_retries (url : string) (max_retries : nat) (timeout : Z)
  : M (option http_response) :=
  fetch_page_loop url timeout max_retries (seq 1 max_retries) 2.


(** Lines 218-238: direct load, repair, then the array substring. *)
Definition recover_json (raw_json_text : string) (all_new_data : list pyval) : M pyval :=
  r1 <- try_ (lift (json_loads E raw_json_text)) ;;
  match r1 with
  | Returns new_data => ret new_data
  | Raises e1 =>
      if is_JSONDecodeError e1 then
        r2 <- try_ (new_data <- lift (json_repair_loads E raw_json_text) ;;
                    print "  Repaired malformed JSON with json_repair" ;;
                    ret new_data) ;;
        match r2 with
        | Returns new_data => ret new_data
        | Raises _ =>
            match re_search_array raw_json_text with
            | Some group1 =>
                r3 <- try_ (lift (json_loads E group1)) ;;
                match r3 with
                | Returns new_data => ret new_data
                | Raises e3 =>
                    if is_JSONDecodeError e3 then
                      new_data <- lift (json_repair_loads E group1) ;;
                      print "  Repaired regex-extracted JSON with json_repair" ;;
                      ret new_data
                    else raise e3
                end
            | None =>
                let idx := (length all_new_data + 1)%nat in
                write_file (debug_bad_json idx) raw_json_text ;;
                raise (value_error "Could not parse JSON response even with repairs")
            end
        end
      else raise e1
  end.

(** Lines 240-246: the shape check and [all_new_data.extend(new_data)]. *)
Definition validate_and_extend (new_data : pyval) (all_new_data : list pyval)
  : M (list pyval) :=
  match new_data with
  | PyList xs =>
      if negb (length xs =? 1)%nat then
        raise (value_error "Gemini response must be a JSON array with exactly one object.")
      else
        print ("Successfully extracted " +:+ pretty (length xs) +:+ " record(s).") ;;
        ret (all_new_data ++ xs)
  | _ => raise (value_error "Gemini response must be a JSON array with exactly one object.")
  end.

(** The body of the [try] of the loop over the links, lines 154-246.  It
    returns the extended [all_new_data]. *)
Definition extract_case (link : string) (all_new_data : list pyval) : M (list pyval) :=
  page <- fetch_page_with_retries link 4 30 ;;
  match page with
  | None => raise (none_has_no_attribute "content")
  | Some page =>
      let page_text := str_take 285000 (soup_get_text E (content page)) in
      let contents :=
        "Here is the page text to extract from:" +:+ nl +:+ nl +:+ page_text +:+ nl +:+ nl
        +:+ "Extract the case data as JSON per system instruction." in
      response <- call_model_with_retries CaseInstruction contents 4 2 ;;
      response <-
        (if response_is_empty response then
           let idx := (length all_new_data + 1)%nat in
           write_file (debug_empty_response idx) page_text ;;
           print "  Empty response, retrying with stricter prompt..." ;;
           r <- try_ (call_model_with_retries StricterInstruction contents 1 2) ;;
           match r with
           | Returns response => ret response
           | Raises _ => raise (value_error "Empty model response after retry")
           end
         else ret response) ;;
      match response with
      | None => raise (none_has_no_attribute "text")
      | Some response =>
          let raw_json_text := strip (default EmptyString (text response)) in
          if is_empty raw_json_text then
            let idx := (length all_new_data + 1)%nat in
            write_file (debug_empty_response idx) page_text ;;
            raise (value_error "Empty model response")
          else
            new_data <- recover_json raw_json_text all_new_data ;;
            validate_and_extend new_data all_new_data
      end
  end.

(** One turn of the loop, lines 150-251: a failure is printed and the
    loop continues with [all_new_data] as it was. *)
Definition process_link (link : string) (all_new_data : list pyval) : M (list pyval) :=
  print ("--- Processing link: " +:+ link +:+ " ---") ;;
  r <- try_ (extract_case link all_new_data) ;;
  match r with
  | Returns data => ret data
  | Raises e =>
      print ("ERROR: Failed to process link " +:+ link +:+ ". Skipping to next link.") ;;
      print ("Error details: " +:+ exn_str e) ;;
      ret all_new_data
  end.

Fixpoint process_links (links : list string) (all_new_data : list pyval)
  : M (list pyval) :=
  match links with
  | [] => ret all_new_data
  | link :: rest =>
      data <- process_link link all_new_data ;;
      process_links rest data
  end.

(** Lines 262-280: [df_combined]. *)
Definition merge_with_existing (EXCEL_FILENAME : string) (df_new : dataframe)
  : M dataframe :=
  if path_exists E EXCEL_FILENAME then
    r <- try_ (df_existing <- lift (pd_read_excel E EXCEL_FILENAME) ;;
               if (0 <? length (rows df_existing))%nat
                  && bool_decide (columns df_existing <> expected_columns)
               then
                 print "Existing Excel has different headers. Overwriting with new data." ;;
                 ret df_new
               else
                 print "Appending new data to existing file." ;;
                 let df_combined := pd_concat df_existing df_new in
                 print ("Total records now in file: "
                        +:+ pretty (length (rows df_combined))) ;;
                 ret df_combined) ;;
    match r with
    | Returns df_combined => ret df_combined
    | Raises e =>
        print ("Warning: Could not read existing Excel file. Writing only new data. Error: "
               +:+ exn_str e) ;;
        ret df_new
    end
  else
    print (nl +:+ "'" +:+ EXCEL_FILENAME +:+ "' not found. Creating new Excel file.") ;;
    ret df_new.

(** [df.to_excel(path, index=False)] *)
Definition to_excel (path : string) (df : dataframe) : M unit :=
  emit (EToExcel path df) ;;
  lift (pd_to_excel E path df).

(** Lines 253-286: the file writing and appending logic.  An exception
    of [pd.DataFrame] at line 259 is not handled. *)
Definition write_excel (EXCEL_FILENAME : string) (all_new_data : list pyval) : M unit :=
  match all_new_data with
  | [] =>
      print (nl +:+ "No data extracted successfully. Exiting file write process.")
  | _ =>
      df_new <- lift (pd_DataFrame E all_new_data) ;;
      df_combined <- merge_with_existing EXCEL_FILENAME df_new ;;
      to_excel EXCEL_FILENAME df_combined ;;
      print (nl +:+ "--- SUCCESS ---") ;;
      print ("Total new records appended: " +:+ pretty (length (rows df_new))) ;;
      print ("File saved/updated as: " +:+ EXCEL_FILENAME)
  end.

(** [input(prompt)] *)
Definition input (prompt : string) : M string :=
  emit (EInput prompt) ;;
  ret (input_line E).

(** [generate_and_append_to_excel()], lines 83-286. *)
Definition generate_and_append_to_excel : M unit :=
  LINKS_TO_PROCESS <- load_links "links.txt" ;;
  match LINKS_TO_PROCESS with
  | [] => print "No links to process. Check links.txt file."
  | _ =>
      print (nl +:+ "Note: If the excel file does not exist, it will be created. "
             +:+ "If it exists, new data will be appended to it." +:+ nl) ;;
      print ("Be sure to close the specified excel file (if exist) before proceeding."
             +:+ nl) ;;
      typed <- input "Enter Excel filename (without .xlsx, example 'march_data' or 'april'): " ;;
      let filename_input := strip typed in
      let EXCEL_FILENAME := os_path_join E "excel_files" (filename_input +:+ ".xlsx") in
      writable <-
        (if path_exists E EXCEL_FILENAME then
           r <- try_ (lift (open_append E EXCEL_FILENAME)) ;;
           match r with
           | Returns _ => ret true
           | Raises e =>
               if is_PermissionError e then
                 print ("Error: The file '" +:+ EXCEL_FILENAME
                        +:+ "' is currently open in another application. "
                        +:+ "Please close it before proceeding.") ;;
                 ret false
               else raise e
           end
         else ret true) ;;
      if negb writable then ret tt
      else
        match environ_api_key E with
        | Some (String c k) =>
            let api_key := String c k in
            r <- try_ (lift (genai_Client E api_key)) ;;
            match r with
            | Raises e =>
                print "Error: Could not initialize Gemini Client." ;;
                print ("Details: " +:+ exn_str e)
            | Returns _ =>
                all_new_data <- process_links LINKS_TO_PROCESS [] ;;
                write_excel EXCEL_FILENAME all_new_data
            end
        | _ =>
            print ("ERROR: GEMINI_API_KEY not found. Please ensure it is set in "
                   +:+ "your .env file or system environment.")
        end
  end.


End Main.
End main.

(** * link_scraper.py *)

Module link_scraper.

Section LinkScraperFetch.
Variable E : env.

(** The loop of [fetch_page_with_retries], lines 44-57. *)
Fixpoint fetch_page_loop (url : string) (timeout : Z) (max_retries : nat)
    (attempts : list nat) (delay : Z) : M (option http_response) :=
  match attempts with
  | [] => ret None
  | attempt :: rest =>
      r <- try_ (get_checked E url timeout) ;;
      match r with
      | Returns response => ret (Some response)
      | Raises e =>
          if is_RequestException e then
            let last_exception := e in
            if (attempt <? max_retries)%nat then
              print_err ("Request failed (attempt " +:+ pretty attempt +:+ "/"
                         +:+ pretty max_retries +:+ "): " +:+ exn_str e
                         +:+ ". Retrying in " +:+ pretty delay +:+ "s...") ;;
              sleep delay ;;
              fetch_page_loop url timeout max_retries rest (delay * 2)
            else raise last_exception
          else raise e
      end
  end.

Definition fetch_page_with_retries (url : string) (max_retries : nat) (timeout : Z)
  : M (option http_response) :=
  fetch_page_loop url timeout max_retries (seq 1 max_retries) 1.

End LinkScraperFetch.

Section ExtractLinks.
(** [a_tag['href']] of each tag of [soup.find_all("a", href=True)] for
    [soup = BeautifulSoup(content, "html.parser")], in document order. *)
Variable soup_hrefs : string -> list string.
(** [urllib.parse.urljoin], and [urlparse] of one argument: the values
    of the calls.  This section is the extraction when every library
    call returns; [extract_links_or_raise] below is the extraction with
    the exceptions of these calls, as [main] meets them. *)
Variable urljoin : string -> string -> string.
Variable urlparse : string -> urllib_parse.ParseResult.
(** [re.search(pattern, s, re.IGNORECASE)] finds a match. *)
Variable re_search_ignorecase : string -> string -> bool.

(** Line 76: the absolute URL of an href. *)
Definition absolute_url (base_url href : string) : string :=
  urljoin (base_url +:+ "/") href.

(** Lines 69-85 for one tag: the absolute URL when no [continue] is taken,
    [None] when the tag is skipped. *)
Definition accepted_url (base_url : string) (filter_regex : option string)
    (raw_href : string) : option string :=
  let href := strip raw_href in
  if is_empty href || startswith_hash href || is_empty href then None
  else
    let abs_url := absolute_url base_url href in
    let parsed := urlparse abs_url in
    if is_empty (urllib_parse.scheme parsed) || is_empty (urllib_parse.netloc parsed)
    then None
    else
      let filtered_out :=
        match filter_regex with
        | Some (String c p) => negb (re_search_ignorecase (String c p) abs_url)
        | _ => false
        end in
      if filtered_out then None else Some abs_url.

(** Lines 87-90: add the URL unless it was seen. *)
Definition add_link (st : gset string * list string) (abs_url : string)
  : gset string * list string :=
  let (seen, ordered_links) := st in
  if bool_decide (abs_url ∉ seen)
  then ({[ abs_url ]} ∪ seen, ordered_links ++ [abs_url])
  else st.

(** One turn of the loop of lines 68-90. *)
Definition visit (base_url : string) (filter_regex : option string)
    (st : gset string * list string) (raw_href : string) : gset string * list string :=
  match accepted_url base_url filter_regex raw_href with
  | Some abs_url => add_link st abs_url
  | None => st
  end.

(** [extract_links(url, response, filter_regex)], lines 60-92, on the
    content of the response. *)
Definition extract_links (url content : string) (filter_regex : option string)
  : list string :=
  let base_url := rstrip_slash url in
  (foldl (visit base_url filter_regex) (∅, []) (soup_hrefs content)).2.

End ExtractLinks.

Section CommandLine.
Variable E : env.
Variable soup_hrefs : string -> list string.
(** The library calls of [extract_links] as [main] makes them, each of
    which may raise: [urljoin] and [urlparse] raise [ValueError] on an
    href such as [http://[bad], [re.search] raises [re.error] for a
    pattern that does not compile. *)
Variable urljoin : string -> string -> outcome string.
Variable urlparse : string -> outcome urllib_parse.ParseResult.
Variable re_search_ignorecase : string -> string -> outcome bool.

(** The default filter of line 128: case links only. *)
Definition default_filter : string :=
  "^https?://elibrary\.judiciary\.gov\.ph/thebookshelf/showdocs/\d+/\d+$".

(** Lines 124-130: the filter pattern chosen from the options. *)
Definition filter_pattern_of (args : cli_args) : option string :=
  match arg_filter args with
  | Some (String c p) => Some (String c p)
  | _ => if negb (arg_all args) then Some default_filter else None
  end.

(** Lines 69-85 for one tag, with the exceptions of the library calls:
    the absolute URL when no [continue] is taken, [None] when the tag is
    skipped, or the exception of the first call that raises. *)
Definition accepted_url_or_raise (base_url : string) (filter_regex : option string)
    (raw_href : string) : outcome (option string) :=
  let href := strip raw_href in
  if is_empty href || startswith_hash href || is_empty href then Returns None
  else
    match urljoin (base_url +:+ "/") href with
    | Raises e => Raises e
    | Returns abs_url =>
        match urlparse abs_url with
        | Raises e => Raises e
        | Returns parsed =>
            if is_empty (urllib_parse.scheme parsed) || is_empty (urllib_parse.netloc parsed)
            then Returns None
            else
              match filter_regex with
              | Some (String c p) =>
                  match re_search_ignorecase (String c p) abs_url with
                  | Raises e => Raises e
                  | Returns found => Returns (if found then Some abs_url else None)
                  end
              | _ => Returns (Some abs_url)
              end
        end
    end.

(** The loop of lines 68-90: an exception raised at a tag leaves it. *)
Fixpoint visit_or_raise (base_url : string) (filter_regex : option string)
    (st : gset string * list string) (hrefs : list string)
  : outcome (gset string * list string) :=
  match hrefs with
  | [] => Returns st
  | raw_href :: rest =>
      match accepted_url_or_raise base_url filter_regex raw_href with
      | Raises e => Raises e
      | Returns (Some abs_url) =>
          visit_or_raise base_url filter_regex (add_link st abs_url) rest
      | Returns None => visit_or_raise base_url filter_regex st rest
      end
  end.

(** [extract_links(url, response, filter_regex)] as called at line 148:
    the links, or the exception that a library call raised. *)
Definition extract_links_or_raise (url content : string) (filter_regex : option string)
  : outcome (list string) :=
  match visit_or_raise (rstrip_slash url) filter_regex (∅, []) (soup_hrefs content) with
  | Returns st => Returns st.2
  | Raises e => Raises e
  end.

(** Lines 154-155: each link on its own line of standard output. *)
Fixpoint print_links (links : list string) : M unit :=
  match links with
  | [] => ret tt
  | link :: rest => print link ;; print_links rest
  end.

(** [main()], lines 95-162, after [parser.parse_args()]. *)
Definition main (args : cli_args) : M termination :=
  let filter_pattern := filter_pattern_of args in
  print (nl +:+ "Enter the link to scrape the case URLs from the specific year "
         +:+ "and month like this " +:+ dq
         +:+ "https://elibrary.judiciary.gov.ph/thebookshelf/docmonth/May/2021/1"
         +:+ dq +:+ nl) ;;
  typed <- main.input E "Enter URL to scrape: " ;;
  let url := strip typed in
  if is_empty url then
    print_err "No URL provided. Exiting." ;;
    ret (Exited 1)
  else
    r <- try_ (print_err ("Fetching links from: " +:+ url) ;;
               match filter_pattern with
               | Some (String c p) => print_err ("Filter pattern: " +:+ String c p)
               | _ => ret tt
               end ;;
               response <- fetch_page_with_retries E url 3 (arg_timeout args) ;;
               match response with
               | None => raise (none_has_no_attribute "content")
               | Some response =>
                   links <- lift (extract_links_or_raise url (content response)
                                    filter_pattern) ;;
                   print_err ("Found " +:+ pretty (length links) +:+ " unique link(s):") ;;
                   print_err EmptyString ;;
                   print_links links
               end) ;;
    match r with
    | Returns _ => ret Returned
    | Raises e =>
        if is_RequestException e then
          print_err ("Error fetching page: " +:+ exn_str e) ;;
          ret (Exited 1)
        else
          print_err ("Unexpected error: " +:+ exn_str e) ;;
          ret (Exited 1)
    end.

End CommandLine.
End link_scraper.

(** * Retry with backoff: the shape shared by the three loops

    The three retry loops of the repository are copies of one another up
    to the attempted call, the test for which exceptions are handled, the
    test for the last attempt and the message.  [retry_loop] is that
    common shape; each loop of the source is shown equal to an instance
    of it, and the properties of the loops are proved once. *)

Section RetryLoop.
Context {A : Type}.
Variable attempt_once : M A.
Variable retryable : exn -> bool.
Variable is_last : nat -> bool.
Variable announce : nat -> exn -> Z -> event.

Fixpoint retry_loop (attempts : list nat) (delay : Z) : M (option A) :=
  match attempts with
  | [] => ret None
  | attempt :: rest =>
      r <- try_ attempt_once ;;
      match r with
      | Returns a => ret (Some a)
      | Raises e =>
          if retryable e && negb (is_last attempt) then
            emit (announce attempt e delay) ;;
            sleep delay ;;
            retry_loop rest (delay * 2)
          else raise e
      end
  end.

(** The events of [k] consecutive attempts that failed with the errors
    [errs 0 .. errs (k-1)] and were retried, the first of them being
    attempt number [a] made with delay [d]. *)
Fixpoint backoff_trace (call : event) (errs : nat -> exn) (a : nat) (d : Z) (k : nat)
  : list event :=
  match k with
  | O => []
  | S k' =>
      [call; announce a (errs O) d; ESleep d]
      ++ backoff_trace call (fun j => errs (S j)) (S a) (d * 2) k'
  end.

End RetryLoop.

(** The retry policy at one failed attempt.  [run] is a whole run of a
    retry loop started in world [w] with delay [d0]; its first [k] attempts
    failed with [errs 0 .. errs (k-1)] and were retried, and attempt [k+1]
    raised [e].  When [retried] holds the run goes on after the failed call
    with the message, a sleep of the [k] times doubled delay and the next
    call; when it does not, [e] is raised and the failed call is the last
    event of the run. *)
Definition backoff_policy_at {A} (run : outcome A * world) (w : world) (call : event)
    (announce : nat -> exn -> Z -> event) (errs : nat -> exn) (d0 : Z) (k : nat)
    (e : exn) (retried : Prop) : Prop :=
  let before := trace w ++ backoff_trace announce call errs 1 d0 k in
  let delay := d0 * 2 ^ Z.of_nat k in
  (retried ->
     exists post,
       trace run.2
       = before ++ [call; announce (k + 1)%nat e delay; ESleep delay; call] ++ post)
  /\ (~ retried -> run.1 = Raises e /\ trace run.2 = before ++ [call]).

(** The outcome of the n-th request of a run once its status has been
    checked: what the [try] body of a fetcher (lines 46-48 of
    link_scraper.py, 70-72 of main.py) returns or raises. *)
Definition checked_get_answer (E : env) (n : nat) (url : string) (timeout : Z)
  : outcome http_response :=
  match requests_get E n url timeout with
  | Returns resp =>
      if (400 <=? status_code resp) && (status_code resp <? 600)
      then Raises (mk_exn (Requests (HTTPError (status_code resp)))
                          (status_error resp) None [PyStr (status_error resp)])
      else Returns resp
  | Raises e => Raises e
  end.

(** The spec's words (glossary, and section 4.1): a transient error is one
    likely to succeed on retry, "e.g., HTTP 429/5xx, network timeout"; a
    malformed URL is its example of a non-transient error. *)
Definition spec_transient_fetch_error (e : exn) : bool :=
  match exn_cls e with
  | Requests (HTTPError s) => (s =? 429) || (500 <=? s) && (s <? 600)
  | Requests ConnectionError => true
  | Requests Timeout => true
  | _ => false
  end.

(** The line printed before a retry (line 61). *)
Definition transient_error_line (max_retries attempt : nat) (e : exn) (delay : Z) : event :=
  EPrint ("Transient error (attempt " +:+ pretty attempt +:+ "/"
          +:+ pretty max_retries +:+ "): " +:+ exn_str e
          +:+ ". Retrying in " +:+ pretty delay +:+ "s...").

(** The lines printed before a retry: line 76 of main.py (standard
    output) and lines 52-53 of link_scraper.py (standard error). *)
Definition request_error_line (max_retries attempt : nat) (e : exn) (delay : Z) : event :=
  EPrint ("Request error (attempt " +:+ pretty attempt +:+ "/"
          +:+ pretty max_retries +:+ "): " +:+ exn_str e
          +:+ ". Retrying in " +:+ pretty delay +:+ "s...").

Definition request_failed_line (max_retries attempt : nat) (e : exn) (delay : Z) : event :=
  EPrintErr ("Request failed (attempt " +:+ pretty attempt +:+ "/"
             +:+ pretty max_retries +:+ "): " +:+ exn_str e
             +:+ ". Retrying in " +:+ pretty delay +:+ "s...").


(** ** Debug artifacts *)

Inductive debug_kind : Type :=
| EmptyResponse
| BadJson.

(** The file name of a debug artifact of the given kind and number. *)
Definition debug_name (a : debug_kind * nat) : string :=
  match a.1 with
  | EmptyResponse => debug_empty_response a.2
  | BadJson => debug_bad_json a.2
  end.

(** An event of the processing of one link: if it writes a file, the file
    is a debug artifact with the number [n]; no spreadsheet is written. *)
Definition debug_write_numbered (n : nat) (ev : event) : Prop :=
  match ev with
  | EWriteFile p _ => exists k, p = debug_name (k, n)
  | EToExcel _ _ => False
  | _ => True
  end.

(** The events a run added to the trace of the world it started in. *)
Definition new_events (w w' : world) : list event :=
  drop (length (trace w)) (trace w').

(** [emits P m]: whatever the world, [m] only appends events to the
    trace, and each appended event satisfies [P]. *)
Definition emits {A} (P : event -> Prop) (m : M A) : Prop :=
  forall w, exists new, trace (m w).2 = trace w ++ new /\ Forall P new.

(** [returns_only Q m]: whatever the world, a value returned by [m]
    satisfies [Q]. *)
Definition returns_only {A} (Q : A -> Prop) (m : M A) : Prop :=
  forall w, match (m w).1 with Returns a => Q a | Raises _ => True end.

(** Events of the retry loops: requests, model calls, messages and sleeps,
    never a file write. *)
Definition is_retry_event (ev : event) : Prop :=
  match ev with
  | EGet _ _ | EGenerate _ _ | ESleep _ | EPrint _ => True
  | _ => False
  end.

(** ** Link extraction *)

(** The absolute URLs of the document's hyperlinks that are kept by the
    checks of lines 69-85, in document order, repetitions included. *)
Definition candidate_urls (soup_hrefs : string -> list string)
    (urljoin : string -> string -> string)
    (urlparse : string -> urllib_parse.ParseResult)
    (re_search_ignorecase : string -> string -> bool)
    (url content : string) (filter_regex : option string) : list string :=
  omap (link_scraper.accepted_url urljoin urlparse re_search_ignorecase
          (rstrip_slash url) filter_regex)
       (soup_hrefs content).

(** The position of the first occurrence of [u] in [l] (the length of [l]
    when there is none). *)
Fixpoint first_index (u : string) (l : list string) : nat :=
  match l with
  | [] => O
  | x :: l' => if String.eqb x u then O else S (first_index u l')
  end.

(** What holds of the loop state after the candidates [cands] have been
    visited. *)
Definition dedup_invariant (cands : list string) (st : gset string * list string) : Prop :=
  (forall u, u ∈ st.1 <-> u ∈ st.2)
  /\ NoDup st.2
  /\ (forall u, u ∈ st.2 <-> u ∈ cands)
  /\ (forall i j u v, st.2 !! i = Some u -> st.2 !! j = Some v -> (i < j)%nat ->
        (first_index u cands < first_index v cands)%nat).

(** ** Plain URLs

    The URLs and hrefs for which the resolution is stated: printable ASCII
    without the characters that [urlsplit] treats specially. *)

(** A printable ASCII character other than [/ ? # ; : [ ]]. *)
Definition plain_char (c : ascii) : bool :=
  let n := nat_of_ascii c in
  ((32 <? n) && (n <? 127))%nat
  && negb (Ascii.eqb c "/") && negb (Ascii.eqb c "?") && negb (Ascii.eqb c "#")
  && negb (Ascii.eqb c ";") && negb (Ascii.eqb c ":")
  && negb (Ascii.eqb c "[") && negb (Ascii.eqb c "]").

(** A text of plain characters. *)
Definition plain_text (s : string) : bool := urllib_parse.str_forall plain_char s.

(** A path segment: a non-empty plain text other than [.] and [..]. *)
Definition plain_segment (s : string) : bool :=
  negb (is_empty s) && plain_text s && negb (String.eqb s ".") && negb (String.eqb s "..").


(** A character that is plain or a slash. *)
Definition path_char (c : ascii) : bool := plain_char c || Ascii.eqb c "/".
(** * Text files *)

(** The text of a file whose lines are [ls], each with its terminator. *)
Fixpoint unlines (ls : list string) : string :=
  match ls with
  | [] => EmptyString
  | l :: ls' => l +:+ nl +:+ unlines ls'
  end.

(** The text holds no line feed. *)
Definition one_line (s : string) : bool :=
  urllib_parse.str_forall (fun c => negb (Ascii.eqb c (ascii_of_nat 10))) s.

(** * The command line of link_scraper.py *)

(** Events of the fetcher of link_scraper.py: requests, sleeps and lines
    on standard error. *)
Definition scraper_fetch_event (ev : event) : Prop :=
  match ev with
  | EGet _ _ | ESleep _ | EPrintErr _ => True
  | _ => False
  end.

(** Line 133: the line printed before the prompt. *)
Definition url_prompt : string :=
  nl +:+ "Enter the link to scrape the case URLs from the specific year "
  +:+ "and month like this " +:+ dq
  +:+ "https://elibrary.judiciary.gov.ph/thebookshelf/docmonth/May/2021/1"
  +:+ dq +:+ nl.

(** What [main] does before the first request: the prompt, the input, and
    the lines of 141-144 on standard error. *)
Definition scraper_preamble (args : cli_args) (url : string) : list event :=
  [EPrint url_prompt; EInput "Enter URL to scrape: ";
   EPrintErr ("Fetching links from: " +:+ url)]
  ++ match link_scraper.filter_pattern_of args with
     | Some pattern => [EPrintErr ("Filter pattern: " +:+ pattern)]
     | None => []
     end.

(** Lines 150-155: the count and a blank line on standard error, the
    links on standard output. *)
Definition scraper_report (links : list string) : list event :=
  [EPrintErr ("Found " +:+ pretty (length links) +:+ " unique link(s):");
   EPrintErr EmptyString]
  ++ map EPrint links.

(** Lines 157-162: the line that reports the exception [e]. *)
Definition scraper_failure_line (e : exn) : event :=
  EPrintErr ((if is_RequestException e then "Error fetching page: "
              else "Unexpected error: ") +:+ exn_str e).

(** * What a run costs *)

(** The sum of the weights of the events of a trace. *)
Definition total (f : event -> Z) (tr : list event) : Z :=
  foldr (fun ev acc => f ev + acc) 0 tr.

(** [spends f n m]: whatever the world, [m] only appends events to the
    trace, and their weights sum up to at most [n]. *)
Definition spends {A} (f : event -> Z) (n : Z) (m : M A) : Prop :=
  forall w, exists new, trace (m w).2 = trace w ++ new /\ total f new <= n.

(** The seconds slept in a trace. *)
Definition total_sleep (tr : list event) : Z := foldr Z.add 0 (sleeps tr).

(** The weights that count requests, requests to a URL outside [links],
    model calls, seconds slept, files written and spreadsheets written. *)
Definition request_weight (ev : event) : Z :=
  match ev with EGet _ _ => 1 | _ => 0 end.

Definition foreign_request_weight (links : list string) (ev : event) : Z :=
  match ev with
  | EGet u _ => if bool_decide (u ∈ links) then 0 else 1
  | _ => 0
  end.

Definition model_call_weight (ev : event) : Z :=
  match ev with EGenerate _ _ => 1 | _ => 0 end.

Definition sleep_weight (ev : event) : Z :=
  match ev with ESleep d => d | _ => 0 end.

Definition file_weight (ev : event) : Z :=
  match ev with EWriteFile _ _ => 1 | _ => 0 end.

Definition spreadsheet_weight (ev : event) : Z :=
  match ev with EToExcel _ _ => 1 | _ => 0 end.

(** The cost of one link under a weight [f] that charges [s] per second
    slept, [c_gen] per model call and [c_file] per file: four requests,
    five model calls, 28 seconds of sleep and two files at most. *)
Definition link_cost (f : event -> Z) (s c_gen c_file : Z) (link : string) : Z :=
  4 * f (EGet link 30) + 5 * c_gen + 28 * s + 2 * c_file.

(** * The run of main.py *)

(** An event of the console: a printed line or a prompt. *)
Definition console_event (ev : event) : Prop :=
  match ev with
  | EPrint _ | EInput _ => True
  | _ => False
  end.

(** [EXCEL_FILENAME], line 97. *)
Definition excel_path (E : env) : string :=
  os_path_join E "excel_files" (strip (input_line E) +:+ ".xlsx").

(** The links of [links.txt] when the file is there and can be read. *)
Definition loaded_links (E : env) : option (list string) :=
  if path_exists E "links.txt" then
    match read_text E "links.txt" with
    | Returns txt =>
        Some (filter (fun line => negb (is_empty line)) (map strip (file_lines txt)))
    | Raises _ => None
    end
  else None.

(** The configuration phase of lines 87-125 lets the run go on: there are
    links, the output file is absent or can be opened for appending, the
    API key is set and not empty, and the client is created. *)
Definition setup_succeeds (E : env) (links : list string) : Prop :=
  loaded_links E = Some links
  /\ links <> []
  /\ (path_exists E (excel_path E) = false \/ open_append E (excel_path E) = Returns tt)
  /\ exists api_key,
       environ_api_key E = Some api_key /\ api_key <> EmptyString
       /\ genai_Client E api_key = Returns tt.

(** * One link *)

(** Line 157: the text of the page, cut at 285000 characters. *)
Definition page_text_of (E : env) (page : http_response) : string :=
  str_take 285000 (soup_get_text E (content page)).

(** Line 162: the user message sent to the model. *)
Definition model_prompt (page_text : string) : string :=
  "Here is the page text to extract from:" +:+ nl +:+ nl +:+ page_text +:+ nl +:+ nl
  +:+ "Extract the case data as JSON per system instruction.".

(** Lines 151 and 249-250: the lines printed around a link. *)
Definition link_header (link : string) : event :=
  EPrint ("--- Processing link: " +:+ link +:+ " ---").

Definition link_failure (link : string) (message : string) : list event :=
  [EPrint ("ERROR: Failed to process link " +:+ link +:+ ". Skipping to next link.");
   EPrint ("Error details: " +:+ message)].

(** * The array substring *)

(** A text of white space only. *)
Definition all_space (s : string) : bool := urllib_parse.str_forall py_isspace s.

(** The texts that the pattern of line 226 matches as a whole: a
    bracket, white space, a brace, any text, a brace, white space, a
    bracket. *)
Definition bracketed_object (g : string) : Prop :=
  exists ws1 body ws2,
    all_space ws1 = true /\ all_space ws2 = true
    /\ g = "[" +:+ ws1 +:+ "{" +:+ body +:+ "}" +:+ ws2 +:+ "]".

(** * The values of calls that returned *)

(** The value of a call, [d] where it raised. *)
Definition returned {A} (d : A) (r : outcome A) : A :=
  match r with
  | Returns a => a
  | Raises _ => d
  end.

Definition no_parse : urllib_parse.ParseResult :=
  urllib_parse.mk_parse EmptyString EmptyString EmptyString EmptyString EmptyString
    EmptyString.

(** * Concrete environments used in examples *)

(** [int()] on the values that occur in the examples. *)
Definition int_of_pyval (v : pyval) : option Z :=
  match v with
  | PyInt z => Some z
  | PyBool b => Some (if b then 1 else 0)
  | _ => None
  end.

(** An exception of the inference client carrying a numeric [code]. *)
Definition api_error (code : Z) : exn :=
  mk_exn (OtherException "APIError") (pretty code +:+ " error") (Some (PyInt code)) [].

(** [requests.get] on a URL without scheme. *)
Definition missing_schema (url : string) : exn :=
  mk_exn (Requests MissingSchema)
         ("Invalid URL '" +:+ url +:+ "': No scheme supplied.") None [].

Definition json_decode_error : exn :=
  mk_exn JSONDecodeError "Expecting value: line 1 column 1 (char 0)" None [].

(** An environment given by its HTTP, model and JSON oracles; no file
    exists, nothing is typed, no API key is set. *)
Definition fixture_env
    (get : nat -> string -> Z -> outcome http_response)
    (gen : nat -> gen_config -> string -> outcome model_response)
    (loads repair : string -> outcome pyval) : env :=
  {| requests_get := get;
     generate_content := gen;
     json_loads := loads;
     json_repair_loads := repair;
     py_int := int_of_pyval;
     soup_get_text := fun html => html;
     path_exists := fun _ => false;
     read_text := fun _ => Returns EmptyString;
     open_append := fun _ => Returns tt;
     os_path_join := fun a b => a +:+ "/" +:+ b;
     input_line := EmptyString;
     environ_api_key := None;
     genai_Client := fun _ => Returns tt;
     pd_DataFrame := fun _ => Returns (mk_df [] []);
     pd_read_excel := fun _ => Returns (mk_df [] []);
     pd_to_excel := fun _ _ => Returns tt |}.

Definition page_ok (body : string) : outcome http_response :=
  Returns (mk_http_response 200 body EmptyString).

(** The model raises the errors with the given codes, one per call, and
    answers with an empty text afterwards. *)
Definition model_failing_with (codes : list Z) : env :=
  fixture_env (fun _ _ _ => page_ok "page")
    (fun n _ _ => match codes !! n with
                  | Some c => Raises (api_error c)
                  | None => Returns (mk_model_response (Some EmptyString))
                  end)
    (fun _ => Raises json_decode_error) (fun _ => Raises json_decode_error).

(** Every request fails because the URL has no scheme. *)
Definition malformed_url_env : env :=
  fixture_env (fun _ url _ => Raises (missing_schema url))
    (fun _ _ _ => Returns (mk_model_response None))
    (fun _ => Raises json_decode_error) (fun _ => Raises json_decode_error).

(** [pd.DataFrame(records)] for a list of dicts: the columns are the keys
    in order of first appearance, a record without a key has a missing
    cell there. *)
Definition record_keys (r : pyval) : list string :=
  match r with PyDict kvs => map fst kvs | _ => [] end.

Fixpoint union_keys (seen : list string) (records : list pyval) : list string :=
  match records with
  | [] => seen
  | r :: rest =>
      union_keys
        (seen ++ filter (fun k => negb (bool_decide (k ∈ seen))) (record_keys r)) rest
  end.

Definition record_cell (r : pyval) (c : string) : cell :=
  match r with
  | PyDict kvs => match dict_get kvs c with Some v => Cell v | None => NaN end
  | _ => NaN
  end.

Definition dataframe_of_records (records : list pyval) : dataframe :=
  let cols := union_keys [] records in
  mk_df cols (map (fun r => map (record_cell r) cols) records).

(** A Case Record with the six fields. *)
Definition case_record (number title facts decision ruling verdict : string) : pyval :=
  PyDict [("Case Number", PyStr number); ("Case Title", PyStr title);
          ("Facts", PyStr facts); ("Decision", PyStr decision);
          ("Ruling", PyStr ruling); ("Verdict", PyStr verdict)].

(** An environment in which the file at [path] exists and [read_excel]
    answers [existing]. *)
Definition sink_env (path : string) (existing : outcome dataframe) : env :=
  {| requests_get := fun _ _ _ => page_ok "page";
     generate_content := fun _ _ _ => Returns (mk_model_response None);
     json_loads := fun _ => Raises json_decode_error;
     json_repair_loads := fun _ => Raises json_decode_error;
     py_int := int_of_pyval;
     soup_get_text := fun html => html;
     path_exists := fun p => String.eqb p path;
     read_text := fun _ => Returns EmptyString;
     open_append := fun _ => Returns tt;
     os_path_join := fun a b => a +:+ "/" +:+ b;
     input_line := EmptyString;
     environ_api_key := None;
     genai_Client := fun _ => Returns tt;
     pd_DataFrame := fun records => Returns (dataframe_of_records records);
     pd_read_excel := fun _ => existing;
     pd_to_excel := fun _ _ => Returns tt |}.

(** The model answers every call with the given text. *)
Definition model_answering (answer : option string)
    (loads repair : string -> outcome pyval) : env :=
  fixture_env (fun _ _ _ => page_ok "page")
    (fun _ _ _ => Returns (mk_model_response answer)) loads repair.

(** [json.loads] on the texts of the examples: the array holding the
    number one parses, everything else used there is not JSON. *)
Definition loads_array_of_one (s : string) : outcome pyval :=
  if String.eqb s "[1]" then Returns (PyList [PyInt 1]) else Raises json_decode_error.

(** A [json_repair.loads] that gives up on every text. *)
Definition repair_gives_up (s : string) : outcome pyval :=
  Raises (mk_exn ValueError "could not repair" None []).

(** Every page is fetched, and the model answers every call with an
    empty text. *)
Definition silent_model_env : env :=
  model_answering (Some EmptyString) loads_array_of_one repair_gives_up.

(** A request that timed out. *)
Definition read_timeout : exn :=
  mk_exn (Requests Timeout) "Read timed out." None [].

(** The first [failures] requests time out, the later ones are answered
    with the page [body]. *)
Definition flaky_page_env (failures : nat) (body : string) : env :=
  fixture_env (fun n _ _ => if (n <? failures)%nat then Raises read_timeout else page_ok body)
    (fun _ _ _ => Returns (mk_model_response None))
    (fun _ => Raises json_decode_error) (fun _ => Raises json_decode_error).

(** The environment [E] with other files on disk. *)
Definition with_files (E : env) (present : string -> bool)
    (read : string -> outcome string) : env :=
  {| requests_get := requests_get E;
     generate_content := generate_content E;
     json_loads := json_loads E;
     json_repair_loads := json_repair_loads E;
     py_int := py_int E;
     soup_get_text := soup_get_text E;
     path_exists := present;
     read_text := read;
     open_append := open_append E;
     os_path_join := os_path_join E;
     input_line := input_line E;
     environ_api_key := environ_api_key E;
     genai_Client := genai_Client E;
     pd_DataFrame := pd_DataFrame E;
     pd_read_excel := pd_read_excel E;
     pd_to_excel := pd_to_excel E |}.

(** The environment [E] with another user: what is typed at the prompt and
    the API key of the environment. *)
Definition with_user (E : env) (typed : string) (api_key : option string) : env :=
  {| requests_get := requests_get E;
     generate_content := generate_content E;
     json_loads := json_loads E;
     json_repair_loads := json_repair_loads E;
     py_int := py_int E;
     soup_get_text := soup_get_text E;
     path_exists := path_exists E;
     read_text := read_text E;
     open_append := open_append E;
     os_path_join := os_path_join E;
     input_line := typed;
     environ_api_key := api_key;
     genai_Client := genai_Client E;
     pd_DataFrame := pd_DataFrame E;
     pd_read_excel := pd_read_excel E;
     pd_to_excel := pd_to_excel E |}.

(** Only [links.txt] exists, with the given text. *)
Definition links_file_env (text : string) : env :=
  with_files malformed_url_env (fun p => String.eqb p "links.txt") (fun _ => Returns text).

(** A page with four hyperlinks, an [urljoin] built on the model of
    [urllib.parse], and a pattern search that accepts the URLs containing
    [showdocs] whatever the pattern. *)
Definition page_hrefs (content : string) : list string :=
  ["showdocs/1/100"; "#top"; " showdocs/1/200 "; "showdocs/1/100"].

Fixpoint str_has_infix (needle s : string) : bool :=
  String.prefix needle s
  || match s with
     | String _ s' => str_has_infix needle s'
     | EmptyString => false
     end.

Definition search_showdocs (pattern s : string) : bool := str_has_infix "showdocs" s.

(** A user who types the URL of a month of the eLibrary, with blanks
    around it, and a server whose first [failures] answers time out. *)
Definition month_url : string :=
  "https://elibrary.judiciary.gov.ph/thebookshelf/docmonth/May/2021/1".

Definition scraper_env (failures : nat) : env :=
  with_user (flaky_page_env failures "page") ("  " +:+ month_url +:+ " ") None.

(** The model answers the first call with [first] and raises the error
    with status 503 at every later call; every page is fetched and
    [json.loads] accepts the text [[1]] only. *)
Definition one_answer_env (first : option string) : env :=
  fixture_env (fun _ _ _ => page_ok "page")
    (fun n _ _ => match n with
                  | O => Returns (mk_model_response first)
                  | S _ => Raises (api_error 503)
                  end)
    loads_array_of_one repair_gives_up.

(** The model answers the first call with [first] and every later call
    with [second]. *)
Definition two_answers_env (first second : option string) : env :=
  fixture_env (fun _ _ _ => page_ok "page")
    (fun n _ _ => match n with
                  | O => Returns (mk_model_response first)
                  | S _ => Returns (mk_model_response second)
                  end)
    loads_array_of_one repair_gives_up.

(** A complete setting: [links.txt] holds one link, the user types
    [cases], the API key is set, the page is fetched, the model answers
    with a text that [json.loads] reads as an array of one Case Record,
    and there is no spreadsheet yet. *)
Definition the_case : pyval :=
  case_record "G.R. No. 1" "A v. B" "facts" "decision" "ruling" "verdict".

Definition full_run_env : env :=
  {| requests_get := fun _ _ _ => page_ok "page";
     generate_content := fun _ _ _ => Returns (mk_model_response (Some "[case]"));
     json_loads := fun s => if String.eqb s "[case]" then Returns (PyList [the_case])
                            else Raises json_decode_error;
     json_repair_loads := repair_gives_up;
     py_int := int_of_pyval;
     soup_get_text := fun html => html;
     path_exists := fun p => String.eqb p "links.txt";
     read_text := fun _ => Returns ("https://a.example/1" +:+ nl);
     open_append := fun _ => Returns tt;
     os_path_join := fun a b => a +:+ "/" +:+ b;
     input_line := " cases ";
     environ_api_key := Some "key";
     genai_Client := fun _ => Returns tt;
     pd_DataFrame := fun records => Returns (dataframe_of_records records);
     pd_read_excel := fun _ => Returns (mk_df [] []);
     pd_to_excel := fun _ _ => Returns tt |}.

(** [pd.DataFrame] on the batches of the examples: the table of a list of
    dicts, and the [AttributeError] that pandas raises when a dict is
    followed by something that is no dict. *)
Definition is_dict (v : pyval) : bool :=
  match v with PyDict _ => true | _ => false end.

Definition frame_or_error (records : list pyval) : outcome dataframe :=
  match records with
  | PyDict _ :: rest =>
      if forallb is_dict rest then Returns (dataframe_of_records records)
      else Raises (mk_exn AttributeError "'int' object has no attribute 'keys'" None [])
  | _ => Returns (dataframe_of_records records)
  end.

(** A setting with two links: the model answers the first call with a
    Case Record and the later calls with the array of the number one,
    which the shape check admits. *)
Definition mixed_batch_env : env :=
  {| requests_get := fun _ _ _ => page_ok "page";
     generate_content := fun n _ _ =>
       match n with
       | O => Returns (mk_model_response (Some "[case]"))
       | S _ => Returns (mk_model_response (Some "[1]"))
       end;
     json_loads := fun s => if String.eqb s "[case]" then Returns (PyList [the_case])
                            else if String.eqb s "[1]" then Returns (PyList [PyInt 1])
                            else Raises json_decode_error;
     json_repair_loads := repair_gives_up;
     py_int := int_of_pyval;
     soup_get_text := fun html => html;
     path_exists := fun p => String.eqb p "links.txt";
     read_text := fun _ => Returns ("https://a.example/1" +:+ nl +:+ "https://a.example/2");
     open_append := fun _ => Returns tt;
     os_path_join := fun a b => a +:+ "/" +:+ b;
     input_line := " cases ";
     environ_api_key := Some "key";
     genai_Client := fun _ => Returns tt;
     pd_DataFrame := frame_or_error;
     pd_read_excel := fun _ => Returns (mk_df [] []);
     pd_to_excel := fun _ _ => Returns tt |}.

(** [urljoin] and [urlparse] of one argument on the hrefs of the
    examples: the model of [urllib.parse], and the [ValueError] that
    CPython's [urljoin] raises on the href [http://[bad], whose opening
    bracket is not closed, for a base that is not empty. *)
Definition urljoin_or_raise (base url : string) : outcome string :=
  if negb (is_empty base) && String.eqb url "http://[bad"
  then Raises (value_error "Invalid IPv6 URL")
  else Returns (urllib_parse.urljoin base url).

Definition urlparse_or_raise (url : string) : outcome urllib_parse.ParseResult :=
  Returns (urllib_parse.urlparse url EmptyString).

(** A page whose second hyperlink cannot be resolved. *)
Definition bad_page_hrefs (content : string) : list string :=
  ["showdocs/1/100"; "http://[bad"; "showdocs/1/200"].

(** * Properties of the retry loops *)

Section RetryLoopFacts.
Context {A : Type}.
Variable attempt_once : M A.
Variable retryable : exn -> bool.
Variable is_last : nat -> bool.
Variable announce : nat -> exn -> Z -> event.

(** What an attempt does: it appends the event [call], consumes the
    oracle answer at index [idx w], and nothing else in the loop moves
    that index. *)
Variable answer : nat -> outcome A.
Variable idx : world -> nat.
Variable call : event.
Hypothesis attempt_once_spec : forall w,
  exists w', attempt_once w = (answer (idx w), w')
             /\ trace w' = trace w ++ [call] /\ idx w' = S (idx w).
Hypothesis idx_emit : forall ev w, idx (emit ev w).2 = idx w.

Local Abbreviation loop := (retry_loop attempt_once retryable is_last announce).
Local Abbreviation retried := (backoff_trace announce call).

Lemma retry_loop_extends attempts : forall d w,
  exists post, trace (loop attempts d w).2 = trace w ++ post.
Proof.
  induction attempts as [|a rest IH]; intros d w; simpl.
  - exists []. unfold ret. simpl. by rewrite app_nil_r.
  - destruct (attempt_once_spec w) as (w' & Hrun & Htr & _).
    unfold bind, try_. rewrite Hrun.
    destruct (answer (idx w)) as [x|e]; simpl.
    + exists [call]. by rewrite Htr.
    + destruct (retryable e && negb (is_last a)); simpl.
      * destruct (IH (d * 2)
          (mk_world ((trace w' ++ [announce a e d]) ++ [ESleep d]) (n_get w') (n_generate w')))
          as [post Hpost].
        exists ([call; announce a e d; ESleep d] ++ post).
        rewrite Hpost. simpl. rewrite Htr. by rewrite <- !app_assoc.
      * exists [call]. by rewrite Htr.
Qed.

Lemma retry_loop_first_call a m d w :
  exists post, trace (loop (seq a (S m)) d w).2 = trace w ++ call :: post.
Proof.
  simpl. destruct (attempt_once_spec w) as (w' & Hrun & Htr & _).
  unfold bind, try_. rewrite Hrun.
  destruct (answer (idx w)) as [x|e]; simpl.
  - exists []. by rewrite Htr.
  - destruct (retryable e && negb (is_last a)); simpl.
    + destruct (retry_loop_extends (seq (S a) m) (d * 2)
        (mk_world ((trace w' ++ [announce a e d]) ++ [ESleep d]) (n_get w') (n_generate w')))
        as [post Hpost].
      exists ([announce a e d; ESleep d] ++ post).
      rewrite Hpost. simpl. rewrite Htr. by rewrite <- !app_assoc.
    + exists []. by rewrite Htr.
Qed.

(** The attempt made after [k] retried failures.  If it raises [e], the
    loop goes on (message, sleep of the doubled delay, next call) exactly
    when [e] is retryable and the attempt is not the last; otherwise [e]
    is raised with nothing after the failed call. *)
Lemma retry_loop_failed_attempt k : forall errs a m d w e,
  (k < m)%nat ->
  (forall j, (j < k)%nat ->
     answer (idx w + j)%nat = Raises (errs j)
     /\ retryable (errs j) = true /\ is_last (a + j)%nat = false) ->
  answer (idx w + k)%nat = Raises e ->
  let run := loop (seq a m) d w in
  let before := trace w ++ retried errs a d k in
  (retryable e && negb (is_last (a + k)%nat) = true -> (S k < m)%nat ->
     exists post,
       trace run.2 = before ++ [call; announce (a + k)%nat e (d * 2 ^ Z.of_nat k);
                                ESleep (d * 2 ^ Z.of_nat k); call] ++ post)
  /\ (retryable e && negb (is_last (a + k)%nat) = false ->
      run.1 = Raises e /\ trace run.2 = before ++ [call]).
Proof.
  induction k as [|k IH]; intros errs a m d w e Hk Hprev Hcur run before.
  - destruct m as [|m]; [lia|].
    rewrite Nat.add_0_r in Hcur. subst run before. simpl.
    rewrite !Nat.add_0_r, Z.mul_1_r, app_nil_r.
    destruct (attempt_once_spec w) as (w' & Hrun & Htr & Hidx).
    unfold bind, try_. rewrite Hrun, Hcur. simpl. split.
    + intros -> Hm. simpl. destruct m as [|m]; [lia|].
      destruct (retry_loop_first_call (S a) m (d * 2)
        (mk_world ((trace w' ++ [announce a e d]) ++ [ESleep d]) (n_get w') (n_generate w')))
        as [post Hpost].
      exists post. rewrite Hpost. simpl. rewrite Htr. by rewrite <- !app_assoc.
    + intros ->. simpl. by rewrite Htr.
  - destruct m as [|m]; [lia|].
    destruct (Hprev O ltac:(lia)) as (H0 & Hr0 & Hl0).
    rewrite !Nat.add_0_r in *.
    destruct (attempt_once_spec w) as (w' & Hrun & Htr & Hidx).
    set (w2 := mk_world ((trace w' ++ [announce a (errs O) d]) ++ [ESleep d])
                        (n_get w') (n_generate w')).
    assert (Hw2 : idx w2 = S (idx w)).
    { rewrite <- Hidx. subst w2.
      pose proof (idx_emit (announce a (errs O) d) w') as H1.
      pose proof (idx_emit (ESleep d) (emit (announce a (errs O) d) w').2) as H2.
      simpl in H1, H2. by rewrite H2, H1. }
    assert (Hstep : run = loop (seq (S a) m) (d * 2) w2).
    { subst run. simpl. unfold bind, try_. rewrite Hrun, H0. simpl.
      rewrite Hr0, Hl0. simpl. reflexivity. }
    specialize (IH (fun j => errs (S j)) (S a) m (d * 2) w2 e ltac:(lia)).
    rewrite Hw2 in IH.
    assert (Hprev' : forall j, (j < k)%nat ->
      answer (S (idx w) + j)%nat = Raises (errs (S j))
      /\ retryable (errs (S j)) = true /\ is_last (S a + j)%nat = false).
    { intros j Hj. destruct (Hprev (S j) ltac:(lia)) as (Ha & Hb & Hc).
      replace (S (idx w) + j)%nat with (idx w + S j)%nat by lia.
      replace (S a + j)%nat with (a + S j)%nat by lia. done. }
    specialize (IH Hprev').
    replace (S (idx w) + k)%nat with (idx w + S k)%nat in IH by lia.
    specialize (IH Hcur). cbv zeta in IH.
    replace (S a + k)%nat with (a + S k)%nat in IH by lia.
    replace (d * 2 * 2 ^ Z.of_nat k) with (d * 2 ^ Z.of_nat (S k)) in IH
      by (rewrite Nat2Z.inj_succ, Z.pow_succ_r by lia; ring).
    assert (Hbefore : trace w2 ++ retried (fun j => errs (S j)) (S a) (d * 2) k = before).
    { subst before w2. simpl. rewrite Htr. by rewrite <- !app_assoc. }
    rewrite Hbefore in IH. rewrite Hstep.
    destruct IH as [IH1 IH2]. split.
    + intros Hre Hm. apply IH1; [done | lia].
    + intros Hre. by apply IH2.
Qed.

End RetryLoopFacts.

(** ** The Retrying Inference Caller *)

Lemma call_model_loop_retry_loop E cfg contents max_retries attempts :
  forall delay w,
    main.call_model_loop E cfg contents max_retries attempts delay w
    = retry_loop (do_generate_content E cfg contents)
        (fun e => main.is_transient (main.extract_status E e))
        (fun a => (a =? max_retries)%nat)
        (transient_error_line max_retries) attempts delay w.
Proof.
  induction attempts as [|a rest IH]; intros delay w; [reflexivity|].
  simpl. unfold bind, try_.
  destruct (do_generate_content E cfg contents w) as [[resp|e] w']; [reflexivity|].
  destruct (main.is_transient (main.extract_status E e)); simpl; [|reflexivity].
  destruct (a =? max_retries)%nat; simpl; [reflexivity|].
  apply IH.
Qed.

Lemma is_transient_iff E e :
  main.is_transient (main.extract_status E e) = true
  <-> exists s, main.extract_status E e = Some s /\ In s [429; 500; 502; 503; 504].
Proof.
  unfold main.is_transient. destruct (main.extract_status E e) as [s|].
  - rewrite bool_decide_eq_true. unfold main.TRANSIENT_STATUS.
    rewrite !elem_of_union, !elem_of_singleton. simpl. split.
    + intros H. exists s. split; [done|]. intuition.
    + intros (s' & [= <-] & H). intuition.
  - split; [done|]. by intros (s & ? & _).
Qed.

(** C1.  Take any run of [call_model_with_retries] in which the first [k]
    attempts raised errors that were retried and attempt [k+1] raises [e].
    If the status extracted from [e] is one of 429, 500, 502, 503, 504 and
    [k+1 < max_retries], the run goes on with the message, a sleep of the
    current (k times doubled) delay and the next call.  In every other case
    (another status, no status, or last attempt) [e] is raised and nothing
    happens after the failed call: no sleep, no further call. *)
Theorem call_model_retries_exactly_on_transient_status :
  forall (E : env) cfg contents (max_retries : nat) (initial_delay : Z)
         (w : world) (errs : nat -> exn) (k : nat) (e : exn),
    (k < max_retries)%nat ->
    (forall j, (j < k)%nat ->
       generate_content E (n_generate w + j) cfg contents = Raises (errs j)
       /\ main.is_transient (main.extract_status E (errs j)) = true) ->
    generate_content E (n_generate w + k) cfg contents = Raises e ->
    backoff_policy_at
      (main.call_model_with_retries E cfg contents max_retries initial_delay w)
      w (EGenerate cfg contents) (transient_error_line max_retries) errs initial_delay k e
      ((exists s, main.extract_status E e = Some s /\ In s [429; 500; 502; 503; 504])
       /\ (k + 1 < max_retries)%nat).
Proof.
  intros E cfg contents max_retries d0 w errs k e Hk Hprev Hcur.
  unfold backoff_policy_at.
  set (run := main.call_model_with_retries E cfg contents max_retries d0 w).
  set (call := EGenerate cfg contents).
  pose proof (retry_loop_failed_attempt
    (do_generate_content E cfg contents)
    (fun e => main.is_transient (main.extract_status E e))
    (fun a => (a =? max_retries)%nat)
    (transient_error_line max_retries)
    (fun n => generate_content E n cfg contents) n_generate call) as L.
  specialize (L ltac:(intros w0; eexists; split; [reflexivity|split; reflexivity])
                ltac:(reflexivity) k errs 1%nat max_retries d0 w e Hk).
  assert (Hprev' : forall j, (j < k)%nat ->
    generate_content E (n_generate w + j) cfg contents = Raises (errs j)
    /\ main.is_transient (main.extract_status E (errs j)) = true
    /\ (1 + j =? max_retries)%nat = false).
  { intros j Hj. destruct (Hprev j Hj) as [H1 H2]. repeat split; try done.
    apply Nat.eqb_neq. lia. }
  specialize (L Hprev' Hcur). cbv zeta in L.
  assert (Hrun : run = retry_loop (do_generate_content E cfg contents)
        (fun e => main.is_transient (main.extract_status E e))
        (fun a => (a =? max_retries)%nat)
        (transient_error_line max_retries) (seq 1 max_retries) d0 w).
  { subst run. unfold main.call_model_with_retries. apply call_model_loop_retry_loop. }
  rewrite <- Hrun in L.
  replace (1 + k)%nat with (k + 1)%nat in L by lia.
  destruct L as [L1 L2]. split.
  - intros [Hs Hlt]. apply L1; [|lia].
    apply andb_true_iff. split; [by apply is_transient_iff|].
    apply negb_true_iff, Nat.eqb_neq. lia.
  - intros Hnot. apply L2. apply andb_false_iff.
    destruct (main.is_transient (main.extract_status E e)) eqn:Ht; [|by left].
    right. apply negb_false_iff, Nat.eqb_eq.
    destruct (decide (k + 1 = max_retries)%nat) as [|Hne]; [done|].
    exfalso. apply Hnot. split; [by apply is_transient_iff | lia].
Qed.

(** The theorem at a run with [max_retries = 4] and initial delay 2 whose
    calls fail with 503, 503 and then 404: two sleeps (2 and 4 seconds),
    three calls, and the 404 error raised right after the third call. *)
Lemma call_model_retries_witness :
  let E := model_failing_with [503; 503; 404] in
  let run := main.call_model_with_retries E CaseInstruction "page" 4 2 world0 in
  run.1 = Raises (api_error 404)
  /\ sleeps (trace run.2) = [2; 4]
  /\ generates (trace run.2) = [CaseInstruction; CaseInstruction; CaseInstruction].
Proof.
  intros E run.
  destruct (call_model_retries_exactly_on_transient_status
              E CaseInstruction "page" 4%nat 2 world0 (fun _ => api_error 503) 2%nat
              (api_error 404)) as [_ Hstop].
  - lia.
  - intros j Hj. destruct j as [|[|j]]; [split; reflexivity | split; reflexivity | lia].
  - reflexivity.
  - destruct Hstop as [Hres Htrace].
    + intros [(s & Hs & Hin) _]. simpl in Hs. injection Hs as <-.
      simpl in Hin. intuition discriminate.
    + fold run in Hres, Htrace. split; [exact Hres|].
      rewrite Htrace. split; reflexivity.
Defined.

(** ** The Retrying HTTP Fetchers *)

Lemma get_checked_spec E url timeout w :
  exists w', get_checked E url timeout w = (checked_get_answer E (n_get w) url timeout, w')
             /\ trace w' = trace w ++ [EGet url timeout] /\ n_get w' = S (n_get w).
Proof.
  unfold get_checked, bind, do_requests_get, checked_get_answer, raise_for_status.
  destruct (requests_get E (n_get w) url timeout) as [resp|e]; simpl.
  - destruct ((400 <=? status_code resp) && (status_code resp <? 600)); simpl;
      eexists; repeat split; reflexivity.
  - eexists; repeat split; reflexivity.
Qed.

Lemma main_fetch_loop_retry_loop E url timeout max_retries attempts :
  forall delay w,
    main.fetch_page_loop E url timeout max_retries attempts delay w
    = retry_loop (get_checked E url timeout) is_RequestException
        (fun a => (a =? max_retries)%nat)
        (request_error_line max_retries) attempts delay w.
Proof.
  induction attempts as [|a rest IH]; intros delay w; [reflexivity|].
  simpl. unfold bind, try_.
  destruct (get_checked E url timeout w) as [[resp|e] w']; [reflexivity|].
  destruct (is_RequestException e); simpl; [|reflexivity].
  destruct (a =? max_retries)%nat; simpl; [reflexivity|].
  apply IH.
Qed.

Lemma scraper_fetch_loop_retry_loop E url timeout max_retries attempts :
  forall delay w,
    link_scraper.fetch_page_loop E url timeout max_retries attempts delay w
    = retry_loop (get_checked E url timeout) is_RequestException
        (fun a => negb (a <? max_retries)%nat)
        (request_failed_line max_retries) attempts delay w.
Proof.
  induction attempts as [|a rest IH]; intros delay w; [reflexivity|].
  simpl. unfold bind, try_.
  destruct (get_checked E url timeout w) as [[resp|e] w']; [reflexivity|].
  destruct (is_RequestException e); simpl; [|reflexivity].
  destruct (a <? max_retries)%nat; simpl; [|reflexivity].
  apply IH.
Qed.

Section FetchPolicy.
Variable E : env.
Variables (url : string) (timeout : Z) (max_retries : nat).
Variables (w : world) (errs : nat -> exn) (k : nat) (e : exn).
Hypothesis attempt_in_range : (k < max_retries)%nat.
Hypothesis earlier_attempts_retried : forall j, (j < k)%nat ->
  checked_get_answer E (n_get w + j) url timeout = Raises (errs j)
  /\ is_RequestException (errs j) = true.
Hypothesis this_attempt_raises :
  checked_get_answer E (n_get w + k) url timeout = Raises e.

(** The policy of a fetch loop whose last-attempt test [is_last] is true
    at [max_retries] and false below. *)
Lemma fetch_retry_loop_policy is_last announce d0 :
  (forall a, (1 <= a <= max_retries)%nat -> is_last a = bool_decide (a = max_retries)) ->
  backoff_policy_at
    (retry_loop (get_checked E url timeout) is_RequestException is_last announce
       (seq 1 max_retries) d0 w)
    w (EGet url timeout) announce errs d0 k e
    (is_RequestException e = true /\ (k + 1 < max_retries)%nat).
Proof.
  intros Hlast. unfold backoff_policy_at.
  pose proof (retry_loop_failed_attempt
    (get_checked E url timeout) is_RequestException is_last announce
    (fun n => checked_get_answer E n url timeout) n_get (EGet url timeout)
    (get_checked_spec E url timeout) ltac:(reflexivity)
    k errs 1%nat max_retries d0 w e attempt_in_range) as L.
  assert (Hprev' : forall j, (j < k)%nat ->
    checked_get_answer E (n_get w + j) url timeout = Raises (errs j)
    /\ is_RequestException (errs j) = true /\ is_last (1 + j)%nat = false).
  { intros j Hj. destruct (earlier_attempts_retried j Hj) as [H1 H2].
    repeat split; try done. rewrite Hlast by lia. apply bool_decide_eq_false. lia. }
  specialize (L Hprev' this_attempt_raises). cbv zeta in L.
  replace (1 + k)%nat with (k + 1)%nat in L by lia.
  rewrite Hlast in L by lia.
  destruct L as [L1 L2]. split.
  - intros [He Hlt]. apply L1; [|lia]. rewrite He. simpl.
    apply negb_true_iff, bool_decide_eq_false. lia.
  - intros Hnot. apply L2. apply andb_false_iff.
    destruct (is_RequestException e); [|by left].
    right. apply negb_false_iff, bool_decide_eq_true.
    destruct (decide (k + 1 = max_retries)%nat) as [|Hne]; [done|].
    exfalso. apply Hnot. split; [done | lia].
Qed.

End FetchPolicy.

(** C4, as the code has it.  Take any run of either fetcher in which the
    first [k] attempts raised instances of [RequestException] and were
    retried, and attempt [k+1] raises [e].  The run goes on (message, sleep
    of the k times doubled delay, next request) exactly when [e] is an
    instance of [RequestException] -- whatever its kind: network error,
    HTTP error status, malformed URL -- and [k+1 < max_retries].  An
    exception of another class, or one at the last attempt, is raised
    with no sleep and no further request.  The delay starts at 1 in
    link_scraper.py and at 2 in main.py. *)
Theorem fetchers_retry_every_request_exception :
  forall (E : env) (url : string) (timeout : Z) (max_retries : nat)
         (w : world) (errs : nat -> exn) (k : nat) (e : exn),
    (k < max_retries)%nat ->
    (forall j, (j < k)%nat ->
       checked_get_answer E (n_get w + j) url timeout = Raises (errs j)
       /\ is_RequestException (errs j) = true) ->
    checked_get_answer E (n_get w + k) url timeout = Raises e ->
    let retried := is_RequestException e = true /\ (k + 1 < max_retries)%nat in
    backoff_policy_at (link_scraper.fetch_page_with_retries E url max_retries timeout w)
      w (EGet url timeout) (request_failed_line max_retries) errs 1 k e retried
    /\ backoff_policy_at (main.fetch_page_with_retries E url max_retries timeout w)
      w (EGet url timeout) (request_error_line max_retries) errs 2 k e retried.
Proof.
  intros E url timeout max_retries w errs k e Hk Hprev Hcur retried. split.
  - unfold link_scraper.fetch_page_with_retries.
    rewrite scraper_fetch_loop_retry_loop.
    apply fetch_retry_loop_policy; try done.
    intros a Ha. destruct (decide (a = max_retries)) as [->|Hne].
    + rewrite bool_decide_eq_true_2 by done. apply negb_true_iff, Nat.ltb_ge. lia.
    + rewrite bool_decide_eq_false_2 by done. apply negb_false_iff, Nat.ltb_lt. lia.
  - unfold main.fetch_page_with_retries.
    rewrite main_fetch_loop_retry_loop.
    apply fetch_retry_loop_policy; try done.
    intros a Ha. destruct (decide (a = max_retries)) as [->|Hne].
    + rewrite bool_decide_eq_true_2 by done. apply Nat.eqb_eq. done.
    + rewrite bool_decide_eq_false_2 by done. apply Nat.eqb_neq. done.
Qed.

(** The claim as the spec words it fails: a malformed URL (no scheme), the
    spec's example of a non-transient error, is retried by both fetchers
    with their full backoff before the error is raised. *)
Lemma malformed_url_is_retried :
  let url := "elibrary.judiciary.gov.ph/thebookshelf" in
  let e := missing_schema url in
  let scraper := link_scraper.fetch_page_with_retries malformed_url_env url 3 15 world0 in
  let main_run := main.fetch_page_with_retries malformed_url_env url 4 30 world0 in
  spec_transient_fetch_error e = false
  /\ scraper.1 = Raises e
  /\ sleeps (trace scraper.2) = [1; 2]
  /\ gets (trace scraper.2) = [url; url; url]
  /\ main_run.1 = Raises e
  /\ sleeps (trace main_run.2) = [2; 4; 8]
  /\ gets (trace main_run.2) = [url; url; url; url].
Proof. vm_compute. repeat split. Qed.

(** The theorem at that run of link_scraper.py's fetcher: the second
    attempt (k = 1) raises [MissingSchema], a [RequestException], with one
    attempt left, so a sleep of 2 and a third request follow. *)
Lemma fetchers_retry_witness :
  let url := "elibrary.judiciary.gov.ph/thebookshelf" in
  let run := link_scraper.fetch_page_with_retries malformed_url_env url 3 15 world0 in
  exists post,
    trace run.2
    = (trace world0
       ++ backoff_trace (request_failed_line 3) (EGet url 15)
            (fun _ => missing_schema url) 1 1 1)
      ++ [EGet url 15; request_failed_line 3 2 (missing_schema url) 2;
          ESleep 2; EGet url 15] ++ post.
Proof.
  intros url run.
  destruct (fetchers_retry_every_request_exception
              malformed_url_env url 15 3%nat world0 (fun _ => missing_schema url) 1%nat
              (missing_schema url)) as [[Hretry _] _].
  - lia.
  - intros j Hj. split; reflexivity.
  - reflexivity.
  - apply Hretry. split; [reflexivity | lia].
Defined.

(** * What a computation adds to the trace *)

Section Emits.
Context {A B : Type}.
Variable P : event -> Prop.

Lemma emits_ret (a : A) : emits P (ret a).
Proof. intros w. exists []. simpl. by rewrite app_nil_r. Qed.

Lemma emits_raise (e : exn) : emits P (@raise A e).
Proof. intros w. exists []. simpl. by rewrite app_nil_r. Qed.

Lemma emits_lift (r : outcome A) : emits P (lift r).
Proof. intros w. exists []. simpl. by rewrite app_nil_r. Qed.

Lemma emits_emit ev : P ev -> emits P (emit ev).
Proof. intros H w. exists [ev]. simpl. split; [done|]. by constructor. Qed.

Lemma emits_bind (m : M A) (k : A -> M B) :
  emits P m -> (forall a, emits P (k a)) -> emits P (bind m k).
Proof.
  intros Hm Hk w. unfold bind. destruct (Hm w) as (new & Htr & Hnew).
  destruct (m w) as [[a|e] w']; simpl in *.
  - destruct (Hk a w') as (new' & Htr' & Hnew').
    exists (new ++ new'). rewrite Htr', Htr, <- app_assoc. split; [done|].
    by apply Forall_app.
  - by exists new.
Qed.

Lemma emits_try (m : M A) : emits P m -> emits P (try_ m).
Proof.
  intros Hm w. unfold try_. destruct (Hm w) as (new & Htr & Hnew).
  destruct (m w) as [r w']. by exists new.
Qed.

End Emits.

Lemma emits_weaken {A} (P Q : event -> Prop) (m : M A) :
  (forall ev, P ev -> Q ev) -> emits P m -> emits Q m.
Proof.
  intros HPQ Hm w. destruct (Hm w) as (new & Htr & Hnew).
  exists new. split; [done|]. eapply Forall_impl; eauto.
Qed.

Lemma emits_do_requests_get P E url timeout :
  P (EGet url timeout) -> emits P (do_requests_get E url timeout).
Proof. intros H w. exists [EGet url timeout]. simpl. split; [done|]. by constructor. Qed.

Lemma emits_do_generate_content P E cfg contents :
  P (EGenerate cfg contents) -> emits P (do_generate_content E cfg contents).
Proof. intros H w. exists [EGenerate cfg contents]. simpl. split; [done|]. by constructor. Qed.

Lemma emits_get_checked E url timeout : emits is_retry_event (get_checked E url timeout).
Proof.
  unfold get_checked. apply emits_bind; [by apply emits_do_requests_get|].
  intros resp. apply emits_bind; [|intros; apply emits_ret].
  unfold raise_for_status. destruct (_ && _); [apply emits_raise | apply emits_ret].
Qed.

Lemma emits_call_model_loop E cfg contents max_retries attempts :
  forall delay, emits is_retry_event
                  (main.call_model_loop E cfg contents max_retries attempts delay).
Proof.
  induction attempts as [|a rest IH]; intros delay; simpl; [apply emits_ret|].
  apply emits_bind; [apply emits_try; by apply emits_do_generate_content|].
  intros [resp|e]; [apply emits_ret|].
  destruct (_ || _); [apply emits_raise|].
  apply emits_bind; [by apply emits_emit|]. intros _.
  apply emits_bind; [by apply emits_emit|]. intros _. apply IH.
Qed.

Lemma emits_main_fetch_loop E url timeout max_retries attempts :
  forall delay, emits is_retry_event
                  (main.fetch_page_loop E url timeout max_retries attempts delay).
Proof.
  induction attempts as [|a rest IH]; intros delay; simpl; [apply emits_ret|].
  apply emits_bind; [apply emits_try, emits_get_checked|].
  intros [resp|e]; [apply emits_ret|].
  destruct (is_RequestException e); [|apply emits_raise].
  destruct (a =? max_retries)%nat; [apply emits_raise|].
  apply emits_bind; [by apply emits_emit|]. intros _.
  apply emits_bind; [by apply emits_emit|]. intros _. apply IH.
Qed.

Section ReturnsOnly.
Context {A B : Type}.

Lemma returns_only_ret (Q : A -> Prop) a : Q a -> returns_only Q (ret a).
Proof. intros H w. exact H. Qed.

Lemma returns_only_raise (Q : A -> Prop) e : returns_only Q (raise e).
Proof. intros w. exact I. Qed.

(** Only the continuation decides what a sequence returns. *)
Lemma returns_only_bind (Q : B -> Prop) (m : M A) (k : A -> M B) :
  (forall a, returns_only Q (k a)) -> returns_only Q (bind m k).
Proof.
  intros Hk w. unfold bind. destruct (m w) as [[a|e] w']; [apply Hk | exact I].
Qed.

End ReturnsOnly.

(** * The run without a links file *)

(** C10.  When [links.txt] does not exist, [load_links] prints its warning
    and returns the empty list, and [generate_and_append_to_excel] ends
    after one more message: the whole run consists of these two lines, so
    it makes no request, no model call and writes no spreadsheet (nor any
    other file). *)
Theorem missing_links_file_ends_run :
  forall (E : env) (w : world),
    path_exists E "links.txt" = false ->
    let warning :=
      EPrint "Warning: Links file 'links.txt' not found. Using empty list." in
    let loaded := main.load_links E "links.txt" w in
    let run := main.generate_and_append_to_excel E w in
    loaded.1 = Returns []
    /\ trace loaded.2 = trace w ++ [warning]
    /\ run.1 = Returns tt
    /\ exists new,
         trace run.2 = trace w ++ new
         /\ new = [warning; EPrint "No links to process. Check links.txt file."]
         /\ gets new = [] /\ generates new = []
         /\ excel_writes new = [] /\ written_files new = [].
Proof.
  intros E w Hmissing warning loaded run.
  subst loaded run. unfold main.generate_and_append_to_excel, main.load_links, bind.
  rewrite Hmissing. simpl. repeat split.
  eexists. split; [by rewrite <- app_assoc|]. by repeat split.
Qed.

Lemma missing_links_file_witness :
  let run := main.generate_and_append_to_excel malformed_url_env world0 in
  run.1 = Returns tt
  /\ gets (trace run.2) = []
  /\ generates (trace run.2) = []
  /\ excel_writes (trace run.2) = []
  /\ written_files (trace run.2) = [].
Proof.
  intros run.
  destruct (missing_links_file_ends_run malformed_url_env world0 eq_refl)
    as (_ & _ & Hres & new & Htrace & -> & _).
  fold run in Hres, Htrace. rewrite Htrace. by repeat split.
Defined.

(** * The Tabular Sink *)

Lemma new_events_app w w' new : trace w' = trace w ++ new -> new_events w w' = new.
Proof. intros H. unfold new_events. rewrite H. by rewrite drop_app_length. Qed.

(** C9.  When the output file exists and [read_excel] raises, the sink
    prints a warning, takes the new records alone as the table to write and
    writes it to the same path: the reading error is not raised, and the
    run ends the way the write itself ends.  (The table of the new records
    is what [pd.DataFrame] makes of the batch; should that call raise, its
    exception ends the sink before anything is read or written.) *)
Theorem unreadable_existing_file_is_overwritten :
  forall (E : env) (EXCEL_FILENAME : string) (r : pyval) (rest : list pyval)
         (e : exn) (w : world),
    path_exists E EXCEL_FILENAME = true ->
    pd_read_excel E EXCEL_FILENAME = Raises e ->
    let all_new_data := r :: rest in
    let run := main.write_excel E EXCEL_FILENAME all_new_data w in
    match pd_DataFrame E all_new_data with
    | Returns df_new =>
        let merged := main.merge_with_existing E EXCEL_FILENAME df_new w in
        merged.1 = Returns df_new
        /\ excel_writes (new_events w run.2) = [(EXCEL_FILENAME, df_new)]
        /\ written_files (new_events w run.2) = []
        /\ run.1 = pd_to_excel E EXCEL_FILENAME df_new
        /\ exists rest_of_run,
             new_events w run.2
             = [EPrint ("Warning: Could not read existing Excel file. "
                        +:+ "Writing only new data. Error: " +:+ exn_str e);
                EToExcel EXCEL_FILENAME df_new] ++ rest_of_run
    | Raises e' => run = (Raises e', w)
    end.
Proof.
  intros E path r rest e w Hexists Hread all_new_data run.
  subst run. unfold main.write_excel, main.merge_with_existing, main.to_excel.
  subst all_new_data. cbv beta iota zeta.
  unfold bind, try_, lift.
  destruct (pd_DataFrame E (r :: rest)) as [df_new|e'']; [|reflexivity].
  rewrite Hexists, Hread. simpl.
  destruct (pd_to_excel E path df_new) as [[]|e']; simpl.
  - erewrite new_events_app by (rewrite <- !app_assoc; reflexivity).
    repeat split. eexists. reflexivity.
  - erewrite new_events_app by (rewrite <- !app_assoc; reflexivity).
    repeat split. eexists. reflexivity.
Qed.

Lemma unreadable_existing_file_witness :
  let E := sink_env "excel_files/april.xlsx"
             (Raises (mk_exn (OtherException "BadZipFile") "File is not a zip file" None [])) in
  let records := [case_record "G.R. No. 1" "A v. B" "facts" "decision" "ruling" "verdict"] in
  let run := main.write_excel E "excel_files/april.xlsx" records world0 in
  run.1 = Returns tt
  /\ excel_writes (trace run.2) = [("excel_files/april.xlsx", dataframe_of_records records)].
Proof.
  intros E records run.
  destruct (unreadable_existing_file_is_overwritten E "excel_files/april.xlsx"
              (case_record "G.R. No. 1" "A v. B" "facts" "decision" "ruling" "verdict") []
              (mk_exn (OtherException "BadZipFile") "File is not a zip file" None [])
              world0 eq_refl eq_refl) as (_ & Hwrite & _ & Hres & _).
  split; [exact Hres | exact Hwrite].
Defined.

(** ** The merge policy *)









(** * The Structured Extraction Pipeline *)

(** ** Shape validation (C5) *)

(** C5, where the code falls short of its own comment ("Validate it's a
    list with one object").  What the check of lines 241-245 does with a
    one-element list: the element is appended to the batch whatever it is.
    In particular the response text [[1]] puts the number 1 into the
    batch: the check tests the outer list and its length, never that the
    element is a mapping. *)
Theorem shape_check_admits_any_single_element :
  (forall (x : pyval) (all_new_data : list pyval) (w : world),
     main.validate_and_extend (PyList [x]) all_new_data w
     = (Returns (all_new_data ++ [x]),
        mk_world (trace w ++ [EPrint "Successfully extracted 1 record(s)."])
                 (n_get w) (n_generate w)))
  /\ (let E := model_answering (Some "[1]") loads_array_of_one repair_gives_up in
      (main.process_links E ["https://elibrary.judiciary.gov.ph/thebookshelf/showdocs/1/1"]
         [] world0).1
      = Returns [PyInt 1]).
Proof. split; [intros x all_new_data w; reflexivity | reflexivity]. Qed.

(** ** JSON recovery (C3) *)

Section RecoveryLadder.
Variable E : env.
Variables (raw_json_text : string) (all_new_data : list pyval) (w : world).

(** Step 1: the full text parses. *)
Lemma recover_json_direct v :
  json_loads E raw_json_text = Returns v ->
  main.recover_json E raw_json_text all_new_data w = (Returns v, w).
Proof. intros H. unfold main.recover_json, bind, try_, lift. by rewrite H. Qed.

(** Step 2: the full text does not parse and is repaired. *)
Lemma recover_json_repaired e1 v :
  json_loads E raw_json_text = Raises e1 -> is_JSONDecodeError e1 = true ->
  json_repair_loads E raw_json_text = Returns v ->
  main.recover_json E raw_json_text all_new_data w
  = (Returns v,
     mk_world (trace w ++ [EPrint "  Repaired malformed JSON with json_repair"])
              (n_get w) (n_generate w)).
Proof.
  intros H1 Hd H2. unfold main.recover_json, bind, try_, lift.
  by rewrite H1, Hd, H2.
Qed.

(** Step 3: neither works on the full text, the array substring parses. *)
Lemma recover_json_substring e1 e2 group1 v :
  json_loads E raw_json_text = Raises e1 -> is_JSONDecodeError e1 = true ->
  json_repair_loads E raw_json_text = Raises e2 ->
  re_search_array raw_json_text = Some group1 ->
  json_loads E group1 = Returns v ->
  main.recover_json E raw_json_text all_new_data w = (Returns v, w).
Proof.
  intros H1 Hd H2 Hm H3. unfold main.recover_json, bind, try_, lift.
  by rewrite H1, Hd, H2, Hm, H3.
Qed.

(** Step 4: the array substring does not parse and is repaired. *)
Lemma recover_json_substring_repaired e1 e2 group1 e3 v :
  json_loads E raw_json_text = Raises e1 -> is_JSONDecodeError e1 = true ->
  json_repair_loads E raw_json_text = Raises e2 ->
  re_search_array raw_json_text = Some group1 ->
  json_loads E group1 = Raises e3 -> is_JSONDecodeError e3 = true ->
  json_repair_loads E group1 = Returns v ->
  main.recover_json E raw_json_text all_new_data w
  = (Returns v,
     mk_world (trace w ++ [EPrint "  Repaired regex-extracted JSON with json_repair"])
              (n_get w) (n_generate w)).
Proof.
  intros H1 Hd H2 Hm H3 Hd3 H4. unfold main.recover_json, bind, try_, lift.
  by rewrite H1, Hd, H2, Hm, H3, Hd3, H4.
Qed.

(** No substring: the raw text goes to the debug file numbered by the
    batch size plus one, and [ValueError] is raised. *)
Lemma recover_json_no_substring e1 e2 :
  json_loads E raw_json_text = Raises e1 -> is_JSONDecodeError e1 = true ->
  json_repair_loads E raw_json_text = Raises e2 ->
  re_search_array raw_json_text = None ->
  main.recover_json E raw_json_text all_new_data w
  = (Raises (value_error "Could not parse JSON response even with repairs"),
     mk_world (trace w ++ [EWriteFile (debug_bad_json (length all_new_data + 1))
                                      raw_json_text])
              (n_get w) (n_generate w)).
Proof.
  intros H1 Hd H2 Hm. unfold main.recover_json, bind, try_, lift.
  by rewrite H1, Hd, H2, Hm.
Qed.

End RecoveryLadder.

(** C3, where the code leaves the ladder the claim describes.  When the
    full text neither parses nor is repaired, a substring matches, and
    that substring neither parses nor is repaired -- all four steps fail
    -- the error of the last repair is raised as it is and the world is
    unchanged: no debug file is written and the error is not the
    "Could not parse JSON response even with repairs" [ValueError] that the
    branch without a match raises. *)
Theorem all_steps_fail_after_match_leaves_no_artifact :
  forall (E : env) (raw_json_text group1 : string) (all_new_data : list pyval)
         (w : world) (e1 e2 e3 e4 : exn),
    json_loads E raw_json_text = Raises e1 -> is_JSONDecodeError e1 = true ->
    json_repair_loads E raw_json_text = Raises e2 ->
    re_search_array raw_json_text = Some group1 ->
    json_loads E group1 = Raises e3 -> is_JSONDecodeError e3 = true ->
    json_repair_loads E group1 = Raises e4 ->
    main.recover_json E raw_json_text all_new_data w = (Raises e4, w).
Proof.
  intros E raw group1 batch w e1 e2 e3 e4 H1 Hd1 H2 Hm H3 Hd3 H4.
  unfold main.recover_json, bind, try_, lift.
  by rewrite H1, Hd1, H2, Hm, H3, Hd3, H4.
Qed.

(** The theorem at the response text [x [{a}] y]: the text is not JSON,
    the substring [[{a}]] matches and is not JSON either, and the repair
    gives up on both. *)
Lemma all_steps_fail_witness :
  let E := model_answering (Some "x [{a}] y") loads_array_of_one repair_gives_up in
  let run := main.recover_json E "x [{a}] y" [] world0 in
  re_search_array "x [{a}] y" = Some "[{a}]"
  /\ run.1 = Raises (mk_exn ValueError "could not repair" None [])
  /\ written_files (trace run.2) = [].
Proof.
  intros E run. split; [reflexivity|].
  pose proof (all_steps_fail_after_match_leaves_no_artifact E "x [{a}] y" "[{a}]" [] world0
                json_decode_error (mk_exn ValueError "could not repair" None [])
                json_decode_error (mk_exn ValueError "could not repair" None [])
                eq_refl eq_refl eq_refl eq_refl eq_refl eq_refl eq_refl) as H.
  fold run in H. rewrite H. by split.
Defined.

(** ** Debug artifacts (C8) *)

Lemma retry_event_numbered n ev : is_retry_event ev -> debug_write_numbered n ev.
Proof. by destruct ev. Qed.

Lemma emits_recover_json E raw all_new_data :
  emits (debug_write_numbered (length all_new_data + 1))
        (main.recover_json E raw all_new_data).
Proof.
  unfold main.recover_json.
  apply emits_bind; [apply emits_try, emits_lift|].
  intros [v|e1]; [apply emits_ret|].
  destruct (is_JSONDecodeError e1); [|apply emits_raise].
  apply emits_bind.
  { apply emits_try, emits_bind; [apply emits_lift|]. intros v.
    apply emits_bind; [by apply emits_emit | intros _; apply emits_ret]. }
  intros [v|e2]; [apply emits_ret|].
  destruct (re_search_array raw) as [group1|].
  - apply emits_bind; [apply emits_try, emits_lift|].
    intros [v|e3]; [apply emits_ret|].
    destruct (is_JSONDecodeError e3); [|apply emits_raise].
    apply emits_bind; [apply emits_lift|]. intros v.
    apply emits_bind; [by apply emits_emit | intros _; apply emits_ret].
  - apply emits_bind; [|intros _; apply emits_raise].
    apply emits_emit. simpl. by exists BadJson.
Qed.

Lemma emits_validate_and_extend n new_data all_new_data :
  emits (debug_write_numbered n) (main.validate_and_extend new_data all_new_data).
Proof.
  unfold main.validate_and_extend.
  destruct new_data; try apply emits_raise.
  destruct (negb _); [apply emits_raise|].
  apply emits_bind; [by apply emits_emit | intros _; apply emits_ret].
Qed.

Lemma emits_extract_case E link all_new_data :
  emits (debug_write_numbered (length all_new_data + 1))
        (main.extract_case E link all_new_data).
Proof.
  unfold main.extract_case.
  apply emits_bind.
  { eapply emits_weaken; [apply retry_event_numbered | apply emits_main_fetch_loop]. }
  intros [page|]; [|apply emits_raise].
  apply emits_bind.
  { eapply emits_weaken; [apply retry_event_numbered | apply emits_call_model_loop]. }
  intros response. apply emits_bind.
  { destruct (response_is_empty response); [|apply emits_ret].
    apply emits_bind; [apply emits_emit; simpl; by exists EmptyResponse|]. intros _.
    apply emits_bind; [by apply emits_emit|]. intros _.
    apply emits_bind.
    { apply emits_try. eapply emits_weaken;
        [apply retry_event_numbered | apply emits_call_model_loop]. }
    intros [r|e]; [apply emits_ret | apply emits_raise]. }
  intros [resp|]; [|apply emits_raise].
  destruct (is_empty _).
  - apply emits_bind; [apply emits_emit; simpl; by exists EmptyResponse|].
    intros _. apply emits_raise.
  - apply emits_bind; [apply emits_recover_json|].
    intros new_data. apply emits_validate_and_extend.
Qed.

(** A successful link adds exactly one element to the batch. *)
Lemma returns_only_extract_case E link all_new_data :
  returns_only (fun data => exists x, data = all_new_data ++ [x])
               (main.extract_case E link all_new_data).
Proof.
  unfold main.extract_case.
  apply returns_only_bind. intros [page|]; [|apply returns_only_raise].
  apply returns_only_bind. intros response.
  apply returns_only_bind. intros [resp|]; [|apply returns_only_raise].
  destruct (is_empty _).
  - apply returns_only_bind. intros _. apply returns_only_raise.
  - apply returns_only_bind. intros new_data.
    unfold main.validate_and_extend.
    destruct new_data as [| | | | |xs|]; try apply returns_only_raise.
    destruct xs as [|x [|y xs]]; simpl; try apply returns_only_raise.
    apply returns_only_bind. intros _. apply returns_only_ret. by exists x.
Qed.

(** One turn of the loop: it never raises, its file writes are debug
    artifacts numbered by the batch size plus one, and the batch stays as
    it was or gains one element. *)
Lemma process_link_spec E link all_new_data w :
  exists data new,
    (main.process_link E link all_new_data w).1 = Returns data
    /\ trace (main.process_link E link all_new_data w).2 = trace w ++ new
    /\ Forall (debug_write_numbered (length all_new_data + 1)) new
    /\ (data = all_new_data \/ exists x, data = all_new_data ++ [x]).
Proof.
  unfold main.process_link, bind, try_, print, emit. simpl.
  set (w1 := mk_world _ _ _).
  destruct (emits_extract_case E link all_new_data w1) as (new & Htr & Hnew).
  pose proof (returns_only_extract_case E link all_new_data w1) as Hret.
  destruct (main.extract_case E link all_new_data w1) as [[data|e] w2]; simpl in *.
  - exists data, (EPrint ("--- Processing link: " +:+ link +:+ " ---") :: new).
    repeat split; [by rewrite Htr, <- app_assoc | by constructor | by right].
  - eexists all_new_data, _. repeat split.
    + rewrite Htr. subst w1. simpl. rewrite <- !app_assoc. reflexivity.
    + constructor; [done|]. apply Forall_app. split; [done|]. by repeat constructor.
    + by left.
Qed.

Lemma written_files_app tr1 tr2 :
  written_files (tr1 ++ tr2) = written_files tr1 ++ written_files tr2.
Proof. unfold written_files. apply omap_app. Qed.

Lemma numbered_writes n new :
  Forall (debug_write_numbered n) new ->
  exists kinds, written_files new = map (fun k => debug_name (k, n)) kinds.
Proof.
  induction 1 as [|ev new Hev _ (kinds & IH)]; [by exists []|].
  destruct ev; simpl in *; try by exists kinds.
  destruct Hev as [k ->]. exists (k :: kinds). unfold written_files in *. simpl.
  by rewrite IH.
Qed.

Lemma StronglySorted_le_app (l1 l2 : list nat) :
  StronglySorted le l1 -> StronglySorted le l2 ->
  (forall x y, x ∈ l1 -> y ∈ l2 -> (x <= y)%nat) ->
  StronglySorted le (l1 ++ l2).
Proof.
  induction 1 as [|x l1 _ IH Hx]; intros H2 Hle; simpl; [done|].
  constructor.
  - apply IH; [done|]. intros a b Ha Hb. apply Hle; [by right | done].
  - apply Forall_app. split; [done|].
    apply Forall_forall. intros y Hy. apply Hle; [by left | done].
Qed.

Lemma process_link_artifacts E link all_new_data w :
  exists data kinds new,
    (main.process_link E link all_new_data w).1 = Returns data
    /\ trace (main.process_link E link all_new_data w).2 = trace w ++ new
    /\ (data = all_new_data \/ exists x, data = all_new_data ++ [x])
    /\ written_files new
       = map (fun k => debug_name (k, (length all_new_data + 1)%nat)) kinds.
Proof.
  destruct (process_link_spec E link all_new_data w)
    as (data & new & Hres & Htr & Hnew & Hdata).
  destruct (numbered_writes _ _ Hnew) as [kinds Hkinds].
  by exists data, kinds, new.
Qed.

Lemma process_links_artifacts E links : forall all_new_data w,
  exists data artifacts new,
    (main.process_links E links all_new_data w).1 = Returns data
    /\ trace (main.process_links E links all_new_data w).2 = trace w ++ new
    /\ (length all_new_data <= length data)%nat
    /\ written_files new = map debug_name artifacts
    /\ StronglySorted le (map snd artifacts)
    /\ Forall (fun a => (length all_new_data + 1 <= a.2 <= length data + 1)%nat)
              artifacts.
Proof.
  induction links as [|link rest IH]; intros batch w.
  - exists batch, [], []. simpl. rewrite app_nil_r.
    repeat split; (done || constructor).
  - destruct (process_link_artifacts E link batch w)
      as (b1 & kinds & new1 & Hres & Htr & Hdata & Hfiles).
    simpl. unfold bind.
    destruct (main.process_link E link batch w) as [r1 w1]. simpl in Hres, Htr.
    subst r1.
    destruct (IH b1 w1)
      as (data & arts & new2 & Hres2 & Htr2 & Hlen2 & Hfiles2 & Hsorted & Hbounds).
    assert (Hb1 : (length batch <= length b1 <= length batch + 1)%nat).
    { destruct Hdata as [->|[x ->]]; [lia|]. rewrite length_app. simpl. lia. }
    exists data, (map (fun k => (k, (length batch + 1)%nat)) kinds ++ arts), (new1 ++ new2).
    split; [done|]. split; [by rewrite Htr2, Htr, <- app_assoc|].
    split; [lia|]. split; [|split].
    + rewrite written_files_app, Hfiles, Hfiles2, map_app, map_map. done.
    + rewrite map_app, map_map. simpl.
      apply StronglySorted_le_app; [|done|].
      * clear. induction kinds as [|k kinds IHk]; simpl; constructor; [done|].
        apply Forall_forall. intros y Hy.
        apply list_elem_of_fmap in Hy as (k' & -> & _). done.
      * intros x y Hx Hy.
        apply list_elem_of_fmap in Hx as (k' & -> & _).
        apply list_elem_of_fmap in Hy as (a & -> & Ha).
        rewrite Forall_forall in Hbounds. specialize (Hbounds a Ha). lia.
    + apply Forall_app. split.
      * apply Forall_forall. intros a Ha.
        apply list_elem_of_fmap in Ha as (k' & -> & _). simpl. lia.
      * eapply Forall_impl; [exact Hbounds|]. intros a Ha. simpl in Ha. lia.
Qed.

(** C8, as the code has it.  (1) The debug artifacts written while one
    link is processed are files [debug_empty_response_N.txt] or
    [debug_bad_json_N.txt] with N one more than the number of records in
    the batch when the link is taken up, and the link leaves the batch as
    it was or adds one record.  (2) Over a run the numbers of the
    artifacts, in the order they are written, never decrease and lie
    between one more than the initial and one more than the final batch
    size: the number moves on only when a record has been added. *)
Theorem debug_artifacts_numbered_by_batch_size :
  forall (E : env),
    (forall link all_new_data w,
       let run := main.process_link E link all_new_data w in
       exists data kinds,
         run.1 = Returns data
         /\ (data = all_new_data \/ exists x, data = all_new_data ++ [x])
         /\ written_files (new_events w run.2)
            = map (fun k => debug_name (k, (length all_new_data + 1)%nat)) kinds)
    /\ (forall links all_new_data w,
          let run := main.process_links E links all_new_data w in
          exists data artifacts,
            run.1 = Returns data
            /\ (length all_new_data <= length data)%nat
            /\ written_files (new_events w run.2) = map debug_name artifacts
            /\ StronglySorted le (map snd artifacts)
            /\ Forall (fun a => (length all_new_data + 1 <= a.2 <= length data + 1)%nat)
                      artifacts).
Proof.
  intros E. split.
  - intros link batch w run.
    destruct (process_link_artifacts E link batch w)
      as (data & kinds & new & Hres & Htr & Hdata & Hfiles).
    exists data, kinds. subst run. by rewrite (new_events_app _ _ _ Htr).
  - intros links batch w run.
    destruct (process_links_artifacts E links batch w)
      as (data & arts & new & Hres & Htr & Hlen & Hfiles & Hsorted & Hbounds).
    exists data, arts. subst run. by rewrite (new_events_app _ _ _ Htr).
Qed.

(** The claim as the spec words it fails: two links in a row for which
    the model answers with an empty text write the same file name, four
    times over (before and after the stricter retry of each link), and two
    links in a row whose answer cannot be parsed both write
    [debug_bad_json_1.txt].  The later write replaces the earlier file. *)
Lemma consecutive_failures_share_a_file_name :
  let links := ["https://elibrary.judiciary.gov.ph/thebookshelf/showdocs/1/1";
                "https://elibrary.judiciary.gov.ph/thebookshelf/showdocs/1/2"] in
  let empty_run := main.process_links silent_model_env links [] world0 in
  let unparsable :=
    model_answering (Some "no json here") loads_array_of_one repair_gives_up in
  let bad_run := main.process_links unparsable links [] world0 in
  empty_run.1 = Returns []
  /\ written_files (trace empty_run.2)
     = ["debug_empty_response_1.txt"; "debug_empty_response_1.txt";
        "debug_empty_response_1.txt"; "debug_empty_response_1.txt"]
  /\ bad_run.1 = Returns []
  /\ written_files (trace bad_run.2) = ["debug_bad_json_1.txt"; "debug_bad_json_1.txt"]
  /\ ~ NoDup (written_files (trace bad_run.2)).
Proof.
  vm_compute. repeat split.
  intros Hnd. apply NoDup_cons in Hnd as [Hnotin _]. apply Hnotin. by left.
Qed.

(** * The Link Extractor *)

Lemma first_index_app_l u l l' :
  u ∈ l -> first_index u (l ++ l') = first_index u l /\ (first_index u l < length l)%nat.
Proof.
  induction l as [|x l IH]; intros Hin; [by apply elem_of_nil in Hin|].
  simpl. destruct (String.eqb_spec x u) as [->|Hne]; [split; [done|lia]|].
  apply elem_of_cons in Hin as [->|Hin]; [done|].
  destruct (IH Hin) as [-> Hlt]. split; [done|lia].
Qed.

Lemma first_index_fresh u l : u ∉ l -> first_index u (l ++ [u]) = length l.
Proof.
  induction l as [|x l IH]; intros Hnotin; simpl.
  - by rewrite String.eqb_refl.
  - apply not_elem_of_cons in Hnotin as [Hne Hnotin].
    destruct (String.eqb_spec x u) as [->|_]; [done|]. by rewrite IH.
Qed.

Lemma dedup_invariant_init : dedup_invariant [] (∅, []).
Proof.
  repeat split; simpl; try done.
  - intros H. by apply elem_of_nil in H.
  - constructor.
Qed.

Lemma dedup_invariant_step cands st x :
  dedup_invariant cands st ->
  dedup_invariant (cands ++ [x]) (link_scraper.add_link st x).
Proof.
  destruct st as [seen ordered]. intros (Hseen & Hnd & Hsame & Horder).
  simpl in *. unfold link_scraper.add_link.
  destruct (decide (x ∈ seen)) as [Hin|Hnotin].
  - rewrite bool_decide_eq_false_2 by (intros H; by apply H).
    assert (Hx : x ∈ cands) by (by apply Hsame, Hseen).
    repeat split; simpl; try done; try apply Hseen.
    + intros Hu. apply elem_of_app. left. by apply Hsame.
    + intros Hu. apply elem_of_app in Hu as [Hu|Hu]; [by apply Hsame|].
      apply list_elem_of_singleton in Hu as ->. by apply Hsame.
    + intros i j u v Hi Hj Hlt.
      assert (Hu : u ∈ cands) by (apply Hsame; eapply list_elem_of_lookup_2; eauto).
      assert (Hv : v ∈ cands) by (apply Hsame; eapply list_elem_of_lookup_2; eauto).
      rewrite (proj1 (first_index_app_l u cands [x] Hu)).
      rewrite (proj1 (first_index_app_l v cands [x] Hv)).
      eauto.
  - rewrite bool_decide_eq_true_2 by done.
    assert (Hx : x ∉ cands) by (intros H; by apply Hnotin, Hseen, Hsame).
    assert (Hxo : x ∉ ordered) by (intros H; by apply Hnotin, Hseen).
    repeat split; simpl.
    + intros Hu. apply elem_of_union in Hu as [Hu|Hu].
      * apply elem_of_singleton in Hu as ->. apply elem_of_app. right. by left.
      * apply elem_of_app. left. by apply Hseen.
    + intros Hu. apply elem_of_app in Hu as [Hu|Hu].
      * apply elem_of_union. right. by apply Hseen.
      * apply list_elem_of_singleton in Hu as ->. apply elem_of_union. left.
        by apply elem_of_singleton.
    + apply NoDup_app. repeat split; [done| |apply NoDup_singleton].
      intros u Hu Hu'. apply list_elem_of_singleton in Hu' as ->. done.
    + intros Hu. apply elem_of_app in Hu as [Hu|Hu]; apply elem_of_app;
        [left; by apply Hsame | by right].
    + intros Hu. apply elem_of_app in Hu as [Hu|Hu]; apply elem_of_app;
        [left; by apply Hsame | by right].
    + intros i j u v Hi Hj Hlt.
      assert (Hiu : ordered !! i = Some u).
      { apply lookup_app_Some in Hi as [Hi|[Hge Hi]]; [done|].
        apply lookup_lt_Some in Hj. rewrite length_app in Hj. simpl in Hj. lia. }
      assert (Hu : u ∈ cands) by (apply Hsame; eapply list_elem_of_lookup_2; eauto).
      destruct (first_index_app_l u cands [x] Hu) as [-> Hult].
      apply lookup_app_Some in Hj as [Hj|[Hge Hj]].
      * assert (Hv : v ∈ cands) by (apply Hsame; eapply list_elem_of_lookup_2; eauto).
        rewrite (proj1 (first_index_app_l v cands [x] Hv)). eauto.
      * apply list_lookup_singleton_Some in Hj as [_ <-].
        by rewrite first_index_fresh.
Qed.

Lemma foldl_visit_candidates urljoin urlparse re_search base_url filter_regex hrefs :
  forall st,
    foldl (link_scraper.visit urljoin urlparse re_search base_url filter_regex) st hrefs
    = foldl link_scraper.add_link st
        (omap (link_scraper.accepted_url urljoin urlparse re_search base_url filter_regex)
              hrefs).
Proof.
  induction hrefs as [|h hrefs IH]; intros st; [done|].
  simpl. rewrite IH. unfold link_scraper.visit.
  by destruct (link_scraper.accepted_url _ _ _ _ _ h).
Qed.

Lemma foldl_add_link_invariant cands :
  dedup_invariant cands (foldl link_scraper.add_link (∅, []) cands).
Proof.
  induction cands as [|x cands IH] using rev_ind; [apply dedup_invariant_init|].
  rewrite foldl_app. simpl. by apply dedup_invariant_step.
Qed.

(** C6.  Whatever the document, the base URL and the filter, the list
    returned by [extract_links] has no repetition, holds exactly the
    absolute URLs of the document's accepted hyperlinks, and lists them in
    the order of their first occurrences in the document. *)
Theorem extract_links_unique_in_first_occurrence_order :
  forall (soup_hrefs : string -> list string)
         (urljoin : string -> string -> string)
         (urlparse : string -> urllib_parse.ParseResult)
         (re_search_ignorecase : string -> string -> bool)
         (url content : string) (filter_regex : option string),
    let links :=
      link_scraper.extract_links soup_hrefs urljoin urlparse re_search_ignorecase
        url content filter_regex in
    let candidates :=
      candidate_urls soup_hrefs urljoin urlparse re_search_ignorecase
        url content filter_regex in
    NoDup links
    /\ (forall u, u ∈ links <-> u ∈ candidates)
    /\ (forall i j u v,
          links !! i = Some u -> links !! j = Some v -> (i < j)%nat ->
          (first_index u candidates < first_index v candidates)%nat).
Proof.
  intros soup_hrefs urljoin urlparse re_search url content filter_regex links candidates.
  subst links candidates. unfold link_scraper.extract_links, candidate_urls.
  rewrite foldl_visit_candidates.
  destruct (foldl_add_link_invariant
              (omap (link_scraper.accepted_url urljoin urlparse re_search
                       (rstrip_slash url) filter_regex) (soup_hrefs content)))
    as (_ & Hnd & Hsame & Horder).
  done.
Qed.

(** * Resolution of relative hrefs (C7) *)

Import urllib_parse.
Local Arguments String.append !s1 s2 /.

Lemma plain_char_facts c :
  plain_char c = true ->
  is_unsafe c = false /\ (nat_of_ascii c <=? 32)%nat = false
  /\ Ascii.eqb c "/" = false /\ Ascii.eqb c "?" = false /\ Ascii.eqb c "#" = false
  /\ Ascii.eqb c ";" = false /\ Ascii.eqb c ":" = false.
Proof.
  destruct c as [[] [] [] [] [] [] [] []]; vm_compute; intros H; try discriminate H;
    repeat split.
Qed.

Lemma slash_facts :
  is_unsafe "/" = false /\ Ascii.eqb "/" "?" = false /\ Ascii.eqb "/" "#" = false
  /\ Ascii.eqb "/" ";" = false /\ Ascii.eqb "/" ":" = false.
Proof. by vm_compute. Qed.

Lemma path_char_facts c :
  path_char c = true ->
  is_unsafe c = false /\ Ascii.eqb c "?" = false /\ Ascii.eqb c "#" = false
  /\ Ascii.eqb c ";" = false /\ Ascii.eqb c ":" = false.
Proof.
  destruct c as [[] [] [] [] [] [] [] []]; vm_compute; intros H; try discriminate H;
    repeat split.
Qed.

Lemma plain_path_char c : plain_char c = true -> path_char c = true.
Proof. unfold path_char. by intros ->. Qed.

Lemma str_forall_app p a b : str_forall p (a +:+ b) = str_forall p a && str_forall p b.
Proof. induction a as [|c a IH]; simpl; [done|]. by rewrite IH, andb_assoc. Qed.

Lemma str_forall_impl (p q : ascii -> bool) s :
  (forall c, p c = true -> q c = true) -> str_forall p s = true -> str_forall q s = true.
Proof.
  intros Hpq. induction s as [|c s IH]; simpl; [done|].
  intros [Hc Hs]%andb_true_iff. by rewrite (Hpq c Hc), IH.
Qed.

Lemma remove_unsafe_path s : str_forall path_char s = true -> remove_unsafe s = s.
Proof.
  induction s as [|c s IH]; simpl; [done|].
  intros [Hc Hs]%andb_true_iff. destruct (path_char_facts c Hc) as (-> & _).
  by rewrite IH.
Qed.

Lemma partition_at_absent c s : str_contains c s = false -> partition_at c s = None.
Proof.
  induction s as [|x s IH]; simpl; [done|].
  intros [Hx Hs]%orb_false_iff. by rewrite Hx, IH.
Qed.

Lemma path_has_no (d : ascii) s :
  (forall c, path_char c = true -> Ascii.eqb c d = false) ->
  str_forall path_char s = true -> str_contains d s = false.
Proof.
  intros Hd. induction s as [|x s IH]; simpl; [done|].
  intros [Hx Hs]%andb_true_iff. by rewrite (Hd x Hx), IH.
Qed.

Lemma plain_has_no_slash s : plain_text s = true -> str_contains "/" s = false.
Proof.
  induction s as [|x s IH]; simpl; [done|].
  intros [Hx Hs]%andb_true_iff. destruct (plain_char_facts x Hx) as (_ & _ & -> & _).
  by rewrite IH.
Qed.

Lemma splitnetloc_host host t :
  plain_text host = true -> splitnetloc (host +:+ String "/" t) = (host, String "/" t).
Proof.
  induction host as [|x host IH]; simpl; [done|].
  intros [Hx Hs]%andb_true_iff.
  destruct (plain_char_facts x Hx) as (_ & _ & -> & -> & -> & _). simpl.
  by rewrite IH.
Qed.

Lemma split_on_absent s : str_contains "/" s = false -> split_on "/" s = [s].
Proof.
  induction s as [|x s IH]; simpl; [done|].
  intros [Hx Hs]%orb_false_iff. by rewrite Hx, IH.
Qed.

Lemma split_on_app s t :
  str_contains "/" s = false ->
  split_on "/" (s +:+ String "/" t) = s :: split_on "/" t.
Proof.
  induction s as [|x s IH]; simpl; [done|].
  intros [Hx Hs]%orb_false_iff. by rewrite Hx, IH.
Qed.

Lemma join_slash_cons s l : l <> [] -> join_slash (s :: l) = s +:+ String "/" (join_slash l).
Proof. destruct l; [done|]. intros _. reflexivity. Qed.

Lemma split_on_join l :
  l <> [] -> Forall (fun s => str_contains "/" s = false) l ->
  split_on "/" (join_slash l) = l.
Proof.
  induction l as [|s l IH]; [done|]. intros _ Hall.
  apply Forall_cons in Hall as [Hs Hl].
  destruct l as [|s' l]; [by apply split_on_absent|].
  rewrite join_slash_cons by done. rewrite split_on_app by done.
  by rewrite IH.
Qed.

Lemma str_forall_join p l :
  p "/"%char = true -> Forall (fun s => str_forall p s = true) l ->
  str_forall p (join_slash l) = true.
Proof.
  intros Hp. induction l as [|s l IH]; [done|]. intros Hall.
  apply Forall_cons in Hall as [Hs Hl].
  destruct l as [|s' l]; [done|].
  rewrite join_slash_cons by done. rewrite str_forall_app, Hs.
  cbn [str_forall andb]. by rewrite Hp, IH.
Qed.

Lemma filter_inner_spec first inner last :
  filter_inner (first :: inner ++ [last])
  = first :: filter (fun s => negb (is_empty s)) inner ++ [last].
Proof. unfold filter_inner. rewrite rev_app_distr. simpl. by rewrite rev_involutive. Qed.

Lemma resolve_segments_plain l : forall acc,
  Forall (fun s => String.eqb s ".." = false /\ String.eqb s "." = false) l ->
  resolve_segments acc l = acc ++ l.
Proof.
  induction l as [|s l IH]; intros acc Hall; simpl; [by rewrite app_nil_r|].
  apply Forall_cons in Hall as [[-> ->] Hl]. rewrite IH by done.
  by rewrite <- app_assoc.
Qed.

Lemma filter_nonempty_id l :
  Forall (fun s => is_empty s = false) l -> filter (fun s => negb (is_empty s)) l = l.
Proof.
  induction l as [|s l IH]; [done|]. intros Hall.
  apply Forall_cons in Hall as [Hs Hl]. rewrite filter_cons, Hs. simpl. by rewrite IH.
Qed.

Lemma rstrip_slash_slash s : rstrip_slash (s +:+ "/") = rstrip_slash s.
Proof. induction s as [|c s IH]; simpl; [done|]. by rewrite IH. Qed.

Lemma rstrip_slash_plain s : plain_text s = true -> rstrip_slash s = s.
Proof.
  induction s as [|c s IH]; simpl; [done|].
  intros [Hc Hs]%andb_true_iff. rewrite IH by done.
  destruct (plain_char_facts c Hc) as (_ & _ & -> & _). by destruct s.
Qed.

Lemma rstrip_slash_app a s :
  s <> EmptyString -> rstrip_slash s = s -> rstrip_slash (a +:+ s) = a +:+ s.
Proof.
  intros Hne Hs. induction a as [|c a IH]; simpl; [done|].
  rewrite IH. destruct (a +:+ s) eqn:Has; [|done].
  destruct a; simpl in Has; [by subst|done].
Qed.

Lemma str_app_assoc a b c : (a +:+ b) +:+ c = a +:+ (b +:+ c).
Proof. induction a as [|x a IH]; simpl; [done|]. by rewrite IH. Qed.

Lemma rstrip_slash_join l :
  l <> [] -> Forall (fun s => is_empty s = false /\ plain_text s = true) l ->
  rstrip_slash (join_slash l) = join_slash l.
Proof.
  induction l as [|s l IH]; [done|]. intros _ Hall.
  apply Forall_cons in Hall as [[Hne Hs] Hl].
  destruct l as [|s' l]; [by apply rstrip_slash_plain|].
  rewrite join_slash_cons by done.
  change (s +:+ String "/" (join_slash (s' :: l)))
    with (s +:+ ("/" +:+ join_slash (s' :: l))).
  rewrite <- str_app_assoc.
  apply rstrip_slash_app.
  - apply Forall_cons in Hl as [[Hne' _] _]. destruct l.
    + simpl. by destruct s'.
    + rewrite join_slash_cons by done. by destruct s'.
  - by apply IH.
Qed.

Lemma join_slash_trailing l : forall h,
  join_slash (h :: l) +:+ "/" = h +:+ String "/" (join_slash (l ++ [EmptyString])).
Proof.
  induction l as [|s l IH]; intros h; [done|].
  rewrite join_slash_cons by done.
  change (String "/" (join_slash (s :: l))) with ("/" +:+ join_slash (s :: l)).
  rewrite !str_app_assoc. rewrite IH.
  change ((s :: l) ++ [EmptyString]) with (s :: (l ++ [EmptyString])).
  rewrite (join_slash_cons s (l ++ [EmptyString])) by (by destruct l).
  reflexivity.
Qed.

Lemma join_slash_snoc l : forall h c,
  join_slash (h :: l ++ [c]) = join_slash (h :: l) +:+ "/" +:+ c.
Proof.
  induction l as [|s l IH]; intros h c; [done|].
  change (h :: (s :: l) ++ [c]) with (h :: s :: (l ++ [c])).
  rewrite (join_slash_cons h (s :: l ++ [c])) by done.
  rewrite (join_slash_cons h (s :: l)) by done.
  rewrite IH.
  change (String "/" (join_slash (s :: l) +:+ "/" +:+ c))
    with ("/" +:+ (join_slash (s :: l) +:+ "/" +:+ c)).
  change (String "/" (join_slash (s :: l))) with ("/" +:+ join_slash (s :: l)).
  by rewrite !str_app_assoc.
Qed.

Lemma join_slash_app l1 : forall l2,
  l1 <> [] -> l2 <> [] ->
  join_slash (l1 ++ l2) = join_slash l1 +:+ "/" +:+ join_slash l2.
Proof.
  induction l1 as [|a l1 IH]; intros l2 Hl1 Hl2; [done|].
  destruct l1 as [|b l1].
  - change ([a] ++ l2) with (a :: l2). by rewrite join_slash_cons.
  - change ((a :: b :: l1) ++ l2) with (a :: ((b :: l1) ++ l2)).
    rewrite (join_slash_cons a ((b :: l1) ++ l2)) by done.
    rewrite (join_slash_cons a (b :: l1)) by done.
    rewrite IH by done.
    change (String "/" (join_slash (b :: l1) +:+ "/" +:+ join_slash l2))
      with ("/" +:+ (join_slash (b :: l1) +:+ "/" +:+ join_slash l2)).
    change (String "/" (join_slash (b :: l1))) with ("/" +:+ join_slash (b :: l1)).
    by rewrite !str_app_assoc.
Qed.

Lemma plain_segment_facts s :
  plain_segment s = true ->
  is_empty s = false /\ plain_text s = true
  /\ String.eqb s ".." = false /\ String.eqb s "." = false.
Proof.
  unfold plain_segment. intros H.
  repeat (apply andb_true_iff in H as [H ?]).
  repeat split; try done; by apply negb_true_iff.
Qed.

Section ChildResolution.
Variables (sch host : string) (segs : list string) (c : string) (cs : list string).
Hypothesis scheme_http : sch = "http" \/ sch = "https".
Hypothesis host_plain : is_empty host = false /\ plain_text host = true.
Hypothesis segs_plain : Forall (fun s => plain_segment s = true) segs.
Hypothesis href_plain : Forall (fun s => plain_segment s = true) (c :: cs).

(** The href: a relative path of one or more plain segments. *)
Local Abbreviation href := (join_slash (c :: cs)).

Lemma base_path_chars : str_forall path_char (join_slash (segs ++ [EmptyString])) = true.
Proof.
  apply str_forall_join; [done|]. apply Forall_app. split; [|by repeat constructor].
  eapply Forall_impl; [exact segs_plain|]. intros s Hs. simpl.
  destruct (plain_segment_facts s Hs) as (_ & Ht & _).
  eapply str_forall_impl; [apply plain_path_char | exact Ht].
Qed.

Lemma urlparse_base :
  urlparse (sch +:+ "://" +:+ host +:+ String "/" (join_slash (segs ++ [EmptyString])))
           EmptyString
  = mk_parse sch host (String "/" (join_slash (segs ++ [EmptyString])))
             EmptyString EmptyString EmptyString.
Proof.
  destruct host_plain as [Hne Hhost].
  set (p := join_slash (segs ++ [EmptyString])).
  assert (Hp : str_forall path_char p = true) by apply base_path_chars.
  assert (Hrest : remove_unsafe (host +:+ String "/" p) = host +:+ String "/" p).
  { apply remove_unsafe_path. rewrite str_forall_app.
    rewrite (str_forall_impl _ _ _ plain_path_char Hhost). simpl. by rewrite Hp. }
  assert (Hfrag : partition_at "#" (String "/" p) = None).
  { apply partition_at_absent. apply (path_has_no "#" (String "/" p)).
    - intros x Hx. by destruct (path_char_facts x Hx) as (_ & _ & -> & _).
    - simpl. by rewrite Hp. }
  assert (Hquery : partition_at "?" (String "/" p) = None).
  { apply partition_at_absent. apply (path_has_no "?" (String "/" p)).
    - intros x Hx. by destruct (path_char_facts x Hx) as (_ & -> & _).
    - simpl. by rewrite Hp. }
  assert (Hparams : str_contains ";" p = false).
  { apply (path_has_no ";" p); [|done].
    intros x Hx. by destruct (path_char_facts x Hx) as (_ & _ & _ & -> & _). }
  unfold urlparse, urlsplit.
  destruct scheme_http as [-> | ->]; simpl; rewrite Hrest; simpl;
    rewrite splitnetloc_host by done; rewrite Hfrag, Hquery; simpl;
    rewrite Hparams; reflexivity.
Qed.

(** The href starts with a plain character. *)
Lemma href_starts_plain : exists x rest, href = String x rest /\ plain_char x = true.
Proof.
  apply Forall_cons in href_plain as [Hc _].
  destruct (plain_segment_facts c Hc) as (Hne & Ht & _).
  destruct c as [|x s]; [done|]. simpl in Ht. apply andb_true_iff in Ht as [Hx _].
  destruct cs as [|c' cs']; [by exists x, s|].
  rewrite join_slash_cons by done. by eexists x, _.
Qed.

Lemma href_path_chars : str_forall path_char href = true.
Proof.
  apply str_forall_join; [done|].
  eapply Forall_impl; [exact href_plain|]. intros s Hs. simpl.
  destruct (plain_segment_facts s Hs) as (_ & Ht & _).
  eapply str_forall_impl; [apply plain_path_char | exact Ht].
Qed.

Lemma urlparse_relative_path :
  urlparse href sch = mk_parse sch EmptyString href EmptyString EmptyString EmptyString.
Proof.
  pose proof href_path_chars as Hpath.
  destruct href_starts_plain as (x & rest & Hh & Hx).
  remember (join_slash (c :: cs)) as h eqn:Heqh. clear Heqh.
  assert (Hlstrip : lstrip_c0 h = h).
  { rewrite Hh. simpl. by destruct (plain_char_facts x Hx) as (_ & -> & _). }
  assert (Hcolon : partition_at ":" h = None).
  { apply partition_at_absent, (path_has_no ":" h); [|done].
    intros y Hy. by destruct (path_char_facts y Hy) as (_ & _ & _ & _ & ->). }
  assert (Hfrag : partition_at "#" h = None).
  { apply partition_at_absent, (path_has_no "#" h); [|done].
    intros y Hy. by destruct (path_char_facts y Hy) as (_ & _ & -> & _). }
  assert (Hquery : partition_at "?" h = None).
  { apply partition_at_absent, (path_has_no "?" h); [|done].
    intros y Hy. by destruct (path_char_facts y Hy) as (_ & -> & _). }
  assert (Hparams : str_contains ";" h = false).
  { apply (path_has_no ";" h); [|done].
    intros y Hy. by destruct (path_char_facts y Hy) as (_ & _ & _ & -> & _). }
  assert (Hnoslash : match h with
                     | String "/" (String "/" rest) => splitnetloc rest
                     | _ => (EmptyString, h)
                     end = (EmptyString, h)).
  { rewrite Hh. destruct (plain_char_facts x Hx) as (_ & _ & Hs & _).
    destruct x as [[] [] [] [] [] [] [] []]; try done. }
  unfold urlparse, urlsplit.
  rewrite Hlstrip, (remove_unsafe_path h Hpath), Hcolon.
  destruct scheme_http as [-> | ->]; simpl; rewrite Hnoslash, Hfrag, Hquery; simpl;
    rewrite Hparams; reflexivity.
Qed.

Lemma urljoin_child :
  urljoin (sch +:+ "://" +:+ join_slash (host :: segs) +:+ "/") href
  = sch +:+ "://" +:+ join_slash (host :: segs) +:+ "/" +:+ href.
Proof.
  destruct host_plain as [Hhne Hhost].
  destruct href_starts_plain as (x & rest & Hhref & Hx).
  assert (Hbase : sch +:+ "://" +:+ join_slash (host :: segs) +:+ "/"
                  = sch +:+ "://" +:+ host +:+ String "/" (join_slash (segs ++ [EmptyString]))).
  { by rewrite join_slash_trailing. }
  rewrite Hbase at 1.
  unfold urljoin. rewrite urlparse_base. cbn [scheme netloc path params query fragment].
  rewrite urlparse_relative_path. cbn [scheme netloc path params query fragment].
  assert (Hfacts : forall l, Forall (fun s => plain_segment s = true) l ->
            Forall (fun s => is_empty s = false /\ plain_text s = true
                             /\ String.eqb s ".." = false /\ String.eqb s "." = false) l).
  { intros l Hl. eapply Forall_impl; [exact Hl|]. intros s Hs.
    by apply plain_segment_facts. }
  pose proof (Hfacts segs segs_plain) as Hsegs.
  pose proof (Hfacts (c :: cs) href_plain) as Hcs.
  assert (Hsplit : split_on "/" (String "/" (join_slash (segs ++ [EmptyString])))
                   = EmptyString :: segs ++ [EmptyString]).
  { change (String "/" (join_slash (segs ++ [EmptyString])))
      with (EmptyString +:+ String "/" (join_slash (segs ++ [EmptyString]))).
    rewrite split_on_app by done. f_equal. apply split_on_join; [by destruct segs|].
    apply Forall_app. split; [|by repeat constructor].
    eapply Forall_impl; [exact Hsegs|]. intros s (_ & Hs & _). by apply plain_has_no_slash. }
  assert (Hsplit_href : split_on "/" href = c :: cs).
  { apply split_on_join; [done|].
    eapply Forall_impl; [exact Hcs|]. intros s (_ & Hs & _). by apply plain_has_no_slash. }
  assert (Hlast : List.last (EmptyString :: segs ++ [EmptyString]) EmptyString = EmptyString).
  { change (EmptyString :: segs ++ [EmptyString]) with ((EmptyString :: segs) ++ [EmptyString]).
    apply last_last. }
  assert (Hne : is_empty href = false) by by rewrite Hhref.
  assert (Hstart : starts_with_slash href = false).
  { rewrite Hhref. destruct (plain_char_facts x Hx) as (_ & _ & Hs & _).
    destruct x as [[] [] [] [] [] [] [] []]; try done. }
  destruct (exists_last (l := c :: cs) ltac:(done)) as (init & cl & Hcl).
  assert (Hinit : Forall (fun s => is_empty s = false) init
                  /\ String.eqb cl ".." = false /\ String.eqb cl "." = false).
  { rewrite Hcl in Hcs. apply Forall_app in Hcs as [Hi Hl].
    apply Forall_cons in Hl as [(_ & _ & ? & ?) _]. split; [|done].
    eapply Forall_impl; [exact Hi|]. by intros s (? & _). }
  destruct Hinit as (Hinit & Hdd & Hd).
  assert (Hfilter : filter_inner ((EmptyString :: segs ++ [EmptyString]) ++ c :: cs)
                    = EmptyString :: segs ++ c :: cs).
  { rewrite Hcl.
    replace ((EmptyString :: segs ++ [EmptyString]) ++ init ++ [cl])
      with (EmptyString :: ((segs ++ [EmptyString]) ++ init) ++ [cl])
      by (cbn [app]; by rewrite <- !app_assoc).
    rewrite filter_inner_spec. f_equal. rewrite !filter_app.
    rewrite (filter_nonempty_id segs), (filter_nonempty_id init); [| done |].
    - simpl. by rewrite app_nil_r, <- app_assoc.
    - eapply Forall_impl; [exact Hsegs|]. by intros s (? & _). }
  assert (Hlastc : List.last (EmptyString :: segs ++ c :: cs) EmptyString = cl).
  { rewrite Hcl.
    replace (EmptyString :: segs ++ init ++ [cl])
      with ((EmptyString :: segs ++ init) ++ [cl])
      by (cbn [app]; by rewrite <- ?app_assoc).
    apply last_last. }
  assert (Hresolve : resolve_segments [] (EmptyString :: segs ++ c :: cs)
                     = EmptyString :: segs ++ c :: cs).
  { rewrite resolve_segments_plain; [done|]. constructor; [done|].
    apply Forall_app. split.
    - eapply Forall_impl; [exact Hsegs|]. by intros s (_ & _ & ? & ?).
    - eapply Forall_impl; [exact Hcs|]. by intros s (_ & _ & ? & ?). }
  assert (Hjoin : join_slash (EmptyString :: segs ++ c :: cs)
                  = String "/" (join_slash (segs ++ c :: cs))).
  { rewrite join_slash_cons; [done|]. by destruct segs. }
  assert (Hrel : str_in sch uses_relative = true)
    by (destruct scheme_http as [-> | ->]; reflexivity).
  assert (Hnet : str_in sch uses_netloc = true)
    by (destruct scheme_http as [-> | ->]; reflexivity).
  assert (Hnonempty : forall t, is_empty (sch +:+ t) = false)
    by (intros t; destruct scheme_http as [-> | ->]; reflexivity).
  rewrite Hnonempty, String.eqb_refl, Hrel, Hnet.
  rewrite Hsplit, Hlast, Hne, Hstart, Hsplit_href.
  cbn [is_empty negb andb].
  rewrite Hfilter, Hlastc, Hd, Hdd. cbn [orb].
  rewrite Hresolve, Hjoin. cbn [is_empty].
  unfold urlunparse, urlunsplit. cbn [scheme netloc path params query fragment is_empty negb].
  rewrite Hhne. cbn [negb orb andb starts_with_slash].
  rewrite <- (join_slash_app (host :: segs) (c :: cs)) by done.
  change ((host :: segs) ++ c :: cs) with (host :: (segs ++ c :: cs)).
  rewrite (join_slash_cons host (segs ++ c :: cs)) by (by destruct segs).
  destruct scheme_http as [-> | ->]; reflexivity.
Qed.

End ChildResolution.


(** C7, as the code has it.  The href is resolved against the base URL
    with its trailing slashes removed and one slash appended.  For an http
    or https URL made of a plain host and plain path segments, so without
    query or fragment, given with or without a trailing slash, a relative
    href made of one or more plain segments, none of them [.] or [..],
    therefore resolves to a child of the current resource: the URL, a
    slash, the href.  (Other hrefs and bases are outside this statement;
    [child_resolution_needs_plain_href_and_base] shows two that end
    elsewhere.) *)
Theorem relative_href_resolves_as_child :
  forall (sch host : string) (segs : list string) (c : string) (cs : list string),
    sch = "http" \/ sch = "https" ->
    is_empty host = false -> plain_text host = true ->
    Forall (fun s => plain_segment s = true) segs ->
    Forall (fun s => plain_segment s = true) (c :: cs) ->
    let url := sch +:+ "://" +:+ join_slash (host :: segs) in
    let href := join_slash (c :: cs) in
    let resolve := fun u => link_scraper.absolute_url urljoin (rstrip_slash u) href in
    resolve url = url +:+ "/" +:+ href
    /\ resolve (url +:+ "/") = url +:+ "/" +:+ href.
Proof.
  intros sch host segs c cs Hsch Hhne Hhost Hsegs Hcs url href resolve.
  assert (Hstrip : rstrip_slash url = url).
  { subst url. change (sch +:+ "://" +:+ join_slash (host :: segs))
      with (sch +:+ ("://" +:+ join_slash (host :: segs))).
    rewrite <- str_app_assoc. apply rstrip_slash_app.
    - destruct segs; [simpl; by destruct host|].
      rewrite join_slash_cons by done. by destruct host.
    - apply rstrip_slash_join; [done|]. constructor; [done|].
      eapply Forall_impl; [exact Hsegs|]. intros s Hs.
      by destruct (plain_segment_facts s Hs) as (? & ? & _). }
  assert (Hchild : resolve url = url +:+ "/" +:+ href).
  { subst resolve. cbv beta. rewrite Hstrip. unfold link_scraper.absolute_url. subst url href.
    rewrite !str_app_assoc.
    apply urljoin_child; done. }
  split; [exact Hchild|].
  subst resolve. cbv beta in *. by rewrite rstrip_slash_slash.
Qed.

(** The claim as the spec words it fails: for the base [.../a/b] and the
    href [c] the link extractor yields [.../a/b/c], not the sibling
    [.../a/c]; the sibling is what the base without the appended slash
    would give. *)
Lemma href_does_not_resolve_as_sibling :
  let url := "https://elibrary.judiciary.gov.ph/a/b" in
  let child := "https://elibrary.judiciary.gov.ph/a/b/c" in
  let sibling := "https://elibrary.judiciary.gov.ph/a/c" in
  link_scraper.absolute_url urljoin (rstrip_slash url) "c" = child
  /\ link_scraper.absolute_url urljoin (rstrip_slash url) "c" <> sibling
  /\ link_scraper.extract_links (fun _ => ["c"]) urljoin (fun u => urlparse u EmptyString)
       (fun _ _ => true) url EmptyString None
     = [child]
  /\ urljoin url "c" = sibling.
Proof. vm_compute. repeat split. discriminate. Qed.

(** The hypotheses on the href and on the base are needed.  An href that
    starts with [..] leaves the current resource, and so does a base URL
    with a query: the appended slash then ends the query, not the path. *)
Lemma child_resolution_needs_plain_href_and_base :
  link_scraper.absolute_url urljoin (rstrip_slash "https://h/a/b") "../c" = "https://h/a/c"
  /\ link_scraper.absolute_url urljoin (rstrip_slash "https://h/a/b?x=1") "c"
     = "https://h/a/c"
  /\ link_scraper.absolute_url urljoin (rstrip_slash "https://h/a/b") "/c" = "https://h/c".
Proof. by vm_compute. Qed.

(** The theorem at the base [https://elibrary.judiciary.gov.ph/a/b] and
    the hrefs [c] and [c/d]. *)
Lemma relative_href_witness :
  link_scraper.absolute_url urljoin
    (rstrip_slash "https://elibrary.judiciary.gov.ph/a/b") "c"
  = "https://elibrary.judiciary.gov.ph/a/b/c"
  /\ link_scraper.absolute_url urljoin
       (rstrip_slash "https://elibrary.judiciary.gov.ph/a/b/") "c/d"
     = "https://elibrary.judiciary.gov.ph/a/b/c/d".
Proof.
  split.
  - exact (proj1 (relative_href_resolves_as_child "https" "elibrary.judiciary.gov.ph"
                    ["a"; "b"] "c" [] (or_intror eq_refl) eq_refl eq_refl
                    ltac:(repeat constructor) ltac:(repeat constructor))).
  - exact (proj2 (relative_href_resolves_as_child "https" "elibrary.judiciary.gov.ph"
                    ["a"; "b"] "c" ["d"] (or_intror eq_refl) eq_refl eq_refl
                    ltac:(repeat constructor) ltac:(repeat constructor))).
Defined.

(** * [chunks] *)

Lemma concat_slices {A} (l : list A) (s : nat) (m : nat) :
  concat (map (fun k => take s (drop (k * s) l)) (seq 0 m)) = take (m * s) l.
Proof.
  induction m as [|m IH]; [done|].
  rewrite seq_S, map_app, concat_app, IH. simpl. rewrite app_nil_r.
  rewrite take_take_drop. f_equal. lia.
Qed.

Lemma div_up_bounds (len s : nat) :
  (0 < s)%nat ->
  let m := ((len + s - 1) / s)%nat in
  (len <= m * s)%nat /\ (m * s < len + s)%nat.
Proof.
  intros Hs m. subst m.
  pose proof (Nat.div_mod_eq (len + s - 1) s) as Hdiv.
  pose proof (Nat.mod_upper_bound (len + s - 1) s ltac:(lia)) as Hmod.
  nia.
Qed.

(** The chunks of a list.  A zero size raises [ValueError]; a negative
    size yields no chunk at all, whatever the list holds.  For a positive
    size [n] the chunks, put end to end, give the list back; none is empty
    or longer than [n], every chunk but the last has exactly [n]
    elements, and there are [ceil(len(lst) / n)] of them. *)
Theorem chunks_partition :
  forall (A : Type) (lst : list A) (n : Z),
    (n = 0 -> exists e, main.chunks lst n = Raises e /\ exn_cls e = ValueError)
    /\ (n < 0 -> main.chunks lst n = Returns [])
    /\ (0 < n ->
        exists cs,
          main.chunks lst n = Returns cs
          /\ concat cs = lst
          /\ Forall (fun c => (0 < length c <= Z.to_nat n)%nat) cs
          /\ (forall i c, cs !! i = Some c -> (i + 1 < length cs)%nat ->
                length c = Z.to_nat n)
          /\ length cs = ((length lst + Z.to_nat n - 1) / Z.to_nat n)%nat).
Proof.
  intros A lst n. unfold main.chunks. split; [|split].
  - intros ->. simpl. eexists. by split.
  - intros Hn. destruct (n =? 0) eqn:H0; [lia|].
    by rewrite (proj2 (Z.ltb_lt n 0) Hn).
  - intros Hn. destruct (n =? 0) eqn:H0; [lia|].
    rewrite (proj2 (Z.ltb_ge n 0)) by lia.
    set (s := Z.to_nat n). assert (Hs : (0 < s)%nat) by lia.
    set (m := ((length lst + s - 1) / s)%nat).
    destruct (div_up_bounds (length lst) s Hs) as [Hlow Hhigh]. fold m in Hlow, Hhigh.
    eexists. split; [reflexivity|].
    unfold range_from_zero. fold m. rewrite map_map.
    split; [|split; [|split]].
    + rewrite concat_slices. by apply take_ge.
    + apply Forall_forall. intros c Hc.
      apply list_elem_of_fmap in Hc as (k & -> & Hk).
      apply elem_of_seq in Hk. rewrite length_take, length_drop. nia.
    + intros i c Hi Hlast. rewrite length_map, length_seq in Hlast.
      rewrite list_lookup_fmap in Hi.
      destruct (seq 0 m !! i) as [k|] eqn:Hk; [|done].
      apply lookup_seq in Hk as [-> _]. injection Hi as <-.
      rewrite length_take, length_drop. nia.
    + by rewrite length_map, length_seq.
Qed.

(** * More on the retry loops: bounds, delays, success *)

Section RetryLoopShape.
Context {A X : Type}.
Variable attempt_once : M A.
Variable retryable : exn -> bool.
Variable is_last : nat -> bool.
Variable announce : nat -> exn -> Z -> event.
Variable answer : nat -> outcome A.
Variable idx : world -> nat.
Variable call : event.
(** [f] picks the calls out of a trace. *)
Variable f : event -> option X.
Variable x : X.
Hypothesis attempt_once_spec : forall w,
  exists w', attempt_once w = (answer (idx w), w')
             /\ trace w' = trace w ++ [call] /\ idx w' = S (idx w).
Hypothesis idx_emit : forall ev w, idx (emit ev w).2 = idx w.
Hypothesis f_call : f call = Some x.
Hypothesis f_sleep : forall d, f (ESleep d) = None.
Hypothesis f_announce : forall a e d, f (announce a e d) = None.
Hypothesis call_no_sleep : sleeps [call] = [].
Hypothesis announce_no_sleep : forall a e d, sleeps [announce a e d] = [].

Local Abbreviation loop := (retry_loop attempt_once retryable is_last announce).

Lemma doubling_cons (d : Z) (m : nat) :
  d :: map (fun i => d * 2 * 2 ^ Z.of_nat i) (seq 0 m)
  = map (fun i => d * 2 ^ Z.of_nat i) (seq 0 (S m)).
Proof.
  simpl. f_equal; [lia|]. rewrite <- seq_shift, map_map.
  apply map_ext. intros i. rewrite Nat2Z.inj_succ, Z.pow_succ_r by lia. ring.
Qed.

(** A loop whose last attempt is recognised as the last makes at most one
    call per attempt and at least one, sleeps once between two calls with
    the delay doubled each time, and never falls off its end. *)
Lemma retry_loop_shape attempts :
  (forall a0, last attempts = Some a0 -> is_last a0 = true) ->
  forall d w,
    exists new m,
      trace (loop attempts d w).2 = trace w ++ new
      /\ (m <= length attempts)%nat
      /\ omap f new = replicate m x
      /\ sleeps new = map (fun i => d * 2 ^ Z.of_nat i) (seq 0 (m - 1))
      /\ (attempts <> [] -> (1 <= m)%nat /\ (loop attempts d w).1 <> Returns None)
      /\ (attempts = [] -> loop attempts d w = (Returns None, w)).
Proof.
  induction attempts as [|a rest IH]; intros Hlast d w.
  - exists [], O. simpl. rewrite app_nil_r. by repeat split.
  - simpl. destruct (attempt_once_spec w) as (w' & Hrun & Htr & _).
    unfold bind, try_. rewrite Hrun.
    destruct (answer (idx w)) as [r|e]; simpl.
    { exists [call], 1%nat.
      split; [done|]. split; [simpl; lia|]. split; [simpl; by rewrite f_call|].
      split; [by rewrite call_no_sleep|]. split; [|done]. intros _. split; [lia|done]. }
    destruct (retryable e && negb (is_last a)) eqn:Hretry; simpl.
    2:{ exists [call], 1%nat.
        split; [done|]. split; [simpl; lia|]. split; [simpl; by rewrite f_call|].
        split; [by rewrite call_no_sleep|]. split; [|done]. intros _. split; [lia|done]. }
    assert (Hrest : rest <> []).
    { intros ->. rewrite (Hlast a eq_refl) in Hretry.
      by rewrite andb_false_r in Hretry. }
    assert (Hlast' : forall a0, last rest = Some a0 -> is_last a0 = true).
    { intros a0 Ha0. apply Hlast. rewrite last_cons, Ha0. done. }
    set (w2 := mk_world ((trace w' ++ [announce a e d]) ++ [ESleep d])
                        (n_get w') (n_generate w')).
    destruct (IH Hlast' (d * 2) w2) as (new & m & Htr2 & Hm & Hcalls & Hsleeps & Hne & _).
    destruct (Hne Hrest) as [Hm1 Hnone].
    exists ([call; announce a e d; ESleep d] ++ new), (S m).
    split; [|split; [|split; [|split; [|split]]]].
    + rewrite Htr2. subst w2. simpl. rewrite Htr. by rewrite <- !app_assoc.
    + simpl. lia.
    + change ([call; announce a e d; ESleep d] ++ new)
        with ([call] ++ [announce a e d] ++ [ESleep d] ++ new).
      rewrite !omap_app, Hcalls.
      replace (omap f [call]) with [x] by (simpl; by rewrite f_call).
      replace (omap f [announce a e d]) with (@nil X) by (simpl; by rewrite f_announce).
      replace (omap f [ESleep d]) with (@nil X) by (simpl; by rewrite f_sleep).
      done.
    + change ([call; announce a e d; ESleep d] ++ new)
        with ([call] ++ [announce a e d] ++ [ESleep d] ++ new).
      unfold sleeps in *. rewrite !omap_app.
      rewrite call_no_sleep, announce_no_sleep, Hsleeps.
      replace (S m - 1)%nat with (S (m - 1)) by lia.
      rewrite <- doubling_cons. reflexivity.
    + intros _. split; [lia | done].
    + done.
Qed.

(** The attempt made after [k] retried failures returns [resp]: the loop
    returns it, and the successful call is the last event. *)
Lemma retry_loop_success k : forall errs a m d w resp,
  (k < m)%nat ->
  (forall j, (j < k)%nat ->
     answer (idx w + j)%nat = Raises (errs j)
     /\ retryable (errs j) = true /\ is_last (a + j)%nat = false) ->
  answer (idx w + k)%nat = Returns resp ->
  (loop (seq a m) d w).1 = Returns (Some resp)
  /\ trace (loop (seq a m) d w).2
     = trace w ++ backoff_trace announce call errs a d k ++ [call].
Proof.
  induction k as [|k IH]; intros errs a m d w resp Hk Hprev Hcur.
  - destruct m as [|m]; [lia|].
    rewrite Nat.add_0_r in Hcur. simpl.
    destruct (attempt_once_spec w) as (w' & Hrun & Htr & Hidx).
    unfold bind, try_. rewrite Hrun, Hcur. simpl. by rewrite Htr.
  - destruct m as [|m]; [lia|].
    destruct (Hprev O ltac:(lia)) as (H0 & Hr0 & Hl0).
    rewrite !Nat.add_0_r in *.
    destruct (attempt_once_spec w) as (w' & Hrun & Htr & Hidx).
    set (w2 := mk_world ((trace w' ++ [announce a (errs O) d]) ++ [ESleep d])
                        (n_get w') (n_generate w')).
    assert (Hw2 : idx w2 = S (idx w)).
    { rewrite <- Hidx. subst w2.
      pose proof (idx_emit (announce a (errs O) d) w') as H1.
      pose proof (idx_emit (ESleep d) (emit (announce a (errs O) d) w').2) as H2.
      simpl in H1, H2. by rewrite H2, H1. }
    assert (Hstep : loop (seq a (S m)) d w = loop (seq (S a) m) (d * 2) w2).
    { simpl. unfold bind, try_. rewrite Hrun, H0. simpl.
      rewrite Hr0, Hl0. simpl. reflexivity. }
    rewrite Hstep.
    specialize (IH (fun j => errs (S j)) (S a) m (d * 2) w2 resp ltac:(lia)).
    rewrite Hw2 in IH.
    destruct IH as [IH1 IH2].
    + intros j Hj. destruct (Hprev (S j) ltac:(lia)) as (Ha & Hb & Hc).
      replace (S (idx w) + j)%nat with (idx w + S j)%nat by lia.
      replace (S a + j)%nat with (a + S j)%nat by lia. done.
    + replace (S (idx w) + k)%nat with (idx w + S k)%nat by lia. done.
    + split; [done|]. rewrite IH2. subst w2. simpl. rewrite Htr.
      by rewrite <- !app_assoc.
Qed.

End RetryLoopShape.

Lemma last_seq (a n : nat) : last (seq a (S n)) = Some (a + n)%nat.
Proof. rewrite seq_S. apply last_snoc. Qed.

Lemma last_seq_is_last (is_last : nat -> bool) (max_retries : nat) :
  is_last max_retries = true ->
  forall a0, last (seq 1 max_retries) = Some a0 -> is_last a0 = true.
Proof.
  intros Hlast a0. destruct max_retries as [|n]; [done|].
  rewrite last_seq. intros [= <-]. exact Hlast.
Qed.

Lemma sleeps_backoff_trace announce call errs :
  sleeps [call] = [] ->
  (forall a e d, sleeps [announce a e d] = []) ->
  forall k a d,
    sleeps (backoff_trace announce call errs a d k)
    = map (fun i => d * 2 ^ Z.of_nat i) (seq 0 k).
Proof.
  intros Hcall Hann k. revert errs. induction k as [|k IH]; intros errs a d; [done|].
  change (backoff_trace announce call errs a d (S k))
    with ([call] ++ [announce a (errs O) d] ++ [ESleep d]
          ++ backoff_trace announce call (fun j => errs (S j)) (S a) (d * 2) k).
  rewrite <- doubling_cons.
  unfold sleeps in *. rewrite !omap_app, Hcall, Hann, IH. reflexivity.
Qed.

(** ** The Retrying Inference Caller *)

(** Whatever the service answers, [call_model_with_retries] makes at least
    one and at most [max_retries] calls, all with the same configuration,
    sleeps exactly once between two calls, the n-th sleep lasting
    [initial_delay * 2^(n-1)], and does not return [None]; only with
    [max_retries = 0] does it return [None], without any call. *)
Theorem call_model_attempts_bounded_delays_doubled :
  forall (E : env) cfg contents (max_retries : nat) (initial_delay : Z) (w : world),
    let run := main.call_model_with_retries E cfg contents max_retries initial_delay w in
    exists m,
      (m <= max_retries)%nat
      /\ generates (new_events w run.2) = replicate m cfg
      /\ sleeps (new_events w run.2)
         = map (fun i => initial_delay * 2 ^ Z.of_nat i) (seq 0 (m - 1))
      /\ ((0 < max_retries)%nat -> (1 <= m)%nat /\ run.1 <> Returns None)
      /\ (max_retries = O -> run = (Returns None, w)).
Proof.
  intros E cfg contents max_retries d0 w run.
  assert (Hrun : run = retry_loop (do_generate_content E cfg contents)
        (fun e => main.is_transient (main.extract_status E e))
        (fun a => (a =? max_retries)%nat)
        (transient_error_line max_retries) (seq 1 max_retries) d0 w).
  { subst run. unfold main.call_model_with_retries. apply call_model_loop_retry_loop. }
  destruct (retry_loop_shape (X:=gen_config)
    (do_generate_content E cfg contents)
    (fun e => main.is_transient (main.extract_status E e))
    (fun a => (a =? max_retries)%nat)
    (transient_error_line max_retries)
    (fun n => generate_content E n cfg contents) n_generate (EGenerate cfg contents)
    (fun ev => match ev with EGenerate c _ => Some c | _ => None end) cfg
    ltac:(intros w0; eexists; split; [reflexivity|split; reflexivity])
    ltac:(reflexivity) ltac:(intros; reflexivity) ltac:(intros; reflexivity)
    ltac:(reflexivity) ltac:(intros; reflexivity)
    (seq 1 max_retries)
    (last_seq_is_last (fun a => (a =? max_retries)%nat) max_retries
       (Nat.eqb_refl max_retries)) d0 w)
    as (new & m & Htr & Hm & Hcalls & Hsleeps & Hne & Hnil).
  rewrite <- Hrun in Htr, Hne, Hnil. rewrite length_seq in Hm.
  exists m. rewrite (new_events_app _ _ _ Htr).
  split; [done|]. split; [exact Hcalls|]. split; [done|]. split.
  - intros Hpos. apply Hne. destruct max_retries; [lia | done].
  - intros ->. by apply Hnil.
Qed.

Lemma generates_backoff_trace max_retries cfg contents k : forall errs a d,
  length (omap (fun ev => match ev with EGenerate c _ => Some c | _ => None end)
            (backoff_trace (transient_error_line max_retries)
               (EGenerate cfg contents) errs a d k))
  = k.
Proof.
  induction k as [|k IH]; intros errs a d; [done|]. simpl. by rewrite IH.
Qed.

(** The first successful call ends the loop: when the first [k] calls
    raise transient errors and call [k+1] (within the budget) returns a
    response, [call_model_with_retries] returns that response after
    exactly [k] sleeps of [initial_delay], twice that, and so on, and makes
    no call after the successful one. *)
Theorem call_model_returns_first_success :
  forall (E : env) cfg contents (max_retries : nat) (initial_delay : Z)
         (w : world) (errs : nat -> exn) (k : nat) (resp : model_response),
    (k < max_retries)%nat ->
    (forall j, (j < k)%nat ->
       generate_content E (n_generate w + j) cfg contents = Raises (errs j)
       /\ main.is_transient (main.extract_status E (errs j)) = true) ->
    generate_content E (n_generate w + k) cfg contents = Returns resp ->
    let run := main.call_model_with_retries E cfg contents max_retries initial_delay w in
    run.1 = Returns (Some resp)
    /\ trace run.2
       = trace w ++ backoff_trace (transient_error_line max_retries)
                      (EGenerate cfg contents) errs 1 initial_delay k
         ++ [EGenerate cfg contents]
    /\ sleeps (new_events w run.2)
       = map (fun i => initial_delay * 2 ^ Z.of_nat i) (seq 0 k)
    /\ length (generates (new_events w run.2)) = S k.
Proof.
  intros E cfg contents max_retries d0 w errs k resp Hk Hprev Hcur run.
  assert (Hrun : run = retry_loop (do_generate_content E cfg contents)
        (fun e => main.is_transient (main.extract_status E e))
        (fun a => (a =? max_retries)%nat)
        (transient_error_line max_retries) (seq 1 max_retries) d0 w).
  { subst run. unfold main.call_model_with_retries. apply call_model_loop_retry_loop. }
  destruct (retry_loop_success
    (do_generate_content E cfg contents)
    (fun e => main.is_transient (main.extract_status E e))
    (fun a => (a =? max_retries)%nat)
    (transient_error_line max_retries)
    (fun n => generate_content E n cfg contents) n_generate (EGenerate cfg contents)
    ltac:(intros w0; eexists; split; [reflexivity|split; reflexivity])
    ltac:(intros; reflexivity) k errs 1%nat max_retries d0 w resp Hk) as [Hres Htr].
  - intros j Hj. destruct (Hprev j Hj) as [H1 H2]. repeat split; try done.
    apply Nat.eqb_neq. lia.
  - done.
  - rewrite <- Hrun in Hres, Htr. split; [done|]. split; [done|].
    rewrite (new_events_app _ _ _ Htr).
    split.
    + unfold sleeps. rewrite omap_app. simpl. rewrite app_nil_r.
      by apply (sleeps_backoff_trace (transient_error_line max_retries)).
    + unfold generates. rewrite omap_app, length_app. simpl.
      rewrite (generates_backoff_trace max_retries cfg contents). lia.
Qed.

(** The theorem at two 503 errors followed by an answer, with
    [max_retries = 4] and initial delay 2: three calls, sleeps of 2 and 4. *)
Lemma call_model_returns_first_success_witness :
  let E := model_failing_with [503; 503] in
  let run := main.call_model_with_retries E CaseInstruction "page" 4 2 world0 in
  run.1 = Returns (Some (mk_model_response (Some EmptyString)))
  /\ sleeps (trace run.2) = [2; 4]
  /\ length (generates (trace run.2)) = 3%nat.
Proof.
  intros E run.
  destruct (call_model_returns_first_success E CaseInstruction "page" 4%nat 2 world0
              (fun _ => api_error 503) 2%nat (mk_model_response (Some EmptyString)))
    as (Hres & _ & Hsleeps & Hcalls).
  - lia.
  - intros j Hj. destruct j as [|[|j]]; [split; reflexivity | split; reflexivity | lia].
  - reflexivity.
  - fold run in Hres, Hsleeps, Hcalls. by repeat split.
Defined.

(** ** The Retrying HTTP Fetchers *)

Section FetchShape.
Variable E : env.
Variables (url : string) (timeout : Z) (max_retries : nat).

Lemma fetch_retry_loop_shape is_last announce d0 w :
  is_last max_retries = true ->
  (forall a e d, exists line, announce a e d = EPrint line \/ announce a e d = EPrintErr line) ->
  let run := retry_loop (get_checked E url timeout) is_RequestException is_last announce
               (seq 1 max_retries) d0 w in
  exists m,
    (m <= max_retries)%nat
    /\ gets (new_events w run.2) = replicate m url
    /\ sleeps (new_events w run.2) = map (fun i => d0 * 2 ^ Z.of_nat i) (seq 0 (m - 1))
    /\ ((0 < max_retries)%nat -> (1 <= m)%nat /\ run.1 <> Returns None)
    /\ (max_retries = O -> run = (Returns None, w)).
Proof.
  intros Hlast Hann run.
  destruct (retry_loop_shape (X:=string)
    (get_checked E url timeout) is_RequestException is_last announce
    (fun n => checked_get_answer E n url timeout) n_get (EGet url timeout)
    (fun ev => match ev with EGet u _ => Some u | _ => None end) url
    (get_checked_spec E url timeout)
    ltac:(reflexivity) ltac:(intros; reflexivity)
    ltac:(intros a e d; by destruct (Hann a e d) as [line [-> | ->]])
    ltac:(reflexivity)
    ltac:(intros a e d; by destruct (Hann a e d) as [line [-> | ->]])
    (seq 1 max_retries) (last_seq_is_last is_last max_retries Hlast) d0 w)
    as (new & m & Htr & Hm & Hcalls & Hsleeps & Hne & Hnil).
  fold run in Htr, Hne, Hnil. rewrite length_seq in Hm.
  exists m. rewrite (new_events_app _ _ _ Htr).
  split; [done|]. split; [exact Hcalls|]. split; [done|]. split.
  - intros Hpos. apply Hne. destruct max_retries; [lia | done].
  - intros ->. by apply Hnil.
Qed.

End FetchShape.

(** Whatever the server answers, each fetcher makes at least one and at
    most [max_retries] requests, all to the same URL, sleeps exactly once
    between two requests, the n-th sleep lasting [2^(n-1)] seconds in
    link_scraper.py and [2 * 2^(n-1)] in main.py, and does not return
    [None]; only with [max_retries = 0] does it return [None], without any
    request. *)
Theorem fetchers_attempts_bounded_delays_doubled :
  forall (E : env) (url : string) (timeout : Z) (max_retries : nat) (w : world),
    let scraper := link_scraper.fetch_page_with_retries E url max_retries timeout w in
    let main_run := main.fetch_page_with_retries E url max_retries timeout w in
    (exists m,
       (m <= max_retries)%nat
       /\ gets (new_events w scraper.2) = replicate m url
       /\ sleeps (new_events w scraper.2) = map (fun i => 1 * 2 ^ Z.of_nat i) (seq 0 (m - 1))
       /\ ((0 < max_retries)%nat -> (1 <= m)%nat /\ scraper.1 <> Returns None)
       /\ (max_retries = O -> scraper = (Returns None, w)))
    /\ (exists m,
          (m <= max_retries)%nat
          /\ gets (new_events w main_run.2) = replicate m url
          /\ sleeps (new_events w main_run.2)
             = map (fun i => 2 * 2 ^ Z.of_nat i) (seq 0 (m - 1))
          /\ ((0 < max_retries)%nat -> (1 <= m)%nat /\ main_run.1 <> Returns None)
          /\ (max_retries = O -> main_run = (Returns None, w))).
Proof.
  intros E url timeout max_retries w scraper main_run. split.
  - subst scraper. unfold link_scraper.fetch_page_with_retries.
    rewrite scraper_fetch_loop_retry_loop.
    apply fetch_retry_loop_shape.
    + apply negb_true_iff, Nat.ltb_ge. lia.
    + intros a e d. eexists. right. reflexivity.
  - subst main_run. unfold main.fetch_page_with_retries.
    rewrite main_fetch_loop_retry_loop.
    apply fetch_retry_loop_shape.
    + apply Nat.eqb_refl.
    + intros a e d. eexists. left. reflexivity.
Qed.

(** The first successful request ends the loop: when the first [k]
    requests fail with instances of [RequestException] and request [k+1]
    (within the budget) is answered with a status below 400, each
    fetcher returns that response after exactly [k] sleeps with doubled
    delays and makes no further request. *)
Theorem fetchers_return_first_success :
  forall (E : env) (url : string) (timeout : Z) (max_retries : nat)
         (w : world) (errs : nat -> exn) (k : nat) (resp : http_response),
    (k < max_retries)%nat ->
    (forall j, (j < k)%nat ->
       checked_get_answer E (n_get w + j) url timeout = Raises (errs j)
       /\ is_RequestException (errs j) = true) ->
    checked_get_answer E (n_get w + k) url timeout = Returns resp ->
    let scraper := link_scraper.fetch_page_with_retries E url max_retries timeout w in
    let main_run := main.fetch_page_with_retries E url max_retries timeout w in
    (scraper.1 = Returns (Some resp)
     /\ trace scraper.2
        = trace w ++ backoff_trace (request_failed_line max_retries) (EGet url timeout)
                       errs 1 1 k ++ [EGet url timeout]
     /\ sleeps (new_events w scraper.2) = map (fun i => 1 * 2 ^ Z.of_nat i) (seq 0 k))
    /\ (main_run.1 = Returns (Some resp)
        /\ trace main_run.2
           = trace w ++ backoff_trace (request_error_line max_retries) (EGet url timeout)
                          errs 1 2 k ++ [EGet url timeout]
        /\ sleeps (new_events w main_run.2) = map (fun i => 2 * 2 ^ Z.of_nat i) (seq 0 k)).
Proof.
  intros E url timeout max_retries w errs k resp Hk Hprev Hcur scraper main_run.
  assert (Hgen : forall is_last announce d0,
    (forall a, (1 <= a < max_retries)%nat -> is_last a = false) ->
    (forall a e d, sleeps [announce a e d] = []) ->
    let run := retry_loop (get_checked E url timeout) is_RequestException is_last announce
                 (seq 1 max_retries) d0 w in
    run.1 = Returns (Some resp)
    /\ trace run.2 = trace w ++ backoff_trace announce (EGet url timeout) errs 1 d0 k
                     ++ [EGet url timeout]
    /\ sleeps (new_events w run.2) = map (fun i => d0 * 2 ^ Z.of_nat i) (seq 0 k)).
  { intros is_last announce d0 Hlast Hann run.
    destruct (retry_loop_success
      (get_checked E url timeout) is_RequestException is_last announce
      (fun n => checked_get_answer E n url timeout) n_get (EGet url timeout)
      (get_checked_spec E url timeout) ltac:(intros; reflexivity)
      k errs 1%nat max_retries d0 w resp Hk) as [Hres Htr].
    - intros j Hj. destruct (Hprev j Hj) as [H1 H2]. repeat split; try done.
      apply Hlast. lia.
    - done.
    - fold run in Hres, Htr. split; [done|]. split; [done|].
      rewrite (new_events_app _ _ _ Htr).
      unfold sleeps. rewrite omap_app. simpl. rewrite app_nil_r.
      by apply (sleeps_backoff_trace announce). }
  split.
  - subst scraper. unfold link_scraper.fetch_page_with_retries.
    rewrite scraper_fetch_loop_retry_loop. apply Hgen; [|done].
    intros a Ha. apply negb_false_iff, Nat.ltb_lt. lia.
  - subst main_run. unfold main.fetch_page_with_retries.
    rewrite main_fetch_loop_retry_loop. apply Hgen; [|done].
    intros a Ha. apply Nat.eqb_neq. lia.
Qed.

(** The theorem at two timeouts followed by a page: three requests,
    sleeps of 1 and 2 in link_scraper.py and of 2 and 4 in main.py. *)
Lemma fetchers_return_first_success_witness :
  let E := flaky_page_env 2 "page" in
  let url := "https://elibrary.judiciary.gov.ph/thebookshelf/docmonth/May/2021/1" in
  let scraper := link_scraper.fetch_page_with_retries E url 3 15 world0 in
  let main_run := main.fetch_page_with_retries E url 4 30 world0 in
  scraper.1 = Returns (Some (mk_http_response 200 "page" EmptyString))
  /\ sleeps (trace scraper.2) = [1; 2]
  /\ main_run.1 = Returns (Some (mk_http_response 200 "page" EmptyString))
  /\ sleeps (trace main_run.2) = [2; 4].
Proof.
  intros E url scraper main_run.
  destruct (fetchers_return_first_success E url 15 3%nat world0 (fun _ => read_timeout)
              2%nat (mk_http_response 200 "page" EmptyString))
    as [(Hres & _ & Hsleeps) _].
  { lia. }
  { intros j Hj. destruct j as [|[|j]]; [split; reflexivity | split; reflexivity | lia]. }
  { reflexivity. }
  destruct (fetchers_return_first_success E url 30 4%nat world0 (fun _ => read_timeout)
              2%nat (mk_http_response 200 "page" EmptyString))
    as [_ (Hres' & _ & Hsleeps')].
  { lia. }
  { intros j Hj. destruct j as [|[|j]]; [split; reflexivity | split; reflexivity | lia]. }
  { reflexivity. }
  fold scraper in Hres, Hsleeps. fold main_run in Hres', Hsleeps'. by repeat split.
Defined.

(** * The links file *)

Lemma lstrip_idem s : lstrip (lstrip s) = lstrip s.
Proof.
  induction s as [|c s IH]; [done|]. simpl.
  destruct (py_isspace c) eqn:Hc; [done|]. simpl. by rewrite Hc.
Qed.

Lemma rstrip_fixed_tail c s : rstrip (String c s) = String c s -> rstrip s = s.
Proof.
  simpl. destruct (rstrip s) as [|c' r] eqn:Hr.
  - destruct (py_isspace c); [done|]. by intros [= <-].
  - by intros [= <-].
Qed.

Lemma rstrip_idem s : rstrip (rstrip s) = rstrip s.
Proof.
  induction s as [|c s IH]; [done|]. simpl.
  destruct (rstrip s) as [|c' r] eqn:Hr.
  - destruct (py_isspace c) eqn:Hc; [done|]. simpl. by rewrite Hc.
  - change (rstrip (String c (String c' r))) with
      (match rstrip (String c' r) with
       | EmptyString => if py_isspace c then EmptyString else String c EmptyString
       | r0 => String c r0
       end).
    by rewrite IH.
Qed.

Lemma rstrip_lstrip_fixed s : rstrip s = s -> rstrip (lstrip s) = lstrip s.
Proof.
  induction s as [|c s IH]; [done|]. intros Hfix.
  change (lstrip (String c s)) with (if py_isspace c then lstrip s else String c s).
  destruct (py_isspace c); [|done].
  apply IH. by apply rstrip_fixed_tail with c.
Qed.

(** [strip] leaves a text that has no white space at either end. *)
Lemma strip_clean s : lstrip (strip s) = strip s /\ rstrip (strip s) = strip s.
Proof.
  unfold strip. split; [apply lstrip_idem|].
  apply rstrip_lstrip_fixed, rstrip_idem.
Qed.

Lemma strip_idem s : strip (strip s) = strip s.
Proof.
  destruct (strip_clean s) as [Hl Hr]. unfold strip at 1. by rewrite Hr, Hl.
Qed.

Lemma one_line_lstrip s : one_line s = true -> one_line (lstrip s) = true.
Proof.
  unfold one_line. induction s as [|c s IH]; [done|]. simpl.
  intros [Hc Hs]%andb_true_iff. destruct (py_isspace c); [by apply IH|].
  simpl. by rewrite Hc, Hs.
Qed.

Lemma one_line_rstrip s : one_line s = true -> one_line (rstrip s) = true.
Proof.
  unfold one_line. induction s as [|c s IH]; [done|]. simpl.
  intros [Hc Hs]%andb_true_iff. specialize (IH Hs).
  destruct (rstrip s) as [|c' r].
  - destruct (py_isspace c); [done|]. simpl. by rewrite Hc.
  - simpl in *. by rewrite Hc, IH.
Qed.

Lemma file_lines_nonempty s : file_lines s <> [].
Proof. destruct s as [|c s]; [done|]. simpl. by repeat case_match. Qed.

Lemma file_lines_one_line s : Forall (fun l => one_line l = true) (file_lines s).
Proof.
  induction s as [|c s IH]; [by repeat constructor|]. simpl.
  destruct (Ascii.eqb c (ascii_of_nat 10)) eqn:Hc.
  - by constructor.
  - destruct (file_lines s) as [|l ls]; [by repeat constructor; unfold one_line; simpl; rewrite Hc|].
    inversion IH as [|? ? Hl Hls]; subst. constructor; [|done].
    unfold one_line in *. simpl. by rewrite Hc, Hl.
Qed.

Lemma file_lines_line l rest :
  one_line l = true -> file_lines (l +:+ nl +:+ rest) = l :: file_lines rest.
Proof.
  unfold one_line. induction l as [|c l IH]; [done|]. simpl.
  intros [Hc Hl]%andb_true_iff. apply negb_true_iff in Hc.
  rewrite Hc. change (String (ascii_of_nat 10) rest) with (nl +:+ rest).
  by rewrite (IH Hl).
Qed.

Lemma file_lines_unlines ls :
  Forall (fun l => one_line l = true) ls ->
  file_lines (unlines ls) = ls ++ [EmptyString].
Proof.
  induction 1 as [|l ls Hl Hls IH]; [done|].
  change (unlines (l :: ls)) with (l +:+ nl +:+ unlines ls).
  by rewrite (file_lines_line _ _ Hl), IH.
Qed.

(** A links file that can be read is loaded silently, and every loaded
    link is a non-empty single line that [strip] leaves unchanged, so
    without white space at either end; the links are at most as many as
    the lines of the file.  An error of reading the file is not handled:
    it is raised to the caller, nothing having been printed. *)
Theorem load_links_yields_clean_lines :
  forall (E : env) (path : string) (w : world),
    path_exists E path = true ->
    match read_text E path with
    | Returns txt =>
        exists links,
          main.load_links E path w = (Returns links, w)
          /\ Forall (fun l => l <> EmptyString /\ strip l = l /\ one_line l = true) links
          /\ (length links <= length (file_lines txt))%nat
    | Raises e => main.load_links E path w = (Raises e, w)
    end.
Proof.
  intros E path w Hex. unfold main.load_links. rewrite Hex. simpl.
  unfold bind, lift. destruct (read_text E path) as [txt|e]; [|done].
  eexists. split; [reflexivity|]. split.
  - apply Forall_forall. intros l [Hne [line [-> Hline]]%list_elem_of_fmap]%list_elem_of_filter.
    split; [|split].
    + intros Heq. rewrite Heq in Hne. done.
    + apply strip_idem.
    + apply one_line_lstrip, one_line_rstrip.
      pose proof (file_lines_one_line txt) as Hall.
      rewrite Forall_forall in Hall. by apply Hall.
  - etransitivity; [apply length_filter|]. by rewrite length_map.
Qed.

Lemma load_links_yields_clean_lines_witness :
  let txt := "  https://a.example/1 " +:+ nl +:+ nl +:+ "https://b.example/2" in
  exists links,
    main.load_links (links_file_env txt) "links.txt" world0 = (Returns links, world0)
    /\ Forall (fun l => l <> EmptyString /\ strip l = l /\ one_line l = true) links
    /\ (length links <= length (file_lines txt))%nat.
Proof.
  intros txt.
  exact (load_links_yields_clean_lines (links_file_env txt) "links.txt" world0 eq_refl).
Defined.

(** Round trip: a file written with one link per line is loaded as the
    same list of links, when each link is a non-empty single line without
    white space at its ends. *)
Theorem load_links_reads_back_written_links :
  forall (E : env) (path : string) (links : list string) (w : world),
    path_exists E path = true ->
    read_text E path = Returns (unlines links) ->
    Forall (fun l => l <> EmptyString /\ strip l = l /\ one_line l = true) links ->
    main.load_links E path w = (Returns links, w).
Proof.
  intros E path links w Hex Hread Hclean. unfold main.load_links.
  rewrite Hex. simpl. unfold bind, lift. rewrite Hread. unfold ret. do 2 f_equal.
  rewrite file_lines_unlines; [|by eapply Forall_impl; [exact Hclean|]; intros l (_ & _ & H)].
  rewrite map_app, filter_app. simpl. rewrite app_nil_r.
  clear Hread. induction Hclean as [|l ls (Hne & Hstrip & _) Hls IH]; [done|].
  simpl. rewrite Hstrip. rewrite filter_cons.
  destruct (decide (negb (is_empty l))) as [_|Hn]; [by rewrite IH|].
  destruct l; [done|]. by destruct Hn.
Qed.

Lemma load_links_reads_back_witness :
  main.load_links (links_file_env (unlines ["https://a.example/1"; "https://b.example/2"]))
    "links.txt" world0
  = (Returns ["https://a.example/1"; "https://b.example/2"], world0).
Proof.
  apply (load_links_reads_back_written_links
    (links_file_env (unlines ["https://a.example/1"; "https://b.example/2"]))
    "links.txt" ["https://a.example/1"; "https://b.example/2"] world0 eq_refl eq_refl).
  repeat constructor; done.
Defined.

(** * More on link extraction *)

Lemma omap_length_le {A B} (f : A -> option B) (l : list A) :
  (length (omap f l) <= length l)%nat.
Proof.
  induction l as [|a l IH]; [done|].
  change (omap f (a :: l)) with
    (match f a with Some y => y :: omap f l | None => omap f l end).
  destruct (f a); simpl; lia.
Qed.

(** The ordered links after the URLs [cands] have been added, starting
    from a state whose set and list agree. *)
Lemma foldl_add_link_filter (keep : string -> bool) (cands : list string) :
  forall st1 st2 : gset string * list string,
    (forall u, u ∈ st1.1 <-> u ∈ st1.2) ->
    (forall u, u ∈ st2.1 <-> u ∈ st2.2) ->
    st1.2 = filter (fun u => keep u) st2.2 ->
    (foldl link_scraper.add_link st1 (filter (fun u => keep u) cands)).2
    = filter (fun u => keep u) (foldl link_scraper.add_link st2 cands).2.
Proof.
  induction cands as [|x cands IH]; intros [s1 o1] [s2 o2] H1 H2 Hrel; [done|].
  simpl in H1, H2, Hrel. rewrite filter_cons.
  change (foldl link_scraper.add_link (s2, o2) (x :: cands))
    with (foldl link_scraper.add_link (link_scraper.add_link (s2, o2) x) cands).
  assert (Hadd2 : forall u, u ∈ (link_scraper.add_link (s2, o2) x).1
                            <-> u ∈ (link_scraper.add_link (s2, o2) x).2).
  { intros u. unfold link_scraper.add_link. case_bool_decide; simpl; [|apply H2].
    rewrite elem_of_union, elem_of_singleton, elem_of_app, list_elem_of_singleton, H2.
    tauto. }
  destruct (decide (keep x)) as [Hk|Hk].
  - change (foldl link_scraper.add_link (s1, o1) (x :: filter (fun u => keep u) cands))
      with (foldl link_scraper.add_link (link_scraper.add_link (s1, o1) x)
              (filter (fun u => keep u) cands)).
    apply IH; [|exact Hadd2|].
    + intros u. unfold link_scraper.add_link. case_bool_decide; simpl; [|apply H1].
      rewrite elem_of_union, elem_of_singleton, elem_of_app, list_elem_of_singleton, H1.
      tauto.
    + assert (Hsame : x ∈ s1 <-> x ∈ s2).
      { rewrite H1, H2, Hrel, list_elem_of_filter. tauto. }
      unfold link_scraper.add_link. do 2 case_bool_decide; simpl; try tauto.
      rewrite filter_app, filter_cons. destruct (decide (keep x)); [|done].
      by rewrite Hrel.
  - apply IH; [exact H1 | exact Hadd2 |].
    unfold link_scraper.add_link. case_bool_decide; simpl; [|done].
    rewrite filter_app, filter_cons. destruct (decide (keep x)); [done|].
    by rewrite filter_nil, app_nil_r.
Qed.

Section ExtractLinksFacts.
Variable soup_hrefs : string -> list string.
Variable urljoin : string -> string -> string.
Variable urlparse : string -> urllib_parse.ParseResult.
Variable re_search_ignorecase : string -> string -> bool.

Local Abbreviation accepted_url :=
  (link_scraper.accepted_url urljoin urlparse re_search_ignorecase).
Local Abbreviation extract_links :=
  (link_scraper.extract_links soup_hrefs urljoin urlparse re_search_ignorecase).

Lemma accepted_url_filtered base_url pattern raw :
  pattern <> EmptyString ->
  accepted_url base_url (Some pattern) raw
  = match accepted_url base_url None raw with
    | Some u => if re_search_ignorecase pattern u then Some u else None
    | None => None
    end.
Proof.
  intros Hp. unfold link_scraper.accepted_url.
  destruct (_ || _ || _); [done|]. destruct (_ || _); [done|].
  destruct pattern as [|c p]; [done|]. simpl.
  by destruct (re_search_ignorecase _ _).
Qed.

Lemma omap_accepted_filtered base_url pattern (hrefs : list string) :
  pattern <> EmptyString ->
  omap (accepted_url base_url (Some pattern)) hrefs
  = filter (fun u => re_search_ignorecase pattern u)
           (omap (accepted_url base_url None) hrefs).
Proof.
  intros Hp. induction hrefs as [|h hrefs IH]; [done|].
  change (omap ?f (h :: hrefs)) with
    (match f h with Some y => y :: omap f hrefs | None => omap f hrefs end).
  rewrite (accepted_url_filtered _ _ _ Hp), IH.
  destruct (accepted_url base_url None h) as [u|]; [|done].
  rewrite filter_cons. destruct (re_search_ignorecase pattern u); by case_decide.
Qed.

Lemma accepted_url_no_filter base_url raw :
  accepted_url base_url (Some EmptyString) raw = accepted_url base_url None raw.
Proof. reflexivity. Qed.

End ExtractLinksFacts.

(** Filtering inside the loop is the same as filtering afterwards: the
    links extracted with a non-empty pattern are those of the links
    extracted without a pattern that the pattern matches, in the same
    order.  An empty pattern is no filter at all. *)
Theorem extract_links_filter_commutes :
  forall (soup_hrefs : string -> list string)
         (urljoin : string -> string -> string)
         (urlparse : string -> urllib_parse.ParseResult)
         (re_search_ignorecase : string -> string -> bool)
         (url content pattern : string),
    let extract :=
      link_scraper.extract_links soup_hrefs urljoin urlparse re_search_ignorecase
        url content in
    extract (Some pattern)
    = if is_empty pattern then extract None
      else filter (fun u => re_search_ignorecase pattern u) (extract None).
Proof.
  intros soup_hrefs urljoin urlparse re_search url content pattern extract.
  subst extract. unfold link_scraper.extract_links.
  destruct pattern as [|c p]; [done|].
  cbn [is_empty]. rewrite !foldl_visit_candidates.
  rewrite omap_accepted_filtered by done.
  apply (foldl_add_link_filter (re_search (String c p))); simpl; [| |done].
  - intros u. by rewrite elem_of_empty, elem_of_nil.
  - intros u. by rewrite elem_of_empty, elem_of_nil.
Qed.

(** Every extracted link is the absolute URL of a hyperlink of the page
    whose stripped [href] is neither empty nor a fragment; it has a scheme
    and a network location, and a non-empty pattern finds a match in it.
    Conversely the absolute URL of every such hyperlink is among the
    links.  There are at most as many links as hyperlinks. *)
Theorem extract_links_keeps_valid_matching_urls :
  forall (soup_hrefs : string -> list string)
         (urljoin : string -> string -> string)
         (urlparse : string -> urllib_parse.ParseResult)
         (re_search_ignorecase : string -> string -> bool)
         (url content : string) (filter_regex : option string),
    let links :=
      link_scraper.extract_links soup_hrefs urljoin urlparse re_search_ignorecase
        url content filter_regex in
    (forall u,
       u ∈ links <->
       exists raw,
         raw ∈ soup_hrefs content
         /\ strip raw <> EmptyString
         /\ startswith_hash (strip raw) = false
         /\ u = urljoin (rstrip_slash url +:+ "/") (strip raw)
         /\ urllib_parse.scheme (urlparse u) <> EmptyString
         /\ urllib_parse.netloc (urlparse u) <> EmptyString
         /\ (forall pattern, filter_regex = Some pattern -> pattern <> EmptyString ->
               re_search_ignorecase pattern u = true))
    /\ (length links <= length (soup_hrefs content))%nat.
Proof.
  intros soup_hrefs urljoin urlparse re_search url content filter_regex links.
  subst links. unfold link_scraper.extract_links. rewrite foldl_visit_candidates.
  set (cands := omap _ _).
  destruct (foldl_add_link_invariant cands) as (_ & Hnd & Hsame & _).
  split.
  - intros u. rewrite Hsame. subst cands. rewrite list_elem_of_omap.
    split.
    + intros (raw & Hin & Hacc). exists raw. split; [done|].
      unfold link_scraper.accepted_url, link_scraper.absolute_url in Hacc.
      destruct (strip raw) as [|c0 s0] eqn:Hs; [done|].
      cbn [is_empty orb] in Hacc.
      destruct (startswith_hash (String c0 s0)) eqn:Hh; [done|].
      cbn [orb] in Hacc.
      destruct (is_empty (urllib_parse.scheme _)) eqn:Hsch; [done|].
      destruct (is_empty (urllib_parse.netloc _)) eqn:Hnl; [done|].
      cbn [orb] in Hacc.
      destruct filter_regex as [[|c p]|].
      * injection Hacc as <-. repeat split; try done.
        -- by destruct (urllib_parse.scheme _).
        -- by destruct (urllib_parse.netloc _).
        -- by intros pattern [= <-].
      * destruct (re_search (String c p) _) eqn:Hre; [|done].
        injection Hacc as <-. repeat split; try done.
        -- by destruct (urllib_parse.scheme _).
        -- by destruct (urllib_parse.netloc _).
        -- by intros pattern [= <-].
      * injection Hacc as <-. repeat split; try done.
        -- by destruct (urllib_parse.scheme _).
        -- by destruct (urllib_parse.netloc _).
    + intros (raw & Hin & Hne & Hh & Hu & Hsch & Hnl & Hre). exists raw. split; [done|].
      unfold link_scraper.accepted_url, link_scraper.absolute_url.
      destruct (strip raw) as [|c0 s0] eqn:Hs; [done|].
      cbn [is_empty orb]. rewrite Hh. cbn [orb]. rewrite <- Hu.
      destruct (urllib_parse.scheme (urlparse u)); [done|].
      destruct (urllib_parse.netloc (urlparse u)); [done|].
      cbn [is_empty orb].
      destruct filter_regex as [[|c p]|]; [done| |done].
      by rewrite (Hre (String c p) eq_refl).
  - transitivity (length cands).
    + apply submseteq_length, NoDup_submseteq; [done|]. intros u. by rewrite Hsame.
    + subst cands. apply omap_length_le.
Qed.

(** * The command line of link_scraper.py *)

Lemma emits_scraper_fetch_loop E url timeout max_retries attempts :
  forall delay, emits scraper_fetch_event
                  (link_scraper.fetch_page_loop E url timeout max_retries attempts delay).
Proof.
  induction attempts as [|a rest IH]; intros delay; simpl; [apply emits_ret|].
  apply emits_bind.
  { apply emits_try. unfold get_checked.
    apply emits_bind; [by apply emits_do_requests_get|].
    intros resp. apply emits_bind; [|intros; apply emits_ret].
    unfold raise_for_status. destruct (_ && _); [apply emits_raise | apply emits_ret]. }
  intros [resp|e]; [apply emits_ret|].
  destruct (is_RequestException e); [|apply emits_raise].
  destruct (a <? max_retries)%nat; [|apply emits_raise].
  apply emits_bind; [by apply emits_emit|]. intros _.
  apply emits_bind; [by apply emits_emit|]. intros _. apply IH.
Qed.

Lemma stdout_app tr1 tr2 : stdout (tr1 ++ tr2) = stdout tr1 ++ stdout tr2.
Proof. apply omap_app. Qed.

Lemma gets_app tr1 tr2 : gets (tr1 ++ tr2) = gets tr1 ++ gets tr2.
Proof. apply omap_app. Qed.

Lemma scraper_fetch_event_quiet new :
  Forall scraper_fetch_event new -> stdout new = [] /\ written_files new = [].
Proof.
  induction 1 as [|ev new Hev _ [IH1 IH2]]; [done|].
  destruct ev; try done.
Qed.

(** The fetch of [main]: one to three requests to the URL, nothing on
    standard output, no file, and a response unless an exception is
    raised. *)
Lemma scraper_fetch_spec E url timeout w :
  let run := link_scraper.fetch_page_with_retries E url 3 timeout w in
  exists new m,
    trace run.2 = trace w ++ new
    /\ (1 <= m <= 3)%nat
    /\ gets new = replicate m url
    /\ stdout new = [] /\ written_files new = []
    /\ run.1 <> Returns None.
Proof.
  intros run.
  destruct (emits_scraper_fetch_loop E url timeout 3 (seq 1 3) 1 w) as (new & Htr & Hnew).
  fold (link_scraper.fetch_page_with_retries E url 3 timeout) in Htr. fold run in Htr.
  destruct (fetch_retry_loop_shape E url timeout 3
              (fun a => negb (a <? 3)%nat) (request_failed_line 3) 1 w eq_refl)
    as (m & Hm & Hgets & _ & Hpos & _).
  { intros a e d. eexists. right. reflexivity. }
  rewrite <- scraper_fetch_loop_retry_loop in Hgets, Hpos.
  fold (link_scraper.fetch_page_with_retries E url 3 timeout) in Hgets, Hpos.
  fold run in Hgets, Hpos. rewrite (new_events_app _ _ _ Htr) in Hgets.
  destruct (Hpos ltac:(lia)) as [Hm1 Hnone].
  destruct (scraper_fetch_event_quiet new Hnew) as [Hout Hfiles].
  exists new, m. repeat split; try done; lia.
Qed.

Lemma print_links_spec links : forall w,
  link_scraper.print_links links w
  = (Returns tt, mk_world (trace w ++ map EPrint links) (n_get w) (n_generate w)).
Proof.
  induction links as [|l links IH]; intros w.
  - simpl. unfold ret. rewrite app_nil_r. by destruct w.
  - simpl. unfold bind, print, emit. rewrite IH. simpl. by rewrite <- app_assoc.
Qed.

Lemma stdout_map_EPrint links : stdout (map EPrint links) = links.
Proof. induction links as [|l links IH]; [done|]. simpl. by f_equal. Qed.

Lemma gets_map_EPrint links : gets (map EPrint links) = [].
Proof. by induction links. Qed.

Lemma written_files_map_EPrint links : written_files (map EPrint links) = [].
Proof. by induction links. Qed.

Lemma bind_emit_run {B} ev (k : unit -> M B) w :
  bind (emit ev) k w = k tt (mk_world (trace w ++ [ev]) (n_get w) (n_generate w)).
Proof. reflexivity. Qed.

Lemma bind_ret_run {A B} (a : A) (k : A -> M B) w : bind (ret a) k w = k a w.
Proof. reflexivity. Qed.

Lemma bind_assoc_run {A B C} (m : M A) (f : A -> M B) (k : B -> M C) w :
  bind (bind m f) k w = bind m (fun a => bind (f a) k) w.
Proof. unfold bind. by destruct (m w) as [[a|e] w']. Qed.

Lemma bind_try_run {A B} (m : M A) (k : outcome A -> M B) w :
  bind (try_ m) k w = k (m w).1 (m w).2.
Proof. unfold bind, try_. by destruct (m w). Qed.

Lemma bind_run {A B} (m : M A) (k : A -> M B) w :
  bind m k w = match (m w).1 with
               | Returns a => k a (m w).2
               | Raises e => (Raises e, (m w).2)
               end.
Proof. unfold bind. by destruct (m w) as [[a|e] w']. Qed.

Lemma bind_lift_run {A B} (r : outcome A) (k : A -> M B) w :
  bind (lift r) k w = match r with Returns a => k a w | Raises e => (Raises e, w) end.
Proof. by destruct r. Qed.

(** The lines of 141-144 on standard error. *)
Lemma scraper_announce_run {B} args url (k : unit -> M B) w :
  bind (print_err ("Fetching links from: " +:+ url))
       (fun _ => bind (match link_scraper.filter_pattern_of args with
                       | Some (String c p) => print_err ("Filter pattern: " +:+ String c p)
                       | _ => ret tt
                       end) k)
       (mk_world (trace w ++ [EPrint url_prompt; EInput "Enter URL to scrape: "])
                 (n_get w) (n_generate w))
  = k tt (mk_world (trace w ++ scraper_preamble args url) (n_get w) (n_generate w)).
Proof.
  unfold print_err, scraper_preamble. rewrite bind_emit_run. cbn [trace n_get n_generate].
  assert (Hdefault : link_scraper.filter_pattern_of args <> Some EmptyString).
  { unfold link_scraper.filter_pattern_of.
    destruct (arg_filter args) as [[|c p]|]; destruct (arg_all args); done. }
  destruct (link_scraper.filter_pattern_of args) as [[|c p]|]; [done| |].
  - rewrite bind_emit_run. cbn [trace n_get n_generate]. by rewrite <- !app_assoc.
  - rewrite bind_ret_run. rewrite app_nil_r. by rewrite <- !app_assoc.
Qed.

Lemma scraper_preamble_quiet args url :
  stdout (scraper_preamble args url) = [url_prompt]
  /\ gets (scraper_preamble args url) = []
  /\ written_files (scraper_preamble args url) = [].
Proof.
  unfold scraper_preamble. by destruct (link_scraper.filter_pattern_of args).
Qed.

(** ** The extraction as [main] calls it *)

Section ExtractionReturns.
Variable urljoin : string -> string -> outcome string.
Variable urlparse : string -> outcome urllib_parse.ParseResult.
Variable re_search_ignorecase : string -> string -> outcome bool.

Local Abbreviation urljoin_value := (fun base url => returned EmptyString (urljoin base url)).
Local Abbreviation urlparse_value := (fun url => returned no_parse (urlparse url)).
Local Abbreviation re_search_value :=
  (fun pattern s => returned false (re_search_ignorecase pattern s)).

(** A tag at which no call raises is treated as by [extract_links] on
    the values of the calls. *)
Lemma accepted_url_or_raise_returns base_url filter_regex raw_href o :
  link_scraper.accepted_url_or_raise urljoin urlparse re_search_ignorecase
    base_url filter_regex raw_href = Returns o ->
  o = link_scraper.accepted_url urljoin_value urlparse_value re_search_value
        base_url filter_regex raw_href.
Proof.
  unfold link_scraper.accepted_url_or_raise, link_scraper.accepted_url,
    link_scraper.absolute_url.
  destruct (_ || _ || _); [by intros [= <-]|].
  destruct (urljoin _ _) as [abs_url|e]; [|done]. cbn [returned].
  destruct (urlparse abs_url) as [parsed|e]; [|done]. cbn [returned].
  destruct (_ || _); [by intros [= <-]|].
  destruct filter_regex as [[|c p]|]; [by intros [= <-]| |by intros [= <-]].
  destruct (re_search_ignorecase _ _) as [found|e]; [|done]. cbn [returned].
  intros [= <-]. by destruct found.
Qed.

Lemma visit_or_raise_returns base_url filter_regex hrefs : forall st st',
  link_scraper.visit_or_raise urljoin urlparse re_search_ignorecase
    base_url filter_regex st hrefs = Returns st' ->
  st' = foldl (link_scraper.visit urljoin_value urlparse_value re_search_value
                 base_url filter_regex) st hrefs.
Proof.
  induction hrefs as [|raw hrefs IH]; intros st st'; [by intros [= <-]|].
  cbn [link_scraper.visit_or_raise foldl]. unfold link_scraper.visit at 2.
  destruct (link_scraper.accepted_url_or_raise _ _ _ _ _ raw) as [o|e] eqn:Htag; [|done].
  rewrite <- (accepted_url_or_raise_returns _ _ _ _ Htag).
  destruct o as [abs_url|]; apply IH.
Qed.

(** When the extraction returns, its links are those of [extract_links]
    on the values of the library calls. *)
Lemma extract_links_or_raise_returns soup_hrefs url content filter_regex links :
  link_scraper.extract_links_or_raise soup_hrefs urljoin urlparse re_search_ignorecase
    url content filter_regex = Returns links ->
  links = link_scraper.extract_links soup_hrefs urljoin_value urlparse_value
            re_search_value url content filter_regex.
Proof.
  unfold link_scraper.extract_links_or_raise, link_scraper.extract_links.
  destruct (link_scraper.visit_or_raise _ _ _ _ _ _ _) as [st|e] eqn:Hloop; [|done].
  intros [= <-]. by rewrite (visit_or_raise_returns _ _ _ _ _ Hloop).
Qed.

End ExtractionReturns.

(** [main] on a non-empty URL, in terms of what the fetch and the
    extraction do. *)
Lemma scraper_main_after_fetch E soup_hrefs urljoin urlparse re_search args w :
  let url := strip (input_line E) in
  let w4 := mk_world (trace w ++ scraper_preamble args url) (n_get w) (n_generate w) in
  let fetched := link_scraper.fetch_page_with_retries E url 3 (arg_timeout args) w4 in
  let ending :=
    match fetched.1 with
    | Returns (Some response) =>
        match link_scraper.extract_links_or_raise soup_hrefs urljoin urlparse re_search
                url (content response) (link_scraper.filter_pattern_of args) with
        | Returns links => (Returned, scraper_report links)
        | Raises e => (Exited 1, [scraper_failure_line e])
        end
    | Returns None => (Exited 1, [scraper_failure_line (none_has_no_attribute "content")])
    | Raises e => (Exited 1, [scraper_failure_line e])
    end in
  url <> EmptyString ->
  link_scraper.main E soup_hrefs urljoin urlparse re_search args w
  = (Returns ending.1,
     mk_world (trace fetched.2 ++ ending.2) (n_get fetched.2) (n_generate fetched.2)).
Proof.
  intros url w4 fetched ending Hurl. subst ending fetched w4 url.
  unfold link_scraper.main, main.input. fold url_prompt.
  unfold print at 1.
  rewrite bind_emit_run, bind_assoc_run, bind_emit_run, bind_ret_run.
  revert Hurl. generalize (strip (input_line E)). intros url Hurl.
  cbn [trace n_get n_generate]. rewrite <- app_assoc. cbn [app].
  destruct (is_empty url) eqn:Hempty; [by destruct url|].
  rewrite bind_try_run, scraper_announce_run.
  set (w4 := mk_world _ _ _). rewrite bind_run.
  destruct (link_scraper.fetch_page_with_retries E url 3 (arg_timeout args) w4)
    as [[[response|]|e] w5]; cbn [fst snd].
  - rewrite !bind_lift_run.
    destruct (link_scraper.extract_links_or_raise _ _ _ _ _ _ _) as [links|e];
      cbn [fst snd].
    + unfold print_err. rewrite bind_emit_run, bind_emit_run, print_links_spec.
      cbn [fst snd trace n_get n_generate]. unfold ret, scraper_report.
      by rewrite <- !app_assoc.
    + unfold scraper_failure_line. by destruct (is_RequestException e).
  - reflexivity.
  - unfold scraper_failure_line. by destruct (is_RequestException e).
Qed.

(** Once the URL has been read at the prompt, [main] always ends in an
    orderly way: it never lets an exception escape.  It makes at most
    three requests, all to the stripped input, and none when that input is
    empty; it writes no file.  Standard output carries the prompt and then
    either all the links extracted from the response, when [main] returns,
    or nothing more, when it exits; the exit status is then 1.  [main]
    returns only when the extraction returned, and the links are then
    those of [extract_links] on the values of the library calls. *)
Theorem scraper_main_prints_links_or_exits_1 :
  forall (E : env) (soup_hrefs : string -> list string)
         (urljoin : string -> string -> outcome string)
         (urlparse : string -> outcome urllib_parse.ParseResult)
         (re_search_ignorecase : string -> string -> outcome bool)
         (args : cli_args) (w : world),
    let run :=
      link_scraper.main E soup_hrefs urljoin urlparse re_search_ignorecase args w in
    let new := new_events w run.2 in
    let url := strip (input_line E) in
    exists t m,
      run.1 = Returns t
      /\ (m <= 3)%nat
      /\ gets new = replicate m url
      /\ (m = O <-> url = EmptyString)
      /\ written_files new = []
      /\ match t with
         | Returned =>
             exists response links,
               link_scraper.extract_links_or_raise soup_hrefs urljoin urlparse
                 re_search_ignorecase url (content response)
                 (link_scraper.filter_pattern_of args)
               = Returns links
               /\ links
                  = link_scraper.extract_links soup_hrefs
                      (fun base href => returned EmptyString (urljoin base href))
                      (fun u => returned no_parse (urlparse u))
                      (fun pattern s => returned false (re_search_ignorecase pattern s))
                      url (content response) (link_scraper.filter_pattern_of args)
               /\ stdout new = url_prompt :: links
         | Exited code => code = 1 /\ stdout new = [url_prompt]
         end.
Proof.
  intros E soup_hrefs urljoin urlparse re_search args w run new url.
  destruct (is_empty url) eqn:Hempty.
  { assert (Hurl : url = EmptyString) by by destruct url.
    assert (Hrun : run
      = (Returns (Exited 1),
         mk_world (trace w ++ [EPrint url_prompt; EInput "Enter URL to scrape: ";
                               EPrintErr "No URL provided. Exiting."])
           (n_get w) (n_generate w))).
    { subst run. unfold link_scraper.main, main.input. fold url_prompt.
      unfold print at 1.
      rewrite bind_emit_run, bind_assoc_run, bind_emit_run, bind_ret_run.
      fold url. rewrite Hempty. unfold print_err. rewrite bind_emit_run.
      unfold ret. cbn [trace n_get n_generate]. by rewrite <- ?app_assoc. }
    subst new. rewrite Hrun. cbn [fst snd].
    exists (Exited 1), O.
    rewrite (new_events_app w _
               [EPrint url_prompt; EInput "Enter URL to scrape: ";
                EPrintErr "No URL provided. Exiting."])
      by (cbn [trace]; rewrite <- ?app_assoc; reflexivity).
    split; [done|]. split; [lia|]. by repeat split. }
  assert (Hurl : url <> EmptyString) by (intros H; by rewrite H in Hempty).
  subst new run.
  rewrite (scraper_main_after_fetch E soup_hrefs urljoin urlparse re_search args w)
    by exact Hurl.
  fold url. set (w4 := mk_world _ _ _).
  destruct (scraper_preamble_quiet args url) as (Hpre_out & Hpre_get & Hpre_files).
  destruct (scraper_fetch_spec E url (arg_timeout args) w4)
    as (fetched & m & Htr & Hm & Hgets & Hout & Hfiles & Hnone).
  cbv zeta in Htr, Hnone.
  assert (Hfail : forall e,
    let ending := [scraper_failure_line e] in
    gets (scraper_preamble args url ++ fetched ++ ending) = replicate m url
    /\ written_files (scraper_preamble args url ++ fetched ++ ending) = []
    /\ stdout (scraper_preamble args url ++ fetched ++ ending) = [url_prompt]).
  { intros e ending. subst ending.
    rewrite !gets_app, !written_files_app, !stdout_app,
      Hpre_get, Hpre_files, Hpre_out, Hgets, Hfiles, Hout.
    cbn. by rewrite app_nil_r. }
  destruct (link_scraper.fetch_page_with_retries E url 3 (arg_timeout args) w4)
    as [[[response|]|e] w5]; cbn [fst snd] in *; [| done |].
  - destruct (link_scraper.extract_links_or_raise _ _ _ _ _ _ _) as [links|e] eqn:Hlinks;
      cbn [fst snd].
    + exists Returned, m.
      rewrite (new_events_app w _ (scraper_preamble args url ++ fetched
                                   ++ scraper_report links)).
      2:{ cbn [trace]. rewrite Htr. subst w4. cbn [trace].
          by rewrite <- ?app_assoc. }
      unfold scraper_report.
      split; [done|]. split; [lia|]. split.
      { rewrite !gets_app, Hpre_get, Hgets, gets_map_EPrint. simpl.
        by rewrite app_nil_r. }
      split; [split; [lia | done]|]. split.
      { rewrite !written_files_app, Hpre_files, Hfiles, written_files_map_EPrint.
        reflexivity. }
      exists response, links. split; [done|].
      split; [by apply extract_links_or_raise_returns|].
      rewrite !stdout_app, Hpre_out, Hout, stdout_map_EPrint. reflexivity.
    + exists (Exited 1), m.
      rewrite (new_events_app w _ (scraper_preamble args url ++ fetched
                                   ++ [scraper_failure_line e])).
      2:{ cbn [trace]. rewrite Htr. subst w4. cbn [trace].
          by rewrite <- ?app_assoc. }
      destruct (Hfail e) as (H1 & H2 & H3).
      split; [done|]. split; [lia|]. split; [done|].
      split; [split; [lia | done]|]. by repeat split.
  - exists (Exited 1), m.
    rewrite (new_events_app w _ (scraper_preamble args url ++ fetched
                                 ++ [scraper_failure_line e])).
    2:{ cbn [trace]. rewrite Htr. subst w4. cbn [trace].
        by rewrite <- ?app_assoc. }
    destruct (Hfail e) as (H1 & H2 & H3).
    split; [done|]. split; [lia|]. split; [done|].
    split; [split; [lia | done]|]. by repeat split.
Qed.

(** After the first good response: when the URL typed is not blank, the
    first [k] requests (at most two) fail with instances of
    [RequestException] and the next one is answered with a status below
    400, what [main] does depends on the extraction of the links from
    that response.  If the extraction returns, [main] returns normally;
    after the preamble come the [k] failed requests, each with its
    message and sleep, the successful request, the count of links on
    standard error and the links on standard output, and nothing else.
    If a library call of the extraction raises, as [urljoin] does on an
    href with an unclosed bracket, [main] exits with status 1 after one
    line on standard error that reports the exception, and prints no
    link. *)
Theorem scraper_main_after_first_good_response :
  forall (E : env) (soup_hrefs : string -> list string)
         (urljoin : string -> string -> outcome string)
         (urlparse : string -> outcome urllib_parse.ParseResult)
         (re_search_ignorecase : string -> string -> outcome bool)
         (args : cli_args) (w : world)
         (errs : nat -> exn) (k : nat) (response : http_response),
    let url := strip (input_line E) in
    let timeout := arg_timeout args in
    url <> EmptyString ->
    (k < 3)%nat ->
    (forall j, (j < k)%nat ->
       checked_get_answer E (n_get w + j) url timeout = Raises (errs j)
       /\ is_RequestException (errs j) = true) ->
    checked_get_answer E (n_get w + k) url timeout = Returns response ->
    let run :=
      link_scraper.main E soup_hrefs urljoin urlparse re_search_ignorecase args w in
    let fetched :=
      trace w ++ scraper_preamble args url
      ++ backoff_trace (request_failed_line 3) (EGet url timeout) errs 1 1 k
      ++ [EGet url timeout] in
    match link_scraper.extract_links_or_raise soup_hrefs urljoin urlparse
            re_search_ignorecase url (content response)
            (link_scraper.filter_pattern_of args) with
    | Returns links =>
        run.1 = Returns Returned /\ trace run.2 = fetched ++ scraper_report links
    | Raises e =>
        run.1 = Returns (Exited 1) /\ trace run.2 = fetched ++ [scraper_failure_line e]
    end.
Proof.
  intros E soup_hrefs urljoin urlparse re_search args w errs k response url timeout
         Hurl Hk Hprev Hcur run fetched.
  subst run. rewrite (scraper_main_after_fetch E soup_hrefs urljoin urlparse re_search args w)
    by exact Hurl.
  fold url timeout. set (w4 := mk_world _ _ _).
  unfold link_scraper.fetch_page_with_retries. rewrite scraper_fetch_loop_retry_loop.
  destruct (retry_loop_success
    (get_checked E url timeout) is_RequestException (fun a => negb (a <? 3)%nat)
    (request_failed_line 3)
    (fun n => checked_get_answer E n url timeout) n_get (EGet url timeout)
    (get_checked_spec E url timeout) ltac:(intros; reflexivity)
    k errs 1%nat 3%nat 1 w4 response Hk) as [Hres Htr].
  - intros j Hj. destruct (Hprev j Hj) as [H1 H2]. repeat split; try done.
    apply negb_false_iff, Nat.ltb_lt. lia.
  - done.
  - rewrite Hres.
    destruct (link_scraper.extract_links_or_raise _ _ _ _ _ _ _) as [links|e];
      cbn [fst snd trace]; (split; [done|]);
      rewrite Htr; subst w4 fetched; cbn [trace]; by rewrite <- ?app_assoc.
Qed.

(** A run that gives up: when the URL typed is not blank, the first [k]
    requests fail with instances of [RequestException] and the next one
    raises [e], which is either no [RequestException] or raised by the
    third request, [main] exits with status 1; the failed request is
    followed by one line on standard error, [Error fetching page] for a
    [RequestException] and [Unexpected error] otherwise, and by nothing
    else: no link is printed. *)
Theorem scraper_main_reports_fetch_failure :
  forall (E : env) (soup_hrefs : string -> list string)
         (urljoin : string -> string -> outcome string)
         (urlparse : string -> outcome urllib_parse.ParseResult)
         (re_search_ignorecase : string -> string -> outcome bool)
         (args : cli_args) (w : world)
         (errs : nat -> exn) (k : nat) (e : exn),
    let url := strip (input_line E) in
    let timeout := arg_timeout args in
    url <> EmptyString ->
    (k < 3)%nat ->
    (forall j, (j < k)%nat ->
       checked_get_answer E (n_get w + j) url timeout = Raises (errs j)
       /\ is_RequestException (errs j) = true) ->
    checked_get_answer E (n_get w + k) url timeout = Raises e ->
    is_RequestException e = false \/ k = 2%nat ->
    let run :=
      link_scraper.main E soup_hrefs urljoin urlparse re_search_ignorecase args w in
    run.1 = Returns (Exited 1)
    /\ trace run.2
       = trace w ++ scraper_preamble args url
         ++ backoff_trace (request_failed_line 3) (EGet url timeout) errs 1 1 k
         ++ [EGet url timeout; scraper_failure_line e].
Proof.
  intros E soup_hrefs urljoin urlparse re_search args w errs k e url timeout
         Hurl Hk Hprev Hcur Hstop run.
  subst run. rewrite (scraper_main_after_fetch E soup_hrefs urljoin urlparse re_search args w)
    by exact Hurl.
  fold url timeout. set (w4 := mk_world _ _ _).
  unfold link_scraper.fetch_page_with_retries. rewrite scraper_fetch_loop_retry_loop.
  destruct (retry_loop_failed_attempt
    (get_checked E url timeout) is_RequestException (fun a => negb (a <? 3)%nat)
    (request_failed_line 3)
    (fun n => checked_get_answer E n url timeout) n_get (EGet url timeout)
    (get_checked_spec E url timeout) ltac:(intros; reflexivity)
    k errs 1%nat 3%nat 1 w4 e Hk) as [_ Hfail].
  - intros j Hj. destruct (Hprev j Hj) as [H1 H2]. repeat split; try done.
    apply negb_false_iff, Nat.ltb_lt. lia.
  - done.
  - destruct Hfail as [Hres Htr].
    { destruct Hstop as [-> | ->]; [done|]. apply andb_false_r. }
    rewrite Hres. cbn [fst snd trace]. split; [done|].
    rewrite Htr. subst w4. cbn [trace]. by rewrite <- ?app_assoc.
Qed.

(** The theorem at a server that times out twice.  On a page whose
    hyperlinks resolve, the two links are printed, in document order,
    after sleeps of 1 and 2 seconds.  On a page with the hyperlink
    [http://[bad] the extraction raises: nothing but the prompt is on
    standard output, and the run exits after reporting the error. *)
Lemma scraper_main_after_first_good_response_witness :
  let search := fun pattern s => Returns (search_showdocs pattern s) in
  let run :=
    link_scraper.main (scraper_env 2) page_hrefs urljoin_or_raise urlparse_or_raise
      search (mk_cli_args false None 15) world0 in
  let bad :=
    link_scraper.main (scraper_env 2) bad_page_hrefs urljoin_or_raise urlparse_or_raise
      search (mk_cli_args false None 15) world0 in
  (run.1 = Returns Returned
   /\ stdout (trace run.2)
      = [url_prompt; month_url +:+ "/showdocs/1/100"; month_url +:+ "/showdocs/1/200"]
   /\ sleeps (trace run.2) = [1; 2])
  /\ (bad.1 = Returns (Exited 1)
      /\ stdout (trace bad.2) = [url_prompt]
      /\ last (stderr (trace bad.2)) = Some "Unexpected error: Invalid IPv6 URL").
Proof.
  intros search run bad.
  pose proof (scraper_main_after_first_good_response
                (scraper_env 2) page_hrefs urljoin_or_raise urlparse_or_raise search
                (mk_cli_args false None 15) world0 (fun _ => read_timeout) 2%nat
                (mk_http_response 200 "page" EmptyString)) as Hgood.
  pose proof (scraper_main_after_first_good_response
                (scraper_env 2) bad_page_hrefs urljoin_or_raise urlparse_or_raise search
                (mk_cli_args false None 15) world0 (fun _ => read_timeout) 2%nat
                (mk_http_response 200 "page" EmptyString)) as Hbad.
  assert (Hurl : strip (input_line (scraper_env 2)) <> EmptyString)
    by (intros H; vm_compute in H; discriminate).
  assert (Hprev : forall j, (j < 2)%nat ->
            checked_get_answer (scraper_env 2) (n_get world0 + j)
              (strip (input_line (scraper_env 2))) 15 = Raises read_timeout
            /\ is_RequestException read_timeout = true).
  { intros j Hj. destruct j as [|[|j]]; [split; reflexivity | split; reflexivity | lia]. }
  specialize (Hgood Hurl ltac:(lia) Hprev eq_refl).
  specialize (Hbad Hurl ltac:(lia) Hprev eq_refl).
  cbv zeta in Hgood, Hbad.
  change (link_scraper.extract_links_or_raise page_hrefs urljoin_or_raise urlparse_or_raise
            search (strip (input_line (scraper_env 2)))
            (content (mk_http_response 200 "page" EmptyString))
            (link_scraper.filter_pattern_of (mk_cli_args false None 15)))
    with (Returns (A:=list string)
            [month_url +:+ "/showdocs/1/100"; month_url +:+ "/showdocs/1/200"]) in Hgood.
  change (link_scraper.extract_links_or_raise bad_page_hrefs urljoin_or_raise
            urlparse_or_raise search (strip (input_line (scraper_env 2)))
            (content (mk_http_response 200 "page" EmptyString))
            (link_scraper.filter_pattern_of (mk_cli_args false None 15)))
    with (Raises (A:=list string) (value_error "Invalid IPv6 URL")) in Hbad.
  destruct Hgood as [Hres Htr]. destruct Hbad as [Hres' Htr'].
  fold run in Hres, Htr. fold bad in Hres', Htr'.
  split.
  - split; [exact Hres|]. rewrite Htr. split; vm_compute; reflexivity.
  - split; [exact Hres'|]. rewrite Htr'. split; vm_compute; reflexivity.
Defined.

(** The theorem at a server that times out three times: exit status 1,
    the error on standard error, nothing but the prompt on standard
    output. *)
Lemma scraper_main_reports_fetch_failure_witness :
  let run :=
    link_scraper.main (scraper_env 3) page_hrefs urljoin_or_raise urlparse_or_raise
      (fun pattern s => Returns (search_showdocs pattern s))
      (mk_cli_args false None 15) world0 in
  run.1 = Returns (Exited 1)
  /\ stdout (trace run.2) = [url_prompt]
  /\ last (stderr (trace run.2)) = Some "Error fetching page: Read timed out."
  /\ sleeps (trace run.2) = [1; 2].
Proof.
  intros run.
  destruct (scraper_main_reports_fetch_failure
              (scraper_env 3) page_hrefs urljoin_or_raise urlparse_or_raise
              (fun pattern s => Returns (search_showdocs pattern s))
              (mk_cli_args false None 15) world0 (fun _ => read_timeout) 2%nat
              read_timeout)
    as [Hres Htr].
  { intros H. vm_compute in H. discriminate. }
  { lia. }
  { intros j Hj. destruct j as [|[|j]]; [split; reflexivity | split; reflexivity | lia]. }
  { reflexivity. }
  { by right. }
  fold run in Hres, Htr. split; [exact Hres|]. rewrite Htr.
  repeat split; vm_compute; reflexivity.
Defined.

(** * The cost of processing the links *)

Section Spends.
Context {A B : Type}.
Variable f : event -> Z.

Lemma total_app tr1 tr2 : total f (tr1 ++ tr2) = total f tr1 + total f tr2.
Proof. induction tr1 as [|ev tr1 IH]; simpl; [done|]. rewrite IH. lia. Qed.

Lemma spends_ret n (a : A) : 0 <= n -> spends f n (ret a).
Proof. intros Hn w. exists []. simpl. by rewrite app_nil_r. Qed.

Lemma spends_raise n (e : exn) : 0 <= n -> spends f n (@raise A e).
Proof. intros Hn w. exists []. simpl. by rewrite app_nil_r. Qed.

Lemma spends_lift n (r : outcome A) : 0 <= n -> spends f n (lift r).
Proof. intros Hn w. exists []. simpl. by rewrite app_nil_r. Qed.

Lemma spends_emit n ev : f ev <= n -> spends f n (emit ev).
Proof. intros Hn w. exists [ev]. simpl. split; [done|]. lia. Qed.

Lemma spends_bind n1 n2 n (m : M A) (k : A -> M B) :
  spends f n1 m -> (forall a, spends f n2 (k a)) -> 0 <= n2 -> n1 + n2 <= n ->
  spends f n (bind m k).
Proof.
  intros Hm Hk Hn2 Hn w. unfold bind. destruct (Hm w) as (new & Htr & Hnew).
  destruct (m w) as [[a|e] w']; simpl in *.
  - destruct (Hk a w') as (new' & Htr' & Hnew').
    exists (new ++ new'). rewrite Htr', Htr, <- app_assoc. split; [done|].
    rewrite total_app. lia.
  - exists new. split; [done|]. lia.
Qed.

Lemma spends_try n (m : M A) : spends f n m -> spends f n (try_ m).
Proof.
  intros Hm w. unfold try_. destruct (Hm w) as (new & Htr & Hnew).
  destruct (m w) as [r w']. by exists new.
Qed.

Lemma spends_weaken n n' (m : M A) : n <= n' -> spends f n m -> spends f n' m.
Proof.
  intros Hn Hm w. destruct (Hm w) as (new & Htr & Hnew). exists new. split; [done|]. lia.
Qed.

End Spends.

(** ** The trace of a retry loop *)

Section RetryLoopTrace.
Context {A : Type}.
Variable attempt_once : M A.
Variable retryable : exn -> bool.
Variable is_last : nat -> bool.
Variable announce : nat -> exn -> Z -> event.
Variable call : event.
Hypothesis attempt_once_trace : forall w, trace (attempt_once w).2 = trace w ++ [call].

Local Abbreviation loop := (retry_loop attempt_once retryable is_last announce).

(** A loop of [n + 1] attempts whose last attempt is recognised as the
    last: some [k <= n] attempts fail and are retried, and one more call
    ends the loop. *)
Lemma retry_loop_trace n : forall a d w,
  is_last (a + n)%nat = true ->
  exists errs k,
    (k <= n)%nat
    /\ trace (loop (seq a (S n)) d w).2
       = trace w ++ backoff_trace announce call errs a d k ++ [call].
Proof.
  induction n as [|n IH]; intros a d w Hlast.
  - exists (fun _ => value_error EmptyString), O. split; [done|].
    simpl. unfold bind, try_. pose proof (attempt_once_trace w) as Htr.
    destruct (attempt_once w) as [[r|e] w']; simpl in *; [done|].
    rewrite Nat.add_0_r in Hlast. rewrite Hlast, andb_false_r. done.
  - change (seq a (S (S n))) with (a :: seq (S a) (S n)).
    cbn [retry_loop]. unfold bind at 1. unfold try_.
    pose proof (attempt_once_trace w) as Htr.
    destruct (attempt_once w) as [[r|e] w']; cbn [fst snd] in *.
    { exists (fun _ => value_error EmptyString), O. split; [lia|]. done. }
    destruct (retryable e && negb (is_last a)).
    2:{ exists (fun _ => value_error EmptyString), O. split; [lia|]. done. }
    unfold bind, sleep, emit. cbn [fst snd trace n_get n_generate].
    set (w2 := mk_world _ _ _).
    destruct (IH (S a) (d * 2) w2) as (errs & k & Hk & Hloop).
    { by replace (S a + n)%nat with (a + S n)%nat by lia. }
    exists (fun j => match j with O => e | S j' => errs j' end), (S k).
    split; [lia|]. rewrite Hloop. subst w2. cbn [trace backoff_trace].
    rewrite Htr, <- !app_assoc. reflexivity.
Qed.

End RetryLoopTrace.

Section RetryLoopCost.
Variable f : event -> Z.
Variable announce : nat -> exn -> Z -> event.
Variable call : event.
(** Weight [s] per second slept, none for a message. *)
Variable s : Z.
Hypothesis f_sleep : forall d, f (ESleep d) = s * d.
Hypothesis f_announce : forall a e d, f (announce a e d) = 0.

Lemma total_backoff_trace k : forall errs a d,
  total f (backoff_trace announce call errs a d k)
  = Z.of_nat k * f call + s * d * (2 ^ Z.of_nat k - 1).
Proof.
  induction k as [|k IH]; intros errs a d.
  - simpl. lia.
  - cbn [backoff_trace]. rewrite total_app, IH. cbn [total foldr].
    rewrite f_sleep, f_announce, Nat2Z.inj_succ, Z.pow_succ_r by lia. lia.
Qed.

(** At most four calls and three sleeps, of [d], [2d] and [4d] seconds. *)
Lemma total_four_attempts errs a d k :
  (k <= 3)%nat -> 0 <= f call -> 0 <= s -> 0 <= d ->
  total f (backoff_trace announce call errs a d k ++ [call]) <= 4 * f call + s * (7 * d).
Proof.
  intros Hk Hc Hs Hd. rewrite total_app, total_backoff_trace. cbn [total foldr].
  destruct k as [|[|[|[|k]]]]; [| | | |lia]; simpl; nia.
Qed.

End RetryLoopCost.

Section PipelineCost.
Variable E : env.
Variable f : event -> Z.
Variables s c_gen c_file : Z.
Hypothesis s_nonneg : 0 <= s.
Hypothesis c_gen_nonneg : 0 <= c_gen.
Hypothesis c_file_nonneg : 0 <= c_file.
Hypothesis f_print : forall line, f (EPrint line) = 0.
Hypothesis f_sleep : forall d, f (ESleep d) = s * d.
Hypothesis f_get : forall u t, 0 <= f (EGet u t).
Hypothesis f_generate : forall cfg contents, f (EGenerate cfg contents) = c_gen.
Hypothesis f_write : forall path data, f (EWriteFile path data) = c_file.

Lemma spends_main_fetch link :
  spends f (4 * f (EGet link 30) + 14 * s) (main.fetch_page_with_retries E link 4 30).
Proof.
  intros w. unfold main.fetch_page_with_retries. rewrite main_fetch_loop_retry_loop.
  destruct (retry_loop_trace (get_checked E link 30) is_RequestException
              (fun a => (a =? 4)%nat) (request_error_line 4) (EGet link 30)
              ltac:(intros w0; by destruct (get_checked_spec E link 30 w0)
                                    as (w' & -> & Htr & _))
              3 1%nat 2 w eq_refl) as (errs & k & Hk & Htr).
  eexists. split; [exact Htr|].
  etransitivity; [apply (total_four_attempts f (request_error_line 4) (EGet link 30) s)|];
    try done; try lia.
  intros a e d. apply f_print.
Qed.

Lemma spends_call_model cfg contents :
  spends f (4 * c_gen + 14 * s) (main.call_model_with_retries E cfg contents 4 2).
Proof.
  intros w. unfold main.call_model_with_retries. rewrite call_model_loop_retry_loop.
  destruct (retry_loop_trace (do_generate_content E cfg contents)
              (fun e => main.is_transient (main.extract_status E e))
              (fun a => (a =? 4)%nat) (transient_error_line 4) (EGenerate cfg contents)
              ltac:(intros w0; reflexivity)
              3 1%nat 2 w eq_refl) as (errs & k & Hk & Htr).
  eexists. split; [exact Htr|].
  etransitivity;
    [apply (total_four_attempts f (transient_error_line 4) (EGenerate cfg contents) s)|];
    try done; rewrite ?f_generate; try lia.
  intros a e d. apply f_print.
Qed.

(** The stricter retry is a single call. *)
Lemma spends_call_model_once cfg contents :
  spends f c_gen (main.call_model_with_retries E cfg contents 1 2).
Proof.
  intros w. unfold main.call_model_with_retries. rewrite call_model_loop_retry_loop.
  destruct (retry_loop_trace (do_generate_content E cfg contents)
              (fun e => main.is_transient (main.extract_status E e))
              (fun a => (a =? 1)%nat) (transient_error_line 1) (EGenerate cfg contents)
              ltac:(intros w0; reflexivity)
              0 1%nat 2 w eq_refl) as (errs & k & Hk & Htr).
  eexists. split; [exact Htr|].
  assert (k = O) as -> by lia. simpl. rewrite f_generate. lia.
Qed.

Lemma spends_recover_json raw all_new_data :
  spends f c_file (main.recover_json E raw all_new_data).
Proof.
  unfold main.recover_json.
  apply (spends_bind f 0 c_file); [by apply spends_try, spends_lift | | lia | lia].
  intros [v|e1]; [by apply spends_ret|].
  destruct (is_JSONDecodeError e1); [|by apply spends_raise].
  apply (spends_bind f 0 c_file); [| | lia | lia].
  { apply spends_try. apply (spends_bind f 0 0); [by apply spends_lift | | lia | lia].
    intros v. apply (spends_bind f 0 0); [| intros; by apply spends_ret | lia | lia].
    apply spends_emit. by rewrite f_print. }
  intros [v|e2]; [by apply spends_ret|].
  destruct (re_search_array raw) as [group1|].
  - apply (spends_bind f 0 0); [by apply spends_try, spends_lift | | lia | lia].
    intros [v|e3]; [by apply spends_ret|].
    destruct (is_JSONDecodeError e3); [|by apply spends_raise].
    apply (spends_bind f 0 0); [by apply spends_lift | | lia | lia].
    intros v. apply (spends_bind f 0 0); [| intros; by apply spends_ret | lia | lia].
    apply spends_emit. by rewrite f_print.
  - apply (spends_bind f c_file 0); [| intros; by apply spends_raise | lia | lia].
    apply spends_emit. by rewrite f_write.
Qed.

Lemma spends_validate_and_extend new_data all_new_data :
  spends f 0 (main.validate_and_extend new_data all_new_data).
Proof.
  unfold main.validate_and_extend.
  destruct new_data; try by apply spends_raise.
  destruct (negb _); [by apply spends_raise|].
  apply (spends_bind f 0 0); [| intros; by apply spends_ret | lia | lia].
  apply spends_emit. by rewrite f_print.
Qed.

Local Abbreviation link_cost := (link_cost f s c_gen c_file).

Lemma spends_extract_case link all_new_data :
  spends f (link_cost link) (main.extract_case E link all_new_data).
Proof.
  unfold main.extract_case, link_cost. pose proof (f_get link 30) as Hget.
  apply (spends_bind f (4 * f (EGet link 30) + 14 * s) (5 * c_gen + 14 * s + 2 * c_file));
    [apply spends_main_fetch | | lia | lia].
  intros [page|]; [|apply spends_raise; lia].
  apply (spends_bind f (4 * c_gen + 14 * s) (c_gen + 2 * c_file));
    [apply spends_call_model | | lia | lia].
  intros response.
  apply (spends_bind f (c_file + c_gen) c_file); [| | lia | lia].
  { destruct (response_is_empty response); [|apply spends_ret; lia].
    apply (spends_bind f c_file c_gen); [apply spends_emit; by rewrite f_write | | lia | lia].
    intros _. apply (spends_bind f 0 c_gen);
      [apply spends_emit; by rewrite f_print | | lia | lia].
    intros _. apply (spends_bind f c_gen 0);
      [apply spends_try, spends_call_model_once | | lia | lia].
    intros [r|e]; [by apply spends_ret | by apply spends_raise]. }
  intros [resp|]; [|by apply spends_raise].
  destruct (is_empty _).
  - apply (spends_bind f c_file 0); [| intros; by apply spends_raise | lia | lia].
    apply spends_emit. by rewrite f_write.
  - apply (spends_bind f c_file 0);
      [apply spends_recover_json | intros; apply spends_validate_and_extend | lia | lia].
Qed.

Lemma spends_process_link link all_new_data :
  spends f (link_cost link) (main.process_link E link all_new_data).
Proof.
  unfold main.process_link.
  assert (Hcost : 0 <= link_cost link).
  { unfold link_cost. pose proof (f_get link 30). lia. }
  apply (spends_bind f 0 (link_cost link));
    [apply spends_emit; by rewrite f_print | | lia | lia].
  intros _. apply (spends_bind f (link_cost link) 0);
    [apply spends_try, spends_extract_case | | lia | lia].
  intros [data|e]; [by apply spends_ret|].
  apply (spends_bind f 0 0); [apply spends_emit; by rewrite f_print | | lia | lia].
  intros _. apply (spends_bind f 0 0);
    [apply spends_emit; by rewrite f_print | intros; by apply spends_ret | lia | lia].
Qed.

Lemma spends_process_links links : forall all_new_data,
  spends f (foldr (fun link acc => link_cost link + acc) 0 links)
         (main.process_links E links all_new_data).
Proof.
  induction links as [|link links IH]; intros all_new_data; simpl.
  - by apply spends_ret.
  - assert (Hrest : 0 <= foldr (fun link acc => link_cost link + acc) 0 links).
    { clear IH. induction links as [|l links IH]; simpl; [lia|].
      unfold link_cost at 1. pose proof (f_get l 30). lia. }
    eapply spends_bind; [apply spends_process_link | intros; apply IH | lia | lia].
Qed.

End PipelineCost.

Lemma spends_new_events {A} f n (m : M A) w :
  spends f n m -> total f (new_events w (m w).2) <= n.
Proof.
  intros Hm. destruct (Hm w) as (new & Htr & Hnew). by rewrite (new_events_app _ _ _ Htr).
Qed.

Lemma total_request_weight tr : total request_weight tr = Z.of_nat (length (gets tr)).
Proof.
  induction tr as [|ev tr IH]; [done|]. cbn [total foldr]. fold (total request_weight tr).
  rewrite IH. destruct ev; simpl; lia.
Qed.

Lemma total_model_call_weight tr :
  total model_call_weight tr = Z.of_nat (length (generates tr)).
Proof.
  induction tr as [|ev tr IH]; [done|]. cbn [total foldr]. fold (total model_call_weight tr).
  rewrite IH. destruct ev; simpl; lia.
Qed.

Lemma total_file_weight tr : total file_weight tr = Z.of_nat (length (written_files tr)).
Proof.
  induction tr as [|ev tr IH]; [done|]. cbn [total foldr]. fold (total file_weight tr).
  rewrite IH. destruct ev; simpl; lia.
Qed.

Lemma total_sleep_weight tr : total sleep_weight tr = total_sleep tr.
Proof.
  unfold total_sleep, sleeps.
  induction tr as [|ev tr IH]; [done|]. cbn [total foldr]. fold (total sleep_weight tr).
  rewrite IH. destruct ev; cbn [sleep_weight omap list_omap foldr]; lia.
Qed.

Lemma total_spreadsheet_weight tr :
  total spreadsheet_weight tr <= 0 -> excel_writes tr = [].
Proof.
  assert (Hpos : forall tr', 0 <= total spreadsheet_weight tr').
  { induction tr' as [|ev tr' IH]; simpl; [lia|]. destruct ev; simpl; lia. }
  induction tr as [|ev tr IH]; [done|]. cbn [total foldr]. fold (total spreadsheet_weight tr).
  pose proof (Hpos tr) as Htr. destruct ev; simpl; intros Hle; try (apply IH; lia). lia.
Qed.

Lemma total_foreign_request_weight links tr :
  total (foreign_request_weight links) tr <= 0 -> Forall (fun u => u ∈ links) (gets tr).
Proof.
  assert (Hpos : forall tr', 0 <= total (foreign_request_weight links) tr').
  { induction tr' as [|ev tr' IH]; simpl; [lia|].
    destruct ev; simpl; try lia. case_bool_decide; lia. }
  induction tr as [|ev tr IH]; [by constructor|].
  cbn [total foldr]. fold (total (foreign_request_weight links) tr).
  pose proof (Hpos tr) as Htr. destruct ev; simpl; intros Hle; try (apply IH; lia).
  case_bool_decide; [|lia]. constructor; [done|]. apply IH. lia.
Qed.

Lemma sum_constant_cost (cost : string -> Z) (c : Z) (links : list string) :
  Forall (fun link => cost link = c) links ->
  foldr (fun link acc => cost link + acc) 0 links = c * Z.of_nat (length links).
Proof.
  induction 1 as [|link links Hc _ IH]; [simpl; lia|].
  cbn [foldr length]. rewrite IH, Hc. lia.
Qed.

(** The loop over the links never raises; it returns the batch it started
    with, extended by at most one record per link. *)
Lemma process_links_extends_batch E links : forall all_new_data w,
  exists added,
    (main.process_links E links all_new_data w).1 = Returns (all_new_data ++ added)
    /\ (length added <= length links)%nat.
Proof.
  induction links as [|link links IH]; intros all_new_data w.
  - exists []. simpl. by rewrite app_nil_r.
  - simpl. unfold bind.
    destruct (process_link_spec E link all_new_data w) as (data & new & Hres & _ & _ & Hdata).
    destruct (main.process_link E link all_new_data w) as [[data'|e] w']; simpl in *; [|done].
    injection Hres as ->. destruct (IH data w') as (added & Hrun & Hlen).
    destruct Hdata as [-> | [x ->]].
    + exists added. split; [done|]. lia.
    + exists (x :: added). rewrite Hrun, <- app_assoc. split; [done|]. simpl. lia.
Qed.

(** Processing the links never raises, whatever the servers and the
    model do, and its cost is bounded: per link at most one record is
    added to the batch, at most four requests are made, all to links of
    the list, the model is called at most five times, at most 28 seconds
    are slept and at most two debug files are written; no spreadsheet is
    written. *)
Theorem process_links_cost_is_bounded :
  forall (E : env) (links : list string) (all_new_data : list pyval) (w : world),
    let run := main.process_links E links all_new_data w in
    let new := new_events w run.2 in
    let n := length links in
    (exists added, run.1 = Returns (all_new_data ++ added) /\ (length added <= n)%nat)
    /\ (length (gets new) <= 4 * n)%nat
    /\ Forall (fun u => u ∈ links) (gets new)
    /\ (length (generates new) <= 5 * n)%nat
    /\ total_sleep new <= 28 * Z.of_nat n
    /\ (length (written_files new) <= 2 * n)%nat
    /\ excel_writes new = [].
Proof.
  intros E links all_new_data w run new n. subst run new n.
  split; [apply process_links_extends_batch|].
  split; [|split; [|split; [|split; [|split]]]].
  - pose proof (spends_new_events _ _ _ w
      (spends_process_links E request_weight 0 0 0 ltac:(lia) ltac:(lia) ltac:(lia)
         ltac:(done) ltac:(intros; simpl; lia) ltac:(intros; simpl; lia)
         ltac:(done) ltac:(done) links all_new_data)) as H.
    rewrite total_request_weight in H.
    rewrite (sum_constant_cost _ 4) in H; [lia|].
    apply Forall_forall. intros link _. unfold link_cost. simpl. lia.
  - apply total_foreign_request_weight.
    etransitivity; [apply spends_new_events;
      apply (spends_process_links E (foreign_request_weight links) 0 0 0
               ltac:(lia) ltac:(lia) ltac:(lia)
               ltac:(done) ltac:(intros; simpl; lia)
               ltac:(intros; simpl; case_bool_decide; lia)
               ltac:(done) ltac:(done) links all_new_data)|].
    rewrite (sum_constant_cost _ 0); [lia|].
    apply Forall_forall. intros link Hin. unfold link_cost. simpl.
    case_bool_decide; [lia | done].
  - pose proof (spends_new_events _ _ _ w
      (spends_process_links E model_call_weight 0 1 0 ltac:(lia) ltac:(lia) ltac:(lia)
         ltac:(done) ltac:(intros; simpl; lia) ltac:(intros; simpl; lia)
         ltac:(done) ltac:(done) links all_new_data)) as H.
    rewrite total_model_call_weight in H.
    rewrite (sum_constant_cost _ 5) in H; [lia|].
    apply Forall_forall. intros link _. unfold link_cost. simpl. lia.
  - pose proof (spends_new_events _ _ _ w
      (spends_process_links E sleep_weight 1 0 0 ltac:(lia) ltac:(lia) ltac:(lia)
         ltac:(done) ltac:(intros; simpl; lia) ltac:(intros; simpl; lia)
         ltac:(done) ltac:(done) links all_new_data)) as H.
    rewrite total_sleep_weight in H.
    rewrite (sum_constant_cost _ 28) in H; [lia|].
    apply Forall_forall. intros link _. unfold link_cost. simpl. lia.
  - pose proof (spends_new_events _ _ _ w
      (spends_process_links E file_weight 0 0 1 ltac:(lia) ltac:(lia) ltac:(lia)
         ltac:(done) ltac:(intros; simpl; lia) ltac:(intros; simpl; lia)
         ltac:(done) ltac:(done) links all_new_data)) as H.
    rewrite total_file_weight in H.
    rewrite (sum_constant_cost _ 2) in H; [lia|].
    apply Forall_forall. intros link _. unfold link_cost. simpl. lia.
  - apply total_spreadsheet_weight.
    etransitivity; [apply spends_new_events;
      apply (spends_process_links E spreadsheet_weight 0 0 0
               ltac:(lia) ltac:(lia) ltac:(lia)
               ltac:(done) ltac:(intros; simpl; lia) ltac:(intros; simpl; lia)
               ltac:(done) ltac:(done) links all_new_data)|].
    rewrite (sum_constant_cost _ 0); [lia|].
    apply Forall_forall. intros link _. unfold link_cost. simpl. lia.
Qed.

(** * The spreadsheet sink and the whole run *)

Lemma excel_writes_app tr1 tr2 : excel_writes (tr1 ++ tr2) = excel_writes tr1 ++ excel_writes tr2.
Proof. apply omap_app. Qed.

Lemma generates_app tr1 tr2 : generates (tr1 ++ tr2) = generates tr1 ++ generates tr2.
Proof. apply omap_app. Qed.

Lemma prints_quiet lines :
  gets (map EPrint lines) = [] /\ generates (map EPrint lines) = []
  /\ written_files (map EPrint lines) = [] /\ excel_writes (map EPrint lines) = [].
Proof. by induction lines. Qed.

(** [df_combined] is computed without raising, and only messages are
    printed meanwhile. *)
Lemma merge_with_existing_spec E path df_new w :
  exists df lines,
    main.merge_with_existing E path df_new w
    = (Returns df, mk_world (trace w ++ map EPrint lines) (n_get w) (n_generate w))
    /\ (path_exists E path = false -> df = df_new).
Proof.
  unfold main.merge_with_existing, bind, try_, lift, print, emit, ret.
  destruct (path_exists E path).
  - destruct (pd_read_excel E path) as [df_existing|e]; cbn [fst snd].
    + destruct (_ && _); cbn [fst snd trace n_get n_generate].
      * eexists df_new, [_]. split; [reflexivity | done].
      * eexists (pd_concat df_existing df_new), [_; _]. split; [|done].
        by rewrite <- app_assoc.
    + eexists df_new, [_]. split; [reflexivity | done].
  - eexists df_new, [_]. split; [reflexivity | done].
Qed.

(** What the sink does, on the events it adds to the trace. *)
Lemma write_excel_spec E path all_new_data w :
  let run := main.write_excel E path all_new_data w in
  exists new,
    trace run.2 = trace w ++ new
    /\ gets new = [] /\ generates new = [] /\ written_files new = []
    /\ match all_new_data with
       | [] => excel_writes new = [] /\ run.1 = Returns tt
       | _ :: _ =>
           match pd_DataFrame E all_new_data with
           | Raises e => new = [] /\ run.1 = Raises e
           | Returns df_new =>
               exists df,
                 excel_writes new = [(path, df)]
                 /\ run.1 = pd_to_excel E path df
                 /\ (path_exists E path = false -> df = df_new)
                 /\ match run.1 with
                    | Returns _ =>
                        last (stdout new) = Some ("File saved/updated as: " +:+ path)
                    | Raises _ => last new = Some (EToExcel path df)
                    end
           end
       end.
Proof.
  intros run.
  destruct run as [r wf] eqn:Hrun. subst run. cbn [fst snd]. revert Hrun.
  unfold main.write_excel. destruct all_new_data as [|x rest].
  { unfold print, emit. intros [= <- <-]. eexists [EPrint _]. split; [reflexivity|].
    by repeat split. }
  set (batch := x :: rest).
  unfold lift at 1. rewrite bind_run. cbn [fst snd].
  destruct (pd_DataFrame E batch) as [df_new|e0].
  2:{ intros [= <- <-]. exists []. by rewrite app_nil_r. }
  destruct (merge_with_existing_spec E path df_new w)
    as (df & lines & Hmerge & Hnew).
  destruct (prints_quiet lines) as (Hg & Hm & Hf & Hx).
  rewrite bind_run, Hmerge. cbn [fst snd].
  unfold main.to_excel. rewrite bind_assoc_run, bind_emit_run. cbn [trace n_get n_generate].
  unfold lift at 1. rewrite bind_run. cbn [fst snd].
  destruct (pd_to_excel E path df) as [[]|e] eqn:Hto.
  - unfold print. rewrite !bind_emit_run. unfold emit. cbn [trace n_get n_generate].
    intros [= <- <-]. cbn [trace].
    eexists (map EPrint lines ++ [EToExcel path df; _; _; _]).
    split; [by rewrite <- !app_assoc|].
    rewrite !gets_app, !generates_app, !written_files_app, Hg, Hm, Hf.
    repeat split; try done. exists df.
    rewrite excel_writes_app, Hx, stdout_app. repeat split; try done.
    by rewrite last_app.
  - intros [= <- <-]. cbn [trace].
    exists (map EPrint lines ++ [EToExcel path df]).
    split; [by rewrite <- !app_assoc|].
    rewrite !gets_app, !generates_app, !written_files_app, Hg, Hm, Hf.
    repeat split; try done. exists df.
    rewrite excel_writes_app, Hx. repeat split; try done.
    by rewrite last_app.
Qed.

(** The sink makes no request and no model call and writes no file other
    than the spreadsheet.  For an empty batch it writes nothing and
    returns.  For a batch that is not empty it first builds the table of
    the batch: an exception of [pd.DataFrame] leaves the sink at once,
    nothing having been printed or written.  Once the table is built the
    spreadsheet is written exactly once, at the given path; without a
    prior file the table written is the table of the batch; the sink then
    ends as [to_excel] does: if that raises, the lines reporting success
    are not printed, otherwise the last line names the file. *)
Theorem sink_writes_once_when_table_is_built :
  forall (E : env) (EXCEL_FILENAME : string) (all_new_data : list pyval) (w : world),
    let run := main.write_excel E EXCEL_FILENAME all_new_data w in
    let new := new_events w run.2 in
    gets new = [] /\ generates new = [] /\ written_files new = []
    /\ match all_new_data with
       | [] => excel_writes new = [] /\ run.1 = Returns tt
       | _ :: _ =>
           match pd_DataFrame E all_new_data with
           | Raises e => new = [] /\ run.1 = Raises e
           | Returns df_new =>
               exists df,
                 excel_writes new = [(EXCEL_FILENAME, df)]
                 /\ run.1 = pd_to_excel E EXCEL_FILENAME df
                 /\ (path_exists E EXCEL_FILENAME = false -> df = df_new)
                 /\ match run.1 with
                    | Returns _ =>
                        last (stdout new)
                        = Some ("File saved/updated as: " +:+ EXCEL_FILENAME)
                    | Raises _ => last new = Some (EToExcel EXCEL_FILENAME df)
                    end
           end
       end.
Proof.
  intros E path all_new_data w run new. subst run new.
  destruct (write_excel_spec E path all_new_data w) as (new & Htr & Hspec).
  cbv zeta in Htr, Hspec. by rewrite (new_events_app _ _ _ Htr).
Qed.

Lemma load_links_run E path w :
  main.load_links E path w
  = if path_exists E path then
      (match read_text E path with
       | Returns txt =>
           Returns (filter (fun line => negb (is_empty line)) (map strip (file_lines txt)))
       | Raises e => Raises e
       end, w)
    else (Returns [],
          mk_world (trace w ++ [EPrint ("Warning: Links file '" +:+ path
                                        +:+ "' not found. Using empty list.")])
                   (n_get w) (n_generate w)).
Proof.
  unfold main.load_links. destruct (path_exists E path); [|reflexivity].
  cbn [negb]. unfold bind, lift. by destruct (read_text E path).
Qed.

(** Lines 112-125 and what follows them: the API key and the client. *)
Lemma run_key_phase E links pre w :
  links <> [] -> Forall console_event pre -> loaded_links E = Some links ->
  path_exists E (excel_path E) = false \/ open_append E (excel_path E) = Returns tt ->
  let w0 := mk_world (trace w ++ pre) (n_get w) (n_generate w) in
  let run :=
    match environ_api_key E with
    | Some (String c k) =>
        bind (try_ (lift (genai_Client E (String c k))))
          (fun r => match r with
                    | Raises e =>
                        bind (print "Error: Could not initialize Gemini Client.")
                             (fun _ => print ("Details: " +:+ exn_str e))
                    | Returns _ =>
                        bind (main.process_links E links [])
                             (fun all_new_data =>
                                main.write_excel E (excel_path E) all_new_data)
                    end)
    | _ =>
        print ("ERROR: GEMINI_API_KEY not found. Please ensure it is set in "
               +:+ "your .env file or system environment.")
    end w0 in
  (exists pre',
     run = (Returns tt, mk_world (trace w ++ pre') (n_get w) (n_generate w))
     /\ Forall console_event pre')
  \/ (setup_succeeds E links
      /\ run = bind (main.process_links E links [])
                    (main.write_excel E (excel_path E)) w0).
Proof.
  intros Hne Hpre Hloaded Hwritable w0 run. subst run.
  destruct (environ_api_key E) as [[|c k]|] eqn:Hkey.
  - left. eexists (pre ++ [EPrint _]). unfold print, emit. subst w0. cbn [trace n_get n_generate].
    rewrite <- app_assoc. split; [reflexivity|].
    apply Forall_app. split; [done | by repeat constructor].
  - rewrite bind_try_run. unfold lift. cbn [fst snd].
    destruct (genai_Client E (String c k)) as [[]|e] eqn:Hclient.
    + right. split; [|reflexivity].
      split; [done|]. split; [done|]. split; [done|].
      exists (String c k). by repeat split.
    + left. eexists (pre ++ [EPrint _; EPrint _]).
      unfold print. rewrite bind_emit_run. unfold emit. subst w0.
      cbn [trace n_get n_generate]. rewrite <- !app_assoc. split; [reflexivity|].
      apply Forall_app. split; [done | by repeat constructor].
  - left. eexists (pre ++ [EPrint _]). unfold print, emit. subst w0. cbn [trace n_get n_generate].
    rewrite <- app_assoc. split; [reflexivity|].
    apply Forall_app. split; [done | by repeat constructor].
Qed.

(** The run either ends in the configuration phase, having used the
    console only, or the setup succeeds and the run is the loop over the
    links followed by the sink. *)
Lemma run_cases E w :
  (exists pre r,
     main.generate_and_append_to_excel E w
     = (r, mk_world (trace w ++ pre) (n_get w) (n_generate w))
     /\ Forall console_event pre
     /\ (r = Returns tt
         \/ (exists e, r = Raises e /\ read_text E "links.txt" = Raises e)
         \/ (exists e, r = Raises e /\ open_append E (excel_path E) = Raises e)))
  \/ (exists pre links,
        setup_succeeds E links
        /\ Forall console_event pre
        /\ main.generate_and_append_to_excel E w
           = bind (main.process_links E links [])
                  (main.write_excel E (excel_path E))
                  (mk_world (trace w ++ pre) (n_get w) (n_generate w))).
Proof.
  destruct (main.generate_and_append_to_excel E w) as [r wf] eqn:Hrun. revert Hrun.
  unfold main.generate_and_append_to_excel.
  unfold bind at 1. rewrite load_links_run.
  destruct (path_exists E "links.txt") eqn:Hfile.
  2:{ unfold print, emit. cbn [trace n_get n_generate]. intros <-.
      left. eexists [_; _], _. split; [by rewrite <- app_assoc|].
      split; [by repeat constructor | by left]. }
  destruct (read_text E "links.txt") as [txt|e] eqn:Hread.
  2:{ intros <-. left. exists [], (Raises e). rewrite app_nil_r. destruct w.
      split; [done|]. split; [done|]. right. left. by exists e. }
  set (links := filter _ _).
  assert (Hloaded : loaded_links E = Some links).
  { unfold loaded_links. by rewrite Hfile, Hread. }
  destruct links as [|l links'] eqn:Hlinks.
  { intros <-. left. eexists [_], _. split; [reflexivity|].
    split; [by repeat constructor | by left]. }
  rewrite <- Hlinks in *.
  assert (Hne : links <> []) by (by rewrite Hlinks).
  clearbody links. clear Hlinks l links'.
  unfold print at 1. rewrite bind_emit_run.
  unfold print at 1. rewrite bind_emit_run.
  unfold main.input. rewrite bind_assoc_run, bind_emit_run, bind_ret_run.
  cbn [trace n_get n_generate]. fold (excel_path E).
  rewrite <- !app_assoc. cbn [app].
  set (pre := [_; _; _]).
  assert (Hpre : Forall console_event pre) by (by repeat constructor).
  clearbody pre.
  assert (Hgo : forall run, run = (r, wf) ->
    ((exists pre',
       run = (Returns tt, mk_world (trace w ++ pre') (n_get w) (n_generate w))
       /\ Forall console_event pre')
     \/ (setup_succeeds E links
         /\ run = bind (main.process_links E links [])
                       (main.write_excel E (excel_path E))
                       (mk_world (trace w ++ pre) (n_get w) (n_generate w)))) ->
    (exists pre0,
       (r, wf) = (Returns tt, mk_world (trace w ++ pre0) (n_get w) (n_generate w))
       /\ Forall console_event pre0)
    \/ (exists pre0 links0,
          setup_succeeds E links0
          /\ Forall console_event pre0
          /\ (r, wf) = bind (main.process_links E links0 [])
                            (main.write_excel E (excel_path E))
                            (mk_world (trace w ++ pre0) (n_get w) (n_generate w)))).
  { intros run <- [(pre' & Hrun & Hpre') | [Hsetup Hrun]].
    - left. by exists pre'.
    - right. by exists pre, links. }
  rewrite <- Hread. clear Hread txt.
  unfold bind at 1.
  destruct (path_exists E (excel_path E)) eqn:Hexists.
  - rewrite bind_try_run. unfold lift at 1. cbn [fst snd].
    destruct (open_append E (excel_path E)) as [[]|e] eqn:Hopen.
    + unfold ret at 1. cbn [negb]. unfold lift. cbn [snd].
      intros Hrun.
      destruct (Hgo _ Hrun (run_key_phase E links pre w Hne Hpre Hloaded (or_intror Hopen)))
        as [(pre0 & Heq & Hp) | Hright]; [|by right].
      left. exists pre0, (Returns tt). split; [done|]. split; [done | by left].
    + unfold lift. cbn [snd]. destruct (is_PermissionError e).
      * unfold print at 1. rewrite bind_emit_run. unfold ret at 1. cbn [negb].
        unfold ret. cbn [trace n_get n_generate]. intros <-.
        left. eexists (pre ++ [EPrint _]), (Returns tt). rewrite <- app_assoc.
        split; [reflexivity|]. split; [|by left].
        apply Forall_app. split; [done | by repeat constructor].
      * unfold raise. intros <-. left. exists pre, (Raises e).
        split; [reflexivity|]. split; [done|]. right. right. by exists e.
  - unfold ret at 1. cbn [negb]. intros Hrun.
    destruct (Hgo _ Hrun (run_key_phase E links pre w Hne Hpre Hloaded (or_introl Hexists)))
      as [(pre0 & Heq & Hp) | Hright]; [|by right].
    left. exists pre0, (Returns tt). split; [done|]. split; [done | by left].
Qed.

Lemma console_events_quiet pre :
  Forall console_event pre ->
  gets pre = [] /\ generates pre = [] /\ written_files pre = [] /\ excel_writes pre = [].
Proof.
  induction 1 as [|ev pre Hev _ IH]; [done|]. by destruct ev.
Qed.

(** Nothing but the console is touched unless the setup succeeds: when
    the configuration phase does not let the run go on (no links, output
    file that cannot be opened, API key missing or empty, client that
    cannot be created), the run makes no request and no model call and
    writes no file; it returns normally unless reading [links.txt] or
    opening the output file raised an error, which it lets through. *)
Theorem run_without_setup_uses_console_only :
  forall (E : env) (w : world),
    ~ (exists links, setup_succeeds E links) ->
    let run := main.generate_and_append_to_excel E w in
    let new := new_events w run.2 in
    Forall console_event new
    /\ gets new = [] /\ generates new = []
    /\ written_files new = [] /\ excel_writes new = []
    /\ (run.1 = Returns tt
        \/ (exists e, run.1 = Raises e /\ read_text E "links.txt" = Raises e)
        \/ (exists e, run.1 = Raises e /\ open_append E (excel_path E) = Raises e)).
Proof.
  intros E w Hfail run new. subst run new.
  destruct (run_cases E w) as [(pre & r & -> & Hpre & Hr) | (pre & links & Hsetup & _)].
  2:{ exfalso. apply Hfail. by exists links. }
  cbn [fst snd]. rewrite (new_events_app w _ pre) by reflexivity.
  destruct (console_events_quiet pre Hpre) as (Hg & Hm & Hf & Hx). by repeat split.
Qed.

(** The theorem when no API key is set: the links are loaded, the file
    name is asked for, and the run ends with the message about the key. *)
Lemma run_without_setup_witness :
  let run := main.generate_and_append_to_excel (links_file_env "https://a.example/1") world0 in
  run.1 = Returns tt
  /\ gets (trace run.2) = [] /\ generates (trace run.2) = []
  /\ last (stdout (trace run.2))
     = Some ("ERROR: GEMINI_API_KEY not found. Please ensure it is set in "
             +:+ "your .env file or system environment.").
Proof.
  intros run.
  destruct (run_without_setup_uses_console_only (links_file_env "https://a.example/1") world0)
    as (_ & Hg & Hm & _ & _ & _).
  { intros (links & _ & _ & _ & key & Hkey & _). discriminate Hkey. }
  fold run in Hg, Hm. by repeat split.
Defined.

(** A run writes the spreadsheet at most once, at the path built from
    the typed file name, and only after the loop over the links; every
    request of the run goes to a link of [links.txt].  Failures of links
    never end the run: once the file name has been read at the prompt, an
    exception leaves the run only if reading [links.txt], opening the
    output file, building the table of the batch or writing the
    spreadsheet raised it. *)
Theorem run_writes_one_spreadsheet_at_most :
  forall (E : env) (w : world),
    let run := main.generate_and_append_to_excel E w in
    let new := new_events w run.2 in
    (excel_writes new = []
     \/ exists df before,
          excel_writes new = [(excel_path E, df)]
          /\ (exists after, new = before ++ after /\ gets after = [] /\ generates after = []
                            /\ excel_writes before = []))
    /\ Forall (fun u => u ∈ default [] (loaded_links E)) (gets new)
    /\ (forall e, run.1 = Raises e ->
          read_text E "links.txt" = Raises e
          \/ open_append E (excel_path E) = Raises e
          \/ (exists batch, batch <> [] /\ pd_DataFrame E batch = Raises e)
          \/ exists df, pd_to_excel E (excel_path E) df = Raises e).
Proof.
  intros E w run new. subst run new.
  destruct (run_cases E w) as [(pre & r & -> & Hpre & Hr) | (pre & links & Hsetup & Hpre & ->)].
  { cbn [fst snd]. rewrite (new_events_app w _ pre) by reflexivity.
    destruct (console_events_quiet pre Hpre) as (Hg & Hm & Hf & Hx).
    split; [by left|]. rewrite Hg. split; [done|].
    intros e ->. destruct Hr as [Hr | [(e' & [= <-] & He) | (e' & [= <-] & He)]];
      [done | by left | by right; left]. }
  destruct (console_events_quiet pre Hpre) as (Hg & Hm & Hf & Hx).
  destruct Hsetup as (Hloaded & _). rewrite Hloaded. cbn [default].
  set (w0 := mk_world _ _ _).
  destruct (process_links_extends_batch E links [] w0) as (batch & Hbatch & _).
  pose proof (spends_process_links E spreadsheet_weight 0 0 0
                ltac:(lia) ltac:(lia) ltac:(lia)
                ltac:(done) ltac:(intros; simpl; lia) ltac:(intros; simpl; lia)
                ltac:(done) ltac:(done) links [] w0) as (new1 & Htr1 & Hx1).
  pose proof (spends_new_events _ _ _ w0
                (spends_process_links E (foreign_request_weight links) 0 0 0
                   ltac:(lia) ltac:(lia) ltac:(lia)
                   ltac:(done) ltac:(intros; simpl; lia)
                   ltac:(intros; simpl; case_bool_decide; lia)
                   ltac:(done) ltac:(done) links [])) as Hg1.
  rewrite (new_events_app _ _ _ Htr1) in Hg1.
  rewrite (sum_constant_cost _ 0) in Hx1.
  2:{ apply Forall_forall. intros link Hin. unfold link_cost. simpl. lia. }
  rewrite (sum_constant_cost _ 0) in Hg1.
  2:{ apply Forall_forall. intros link Hin. unfold link_cost. simpl.
      case_bool_decide; [lia | done]. }
  assert (Hx1' : excel_writes new1 = []) by (apply total_spreadsheet_weight; lia).
  assert (Hg1' : Forall (fun u => u ∈ links) (gets new1))
    by (apply total_foreign_request_weight; lia).
  clear Hx1 Hg1.
  unfold bind.
  destruct (main.process_links E links [] w0) as [[data|e0] w1]; cbn [fst snd] in *;
    [|done].
  injection Hbatch as ->.
  destruct (write_excel_spec E (excel_path E) batch w1)
    as (new2 & Htr2 & Hg2 & Hm2 & Hf2 & Hsink).
  cbv zeta in Htr2, Hsink.
  rewrite (new_events_app w _ (pre ++ new1 ++ new2)).
  2:{ rewrite Htr2, Htr1. subst w0. cbn [trace]. by rewrite <- !app_assoc. }
  rewrite !gets_app, !excel_writes_app, Hg, Hx, Hx1', Hg2, app_nil_r. cbn [app].
  split; [|split; [done|]].
  - destruct batch as [|x rest].
    + left. by destruct Hsink.
    + destruct (pd_DataFrame E (x :: rest)) as [df_new|e0].
      * right. destruct Hsink as (df & Hdf & _). exists df, (pre ++ new1).
        split; [exact Hdf|]. exists new2. split; [by rewrite <- app_assoc|].
        split; [done|]. split; [done|]. by rewrite excel_writes_app, Hx, Hx1'.
      * left. by destruct Hsink as [-> _].
  - intros e He. right. right. destruct batch as [|x rest].
    + destruct Hsink as [_ Hres]. rewrite Hres in He. done.
    + destruct (pd_DataFrame E (x :: rest)) as [df_new|e0] eqn:Hdf.
      * right. destruct Hsink as (df & _ & Hres & _). exists df. by rewrite <- Hres.
      * left. exists (x :: rest). split; [done|]. destruct Hsink as [_ Hres].
        rewrite Hres in He. by injection He as ->.
Qed.

(** After a successful setup the run is the loop over the links followed
    by the sink. *)
Lemma run_after_setup E w links :
  setup_succeeds E links ->
  exists pre,
    Forall console_event pre
    /\ main.generate_and_append_to_excel E w
       = bind (main.process_links E links [])
              (main.write_excel E (excel_path E))
              (mk_world (trace w ++ pre) (n_get w) (n_generate w)).
Proof.
  intros (Hloaded & Hne & Hwritable & key & Hkey & Hkne & Hclient).
  unfold main.generate_and_append_to_excel. unfold bind at 1. rewrite load_links_run.
  unfold loaded_links in Hloaded.
  destruct (path_exists E "links.txt"); [|done].
  destruct (read_text E "links.txt") as [txt|e]; [|done].
  injection Hloaded as Hloaded. rewrite Hloaded.
  destruct links as [|l links0]; [done|].
  unfold print at 1. rewrite bind_emit_run.
  unfold print at 1. rewrite bind_emit_run.
  unfold main.input. rewrite bind_assoc_run, bind_emit_run, bind_ret_run.
  cbn [trace n_get n_generate]. fold (excel_path E).
  rewrite <- !app_assoc. cbn [app].
  eexists [_; _; _]. split; cycle 1.
  {
  set (w0 := mk_world _ _ _).
  unfold bind at 1.
  assert (Hw : (if path_exists E (excel_path E)
                then bind (try_ (lift (open_append E (excel_path E))))
                       (fun r0 => match r0 with
                                  | Returns _ => ret true
                                  | Raises e =>
                                      if is_PermissionError e then
                                        bind (print ("Error: The file '" +:+ excel_path E
                                                +:+ "' is currently open in another application. "
                                                +:+ "Please close it before proceeding."))
                                             (fun _ => ret false)
                                      else raise e
                                  end)
                else ret true) w0 = (Returns true, w0)).
  { destruct Hwritable as [-> | Hopen]; [done|].
    destruct (path_exists E (excel_path E)); [|done].
    by rewrite bind_try_run; unfold lift; cbn [fst snd]; rewrite Hopen. }
  rewrite Hw. cbn [negb]. rewrite Hkey.
  destruct key as [|c k]; [done|].
  rewrite bind_try_run. unfold lift at 1. cbn [fst snd]. by rewrite Hclient. }
  by repeat constructor.
Qed.

(** A run whose setup succeeds hands the batch that the loop over the
    links returns to the sink.  With an empty batch no spreadsheet is
    written and the run returns.  With a batch that [pd.DataFrame]
    refuses, as it does a Case Record followed by a number, the run ends
    with that exception and no spreadsheet is written: the records
    extracted are lost.  Otherwise one spreadsheet is written at the path
    built from the typed name, the run ends as [to_excel] does, and when
    no file was there the table written is the table of the batch. *)
Theorem run_saves_the_extracted_batch :
  forall (E : env) (w : world) (links : list string),
    setup_succeeds E links ->
    let run := main.generate_and_append_to_excel E w in
    let new := new_events w run.2 in
    exists pre batch w1,
      Forall console_event pre
      /\ main.process_links E links []
           (mk_world (trace w ++ pre) (n_get w) (n_generate w))
         = (Returns batch, w1)
      /\ (length batch <= length links)%nat
      /\ match batch with
         | [] => excel_writes new = [] /\ run.1 = Returns tt
         | _ :: _ =>
             match pd_DataFrame E batch with
             | Raises e => excel_writes new = [] /\ run.1 = Raises e
             | Returns df_new =>
                 exists df,
                   excel_writes new = [(excel_path E, df)]
                   /\ run.1 = pd_to_excel E (excel_path E) df
                   /\ (path_exists E (excel_path E) = false -> df = df_new)
             end
         end.
Proof.
  intros E w links Hsetup run new. subst run new.
  destruct (run_after_setup E w links Hsetup) as (pre & Hpre & ->).
  set (w0 := mk_world _ _ _).
  destruct (process_links_extends_batch E links [] w0) as (batch & Hbatch & Hlen).
  destruct (spends_process_links E spreadsheet_weight 0 0 0
              ltac:(lia) ltac:(lia) ltac:(lia)
              ltac:(done) ltac:(intros; simpl; lia) ltac:(intros; simpl; lia)
              ltac:(done) ltac:(done) links [] w0) as (new1 & Htr1 & Hx1).
  rewrite (sum_constant_cost _ 0) in Hx1.
  2:{ apply Forall_forall. intros link Hin. unfold link_cost. simpl. lia. }
  assert (Hx1' : excel_writes new1 = []) by (apply total_spreadsheet_weight; lia).
  destruct (console_events_quiet pre Hpre) as (_ & _ & _ & Hx).
  unfold bind.
  destruct (main.process_links E links [] w0) as [[data|e0] w1] eqn:Hloop;
    cbn [fst snd] in *; [|done].
  injection Hbatch as ->. exists pre, batch, w1.
  split; [done|]. split; [done|]. split; [done|].
  destruct (write_excel_spec E (excel_path E) batch w1)
    as (new2 & Htr2 & _ & _ & _ & Hsink).
  cbv zeta in Htr2, Hsink.
  rewrite (new_events_app w _ (pre ++ new1 ++ new2)).
  2:{ rewrite Htr2, Htr1. subst w0. cbn [trace]. by rewrite <- !app_assoc. }
  rewrite !excel_writes_app, Hx, Hx1'. cbn [app].
  destruct batch as [|x rest]; [done|].
  destruct (pd_DataFrame E (x :: rest)) as [df_new|e0].
  - destruct Hsink as (df & Hdf & Hres & Hnew & _). by exists df.
  - by destruct Hsink as [-> Hres].
Qed.

(** The theorem at a complete setting with one link, where the
    spreadsheet [excel_files/cases.xlsx] is written with the six columns
    and the one record, and at a setting with two links whose second
    answer is the array of the number one: the table cannot be built and
    the run ends with the [AttributeError], nothing written. *)
Lemma run_saves_the_extracted_batch_witness :
  let run := main.generate_and_append_to_excel full_run_env world0 in
  let lost := main.generate_and_append_to_excel mixed_batch_env world0 in
  (run.1 = Returns tt
   /\ excel_writes (trace run.2)
      = [("excel_files/cases.xlsx",
          mk_df expected_columns
            [[Cell (PyStr "G.R. No. 1"); Cell (PyStr "A v. B"); Cell (PyStr "facts");
              Cell (PyStr "decision"); Cell (PyStr "ruling"); Cell (PyStr "verdict")]])])
  /\ (exn_cls <$> (match lost.1 with Raises e => Some e | Returns _ => None end)
      = Some AttributeError
      /\ excel_writes (trace lost.2) = []).
Proof.
  intros run lost.
  destruct (run_saves_the_extracted_batch full_run_env world0 ["https://a.example/1"])
    as (pre & batch & w1 & _ & _ & _ & _).
  { split; [reflexivity|]. split; [done|]. split; [by left|].
    exists "key". by repeat split. }
  destruct (run_saves_the_extracted_batch mixed_batch_env world0
              ["https://a.example/1"; "https://a.example/2"])
    as (pre' & batch' & w1' & _ & _ & _ & _).
  { split; [reflexivity|]. split; [done|]. split; [by left|].
    exists "key". by repeat split. }
  repeat split; vm_compute; reflexivity.
Defined.

(** * One link, step by step *)

Lemma get_checked_run E url timeout w :
  get_checked E url timeout w
  = (checked_get_answer E (n_get w) url timeout,
     mk_world (trace w ++ [EGet url timeout]) (S (n_get w)) (n_generate w)).
Proof.
  unfold get_checked, checked_get_answer, bind, do_requests_get, raise_for_status.
  destruct (requests_get E (n_get w) url timeout) as [resp|e]; [|done].
  by destruct (_ && _).
Qed.

Lemma main_fetch_first_try E url timeout n w page :
  checked_get_answer E (n_get w) url timeout = Returns page ->
  main.fetch_page_with_retries E url (S n) timeout w
  = (Returns (Some page),
     mk_world (trace w ++ [EGet url timeout]) (S (n_get w)) (n_generate w)).
Proof.
  intros Hpage. unfold main.fetch_page_with_retries.
  change (seq 1 (S n)) with (1%nat :: seq 2 n). cbn [main.fetch_page_loop].
  by rewrite bind_try_run, get_checked_run, Hpage.
Qed.

Lemma call_model_first_try E cfg contents n d w resp :
  generate_content E (n_generate w) cfg contents = Returns resp ->
  main.call_model_with_retries E cfg contents (S n) d w
  = (Returns (Some resp),
     mk_world (trace w ++ [EGenerate cfg contents]) (n_get w) (S (n_generate w))).
Proof.
  intros Hresp. unfold main.call_model_with_retries.
  change (seq 1 (S n)) with (1%nat :: seq 2 n). cbn [main.call_model_loop].
  rewrite bind_try_run. unfold do_generate_content. cbn [fst snd]. by rewrite Hresp.
Qed.

(** With a budget of one attempt an error is raised at once, transient
    or not. *)
Lemma call_model_single_attempt_fails E cfg contents d w e :
  generate_content E (n_generate w) cfg contents = Raises e ->
  main.call_model_with_retries E cfg contents 1 d w
  = (Raises e,
     mk_world (trace w ++ [EGenerate cfg contents]) (n_get w) (S (n_generate w))).
Proof.
  intros Hresp. unfold main.call_model_with_retries.
  cbn [seq main.call_model_loop].
  rewrite bind_try_run. unfold do_generate_content. cbn [fst snd]. rewrite Hresp.
  cbn [Nat.eqb]. by rewrite orb_true_r.
Qed.

Lemma bind_raise_run {A B} (e : exn) (k : A -> M B) w : bind (raise e) k w = (Raises e, w).
Proof. reflexivity. Qed.

Lemma str_take_length n s : (N.of_nat (String.length (str_take n s)) <= n)%N.
Proof.
  revert n. induction s as [|c s IH]; intros n; simpl; [lia|].
  destruct (n =? 0)%N eqn:Hn; simpl; [lia|].
  apply N.eqb_neq in Hn. specialize (IH (N.pred n)). lia.
Qed.

(** The way of a link that raises no difficulty: when the page is
    fetched at the first request, the model answers the first call with a
    text that is not blank, and [json.loads] reads its stripped text as an
    array of one element, the element is appended to the batch.  The run
    consists of the header, one request, one model call, whose message
    carries the page text cut at 285000 characters, and the line reporting
    one record: no sleep, no debug file, no repair. *)
Theorem link_extracted_at_first_try :
  forall (E : env) (link : string) (all_new_data : list pyval) (w : world)
         (page : http_response) (answer : string) (record : pyval),
    checked_get_answer E (n_get w) link 30 = Returns page ->
    let page_text := page_text_of E page in
    generate_content E (n_generate w) CaseInstruction (model_prompt page_text)
    = Returns (mk_model_response (Some answer)) ->
    strip answer <> EmptyString ->
    json_loads E (strip answer) = Returns (PyList [record]) ->
    let run := main.process_link E link all_new_data w in
    run.1 = Returns (all_new_data ++ [record])
    /\ new_events w run.2
       = [link_header link; EGet link 30;
          EGenerate CaseInstruction (model_prompt page_text);
          EPrint "Successfully extracted 1 record(s)."]
    /\ (N.of_nat (String.length page_text) <= 285000)%N.
Proof.
  intros E link batch w page answer record Hpage page_text Hanswer Hstrip Hloads run.
  split; [|split; [|apply str_take_length]]; subst run.
  all: unfold main.process_link, link_header, print.
  all: rewrite bind_emit_run, bind_try_run; unfold main.extract_case.
  all: rewrite bind_run, (main_fetch_first_try E link 30 3 _ page) by exact Hpage.
  all: cbn [fst snd]; fold (page_text_of E page); fold page_text.
  all: fold (model_prompt page_text).
  all: rewrite bind_run,
         (call_model_first_try E CaseInstruction (model_prompt page_text) 3 2
            (mk_world _ _ _) _ Hanswer).
  all: cbn [fst snd].
  all: assert (Hnonempty : response_is_empty (Some (mk_model_response (Some answer))) = false)
         by (destruct answer; [done | reflexivity]).
  all: rewrite Hnonempty, bind_ret_run; cbn [text default from_option id trace n_get n_generate].
  all: assert (Hfull : is_empty (strip answer) = false) by (by destruct (strip answer)).
  all: rewrite Hfull, bind_run, (recover_json_direct E _ _ _ _ Hloads); cbn [fst snd].
  all: unfold main.validate_and_extend; cbn [length Nat.eqb negb].
  all: unfold print; rewrite bind_emit_run; unfold ret; cbn [fst snd trace].
  - reflexivity.
  - erewrite (new_events_app w _ [_; _; _; _]); [reflexivity|].
    cbn [trace]. by rewrite <- !app_assoc.
Qed.

(** The theorem at a model that answers with the array of the number one
    between blanks. *)
Lemma link_extracted_at_first_try_witness :
  let run :=
    main.process_link (model_answering (Some " [1] ") loads_array_of_one repair_gives_up)
      "https://a.example/1" [] world0 in
  run.1 = Returns [PyInt 1]
  /\ gets (trace run.2) = ["https://a.example/1"]
  /\ sleeps (trace run.2) = [] /\ written_files (trace run.2) = [].
Proof.
  intros run.
  destruct (link_extracted_at_first_try
              (model_answering (Some " [1] ") loads_array_of_one repair_gives_up)
              "https://a.example/1" [] world0 (mk_http_response 200 "page" EmptyString)
              " [1] " (PyInt 1) eq_refl eq_refl)
    as (Hres & Hnew & _).
  { vm_compute. discriminate. }
  { reflexivity. }
  fold run in Hres, Hnew. split; [exact Hres|].
  change (trace run.2) with (new_events world0 run.2). rewrite Hnew. by repeat split.
Defined.

(** The stricter retry is a single call: when the page is fetched, the
    first model call returns an empty response and the call with the
    stricter instruction raises an error, whatever it is, the error is not
    retried and not reported: the link is skipped with the message [Empty
    model response after retry], the batch is unchanged, nothing is slept,
    and the page text stays in the debug file numbered by the batch size
    plus one. *)
Theorem failed_stricter_retry_skips_link :
  forall (E : env) (link : string) (all_new_data : list pyval) (w : world)
         (page : http_response) (response : model_response) (e : exn),
    checked_get_answer E (n_get w) link 30 = Returns page ->
    let page_text := page_text_of E page in
    let prompt := model_prompt page_text in
    generate_content E (n_generate w) CaseInstruction prompt = Returns response ->
    response_is_empty (Some response) = true ->
    generate_content E (S (n_generate w)) StricterInstruction prompt = Raises e ->
    let run := main.process_link E link all_new_data w in
    run.1 = Returns all_new_data
    /\ new_events w run.2
       = [link_header link; EGet link 30; EGenerate CaseInstruction prompt;
          EWriteFile (debug_empty_response (length all_new_data + 1)) page_text;
          EPrint "  Empty response, retrying with stricter prompt...";
          EGenerate StricterInstruction prompt]
         ++ link_failure link "Empty model response after retry".
Proof.
  intros E link batch w page response e Hpage page_text prompt Hfirst Hempty Hsecond run.
  split; subst run.
  all: unfold main.process_link, link_header, print.
  all: rewrite bind_emit_run, bind_try_run; unfold main.extract_case.
  all: rewrite bind_run, (main_fetch_first_try E link 30 3 _ page) by exact Hpage.
  all: cbn [fst snd]; fold (page_text_of E page); fold page_text.
  all: fold (model_prompt page_text); fold prompt.
  all: rewrite bind_run,
         (call_model_first_try E CaseInstruction prompt 3 2 (mk_world _ _ _) _ Hfirst).
  all: cbn [fst snd]; rewrite Hempty.
  all: unfold write_file, print.
  all: rewrite bind_assoc_run, bind_emit_run, bind_assoc_run, bind_emit_run, bind_assoc_run.
  all: rewrite bind_try_run.
  all: rewrite (call_model_single_attempt_fails E StricterInstruction prompt 2
                  (mk_world _ _ _) e Hsecond).
  all: cbn [fst snd]; rewrite bind_raise_run; cbn [fst snd trace n_get n_generate].
  all: rewrite !bind_emit_run; unfold ret; cbn [fst snd trace].
  - reflexivity.
  - erewrite (new_events_app w _ [_; _; _; _; _; _; _; _]); [reflexivity|].
    cbn [trace]. by rewrite <- !app_assoc.
Qed.

(** The theorem at a model whose first answer is empty and whose second
    call fails with status 503, a status that the first call would have
    retried. *)
Lemma failed_stricter_retry_witness :
  let run := main.process_link (one_answer_env (Some EmptyString))
               "https://a.example/1" [] world0 in
  run.1 = Returns []
  /\ generates (trace run.2) = [CaseInstruction; StricterInstruction]
  /\ sleeps (trace run.2) = []
  /\ written_files (trace run.2) = ["debug_empty_response_1.txt"]
  /\ last (stdout (trace run.2)) = Some "Error details: Empty model response after retry".
Proof.
  intros run.
  destruct (failed_stricter_retry_skips_link (one_answer_env (Some EmptyString))
              "https://a.example/1" [] world0 (mk_http_response 200 "page" EmptyString)
              (mk_model_response (Some EmptyString)) (api_error 503)
              eq_refl eq_refl eq_refl eq_refl)
    as (Hres & Hnew).
  fold run in Hres, Hnew. split; [exact Hres|].
  change (trace run.2) with (new_events world0 run.2). rewrite Hnew.
  repeat split; vm_compute; reflexivity.
Defined.

(** An answer to the stricter retry is used like a first answer: when the
    first model call returns an empty response and the call with the
    stricter instruction returns a text that [json.loads] reads as an array
    of one element, the element is appended to the batch; the debug file
    written before the retry is left behind. *)
Theorem stricter_retry_answer_is_used :
  forall (E : env) (link : string) (all_new_data : list pyval) (w : world)
         (page : http_response) (response : model_response)
         (answer : string) (record : pyval),
    checked_get_answer E (n_get w) link 30 = Returns page ->
    let page_text := page_text_of E page in
    let prompt := model_prompt page_text in
    generate_content E (n_generate w) CaseInstruction prompt = Returns response ->
    response_is_empty (Some response) = true ->
    generate_content E (S (n_generate w)) StricterInstruction prompt
    = Returns (mk_model_response (Some answer)) ->
    strip answer <> EmptyString ->
    json_loads E (strip answer) = Returns (PyList [record]) ->
    let run := main.process_link E link all_new_data w in
    run.1 = Returns (all_new_data ++ [record])
    /\ new_events w run.2
       = [link_header link; EGet link 30; EGenerate CaseInstruction prompt;
          EWriteFile (debug_empty_response (length all_new_data + 1)) page_text;
          EPrint "  Empty response, retrying with stricter prompt...";
          EGenerate StricterInstruction prompt;
          EPrint "Successfully extracted 1 record(s)."].
Proof.
  intros E link batch w page response answer record Hpage page_text prompt
         Hfirst Hempty Hsecond Hstrip Hloads run.
  split; subst run.
  all: unfold main.process_link, link_header, print.
  all: rewrite bind_emit_run, bind_try_run; unfold main.extract_case.
  all: rewrite bind_run, (main_fetch_first_try E link 30 3 _ page) by exact Hpage.
  all: cbn [fst snd]; fold (page_text_of E page); fold page_text.
  all: fold (model_prompt page_text); fold prompt.
  all: rewrite bind_run,
         (call_model_first_try E CaseInstruction prompt 3 2 (mk_world _ _ _) _ Hfirst).
  all: cbn [fst snd]; rewrite Hempty.
  all: unfold write_file, print.
  all: rewrite bind_assoc_run, bind_emit_run, bind_assoc_run, bind_emit_run, bind_assoc_run.
  all: rewrite bind_try_run.
  all: rewrite (call_model_first_try E StricterInstruction prompt 0 2
                  (mk_world _ _ _) _ Hsecond).
  all: cbn [fst snd]; rewrite bind_ret_run;
       cbn [text default from_option id trace n_get n_generate].
  all: assert (Hfull : is_empty (strip answer) = false) by (by destruct (strip answer)).
  all: rewrite Hfull, bind_run, (recover_json_direct E _ _ _ _ Hloads); cbn [fst snd].
  all: unfold main.validate_and_extend; cbn [length Nat.eqb negb].
  all: unfold print; rewrite bind_emit_run; unfold ret; cbn [fst snd trace].
  - reflexivity.
  - erewrite (new_events_app w _ [_; _; _; _; _; _; _]); [reflexivity|].
    cbn [trace]. by rewrite <- !app_assoc.
Qed.

(** The theorem at a model that answers nothing first and the array of
    the number one to the stricter retry. *)
Lemma stricter_retry_answer_witness :
  let run := main.process_link (two_answers_env None (Some "[1]"))
               "https://a.example/1" [] world0 in
  run.1 = Returns [PyInt 1]
  /\ generates (trace run.2) = [CaseInstruction; StricterInstruction]
  /\ written_files (trace run.2) = ["debug_empty_response_1.txt"].
Proof.
  intros run.
  destruct (stricter_retry_answer_is_used (two_answers_env None (Some "[1]"))
              "https://a.example/1" [] world0 (mk_http_response 200 "page" EmptyString)
              (mk_model_response None) "[1]" (PyInt 1)
              eq_refl eq_refl eq_refl eq_refl)
    as (Hres & Hnew).
  { vm_compute. discriminate. }
  { reflexivity. }
  fold run in Hres, Hnew. split; [exact Hres|].
  change (trace run.2) with (new_events world0 run.2). rewrite Hnew.
  repeat split; vm_compute; reflexivity.
Defined.

(** * The array substring of the recovery ladder *)

Lemma match_spaces_then_sound c s : forall m,
  match_spaces_then c s = Some m ->
  exists ws rest, all_space ws = true /\ m = ws +:+ String c EmptyString /\ s = m +:+ rest.
Proof.
  induction s as [|x s IH]; intros m; [done|]. cbn [match_spaces_then].
  destruct (Ascii.eqb x c) eqn:Hx.
  - apply Ascii.eqb_eq in Hx as ->. intros [= <-]. by exists EmptyString, s.
  - destruct (py_isspace x) eqn:Hsp; [|done].
    destruct (match_spaces_then c s) as [m'|]; [|done]. intros [= <-].
    destruct (IH m' eq_refl) as (ws & rest & Hws & -> & ->).
    exists (String x ws), rest. unfold all_space in *. simpl. by rewrite Hsp, Hws.
Qed.

Lemma match_spaces_then_complete c ws rest :
  all_space ws = true -> py_isspace c = false ->
  match_spaces_then c (ws +:+ String c rest) = Some (ws +:+ String c EmptyString).
Proof.
  unfold all_space. intros Hws Hc. induction ws as [|x ws IH]; simpl.
  - by rewrite Ascii.eqb_refl.
  - simpl in Hws. apply andb_true_iff in Hws as [Hx Hws].
    destruct (Ascii.eqb x c) eqn:Hxc.
    { apply Ascii.eqb_eq in Hxc as ->. congruence. }
    by rewrite Hx, (IH Hws).
Qed.

Lemma match_spaces_brace_sound s : forall m r,
  match_spaces_brace s = Some (m, r) ->
  exists ws, all_space ws = true /\ m = ws +:+ "{" /\ s = m +:+ r.
Proof.
  induction s as [|x s IH]; intros m r; [done|]. cbn [match_spaces_brace].
  destruct (Ascii.eqb x "{") eqn:Hx.
  - apply Ascii.eqb_eq in Hx as ->. intros [= <- <-]. by exists EmptyString.
  - destruct (py_isspace x) eqn:Hsp; [|done].
    destruct (match_spaces_brace s) as [[m' r']|]; [|done]. intros [= <- <-].
    destruct (IH m' r' eq_refl) as (ws & Hws & -> & ->).
    exists (String x ws). unfold all_space in *. simpl. by rewrite Hsp, Hws.
Qed.

Lemma match_spaces_brace_complete ws r :
  all_space ws = true ->
  match_spaces_brace (ws +:+ String "{" r) = Some (ws +:+ "{", r).
Proof.
  unfold all_space. intros Hws. induction ws as [|x ws IH]; simpl; [done|].
  simpl in Hws. apply andb_true_iff in Hws as [Hx Hws].
  destruct (Ascii.eqb x "{") eqn:Hxc.
  { apply Ascii.eqb_eq in Hxc as ->. done. }
  by rewrite Hx, (IH Hws).
Qed.

Lemma match_lazy_close_sound s : forall m,
  match_lazy_close s = Some m ->
  exists body ws rest,
    all_space ws = true /\ m = body +:+ "}" +:+ ws +:+ "]" /\ s = m +:+ rest.
Proof.
  induction s as [|x s IH]; intros m; [done|]. cbn [match_lazy_close].
  destruct (if Ascii.eqb x "}" then match_spaces_then "]" s else None) as [m1|] eqn:Hclose.
  - destruct (Ascii.eqb x "}") eqn:Hx; [|done]. apply Ascii.eqb_eq in Hx as ->.
    intros [= <-]. destruct (match_spaces_then_sound _ _ _ Hclose) as (ws & rest & Hws & -> & ->).
    by exists EmptyString, ws, rest.
  - destruct (match_lazy_close s) as [m'|]; [|done]. intros [= <-].
    destruct (IH m' eq_refl) as (body & ws & rest & Hws & -> & ->).
    by exists (String x body), ws, rest.
Qed.

Lemma match_lazy_close_complete body ws rest :
  all_space ws = true ->
  match_lazy_close (body +:+ String "}" (ws +:+ String "]" rest)) <> None.
Proof.
  intros Hws. induction body as [|x body IH]; simpl.
  - by rewrite (match_spaces_then_complete "]" ws rest Hws eq_refl).
  - destruct (if Ascii.eqb x "}" then _ else None); [done|].
    by destruct (match_lazy_close _).
Qed.

Lemma match_array_here_sound s g :
  match_array_here s = Some g -> bracketed_object g /\ exists rest, s = g +:+ rest.
Proof.
  unfold match_array_here. destruct s as [|x s]; [done|].
  destruct (Ascii.eqb x "[") eqn:Hx; [|done]. apply Ascii.eqb_eq in Hx as ->.
  destruct (match_spaces_brace s) as [[m r]|] eqn:Hopen; [|done].
  destruct (match_lazy_close r) as [m'|] eqn:Hclose; [|done]. intros [= <-].
  destruct (match_spaces_brace_sound _ _ _ Hopen) as (ws1 & Hws1 & -> & ->).
  destruct (match_lazy_close_sound _ _ Hclose) as (body & ws2 & rest & Hws2 & -> & ->).
  split.
  - exists ws1, body, ws2. split; [done|]. split; [done|].
    simpl. by rewrite !str_app_assoc.
  - exists rest. simpl. by rewrite !str_app_assoc.
Qed.

Lemma match_array_here_complete g rest :
  bracketed_object g -> match_array_here (g +:+ rest) <> None.
Proof.
  intros (ws1 & body & ws2 & Hws1 & Hws2 & ->). simpl.
  rewrite !str_app_assoc. simpl.
  rewrite (match_spaces_brace_complete ws1 _ Hws1).
  rewrite !str_app_assoc. simpl. rewrite !str_app_assoc. simpl.
  pose proof (match_lazy_close_complete body ws2 rest Hws2) as Hclose.
  by destruct (match_lazy_close _).
Qed.

(** The array substring of the recovery ladder: when the search finds a
    match, [group(1)] is a piece of the raw text that starts with a
    bracket, white space and a brace and ends with a brace, white space
    and a bracket; the search fails exactly when the raw text has no such
    piece. *)
Theorem array_substring_is_a_bracketed_object :
  forall raw : string,
    match re_search_array raw with
    | Some group1 =>
        bracketed_object group1 /\ exists pre post, raw = pre +:+ group1 +:+ post
    | None =>
        forall pre g post, bracketed_object g -> raw <> pre +:+ g +:+ post
    end.
Proof.
  intros raw. destruct (re_search_array raw) as [group1|] eqn:Hsearch.
  - revert Hsearch. induction raw as [|x raw IH].
    + simpl. done.
    + cbn [re_search_array].
      destruct (match_array_here (String x raw)) as [m|] eqn:Hhere.
      * intros [= <-]. destruct (match_array_here_sound _ _ Hhere) as [Hshape [rest ->]].
        split; [done|]. by exists EmptyString, rest.
      * intros Hrest. destruct (IH Hrest) as [Hshape (pre & post & ->)].
        split; [done|]. by exists (String x pre), post.
  - intros pre g post Hshape ->. revert Hsearch.
    induction pre as [|x pre IH].
    + pose proof (match_array_here_complete g post Hshape) as Hhere.
      change (EmptyString +:+ g +:+ post) with (g +:+ post).
      destruct (g +:+ post) as [|y s]; [by destruct Hhere|].
      cbn [re_search_array]. by destruct (match_array_here (String y s)).
    + change (String x pre +:+ g +:+ post) with (String x (pre +:+ g +:+ post)).
      cbn [re_search_array].
      by destruct (match_array_here (String x (pre +:+ g +:+ post))).
Qed.

Lemma str_length_app a b : String.length (a +:+ b) = (String.length a + String.length b)%nat.
Proof. induction a as [|x a IH]; simpl; [done|]. by rewrite IH. Qed.

(** White space followed by a character that is none is read in one way. *)
Lemma spaces_then_unique c ws1 rest1 ws2 rest2 :
  all_space ws1 = true -> all_space ws2 = true -> py_isspace c = false ->
  ws1 +:+ String c rest1 = ws2 +:+ String c rest2 -> ws1 = ws2 /\ rest1 = rest2.
Proof.
  unfold all_space. intros H1 H2 Hc. revert ws2 H2.
  induction ws1 as [|x ws1 IH]; intros [|y ws2] H2; simpl in *.
  - by intros [= ->].
  - intros [= <- _]. rewrite Hc in H2. done.
  - intros [= -> _]. rewrite Hc in H1. done.
  - intros [= <- Heq]. apply andb_true_iff in H1 as [_ H1].
    apply andb_true_iff in H2 as [_ H2].
    destruct (IH H1 ws2 H2 Heq) as [-> ->]. done.
Qed.

(** A closing brace comes after white space followed by a bracket. *)
Lemma brace_after_spaces_bracket ws rest1 body rest2 :
  all_space ws = true ->
  ws +:+ String "]" rest1 = body +:+ String "}" rest2 ->
  (String.length ws + 1 <= String.length body)%nat.
Proof.
  unfold all_space. intros Hws. revert body.
  induction ws as [|x ws IH]; intros [|y body]; simpl in *; try done.
  - intros _. lia.
  - intros [= -> _]. done.
  - intros [= <- Heq]. apply andb_true_iff in Hws as [_ Hws].
    specialize (IH Hws body Heq). lia.
Qed.

Lemma match_lazy_close_shortest s : forall m body ws rest,
  match_lazy_close s = Some m ->
  all_space ws = true ->
  s = body +:+ String "}" (ws +:+ String "]" rest) ->
  (String.length m <= String.length (body +:+ String "}" (ws +:+ String "]" EmptyString)))%nat.
Proof.
  induction s as [|x s IH]; intros m body ws rest; [done|]. cbn [match_lazy_close].
  destruct (if Ascii.eqb x "}" then match_spaces_then "]" s else None) as [m1|] eqn:Hclose.
  - destruct (Ascii.eqb x "}") eqn:Hx; [|done]. apply Ascii.eqb_eq in Hx as ->.
    intros [= <-] Hws Hs.
    destruct (match_spaces_then_sound _ _ _ Hclose) as (ws1 & rest1 & Hws1 & -> & Hs1).
    rewrite str_app_assoc in Hs1. simpl in Hs1.
    destruct body as [|y body]; simpl in Hs.
    + injection Hs as Hs. rewrite Hs in Hs1.
      destruct (spaces_then_unique "]" _ _ _ _ Hws Hws1 eq_refl Hs1) as [-> _].
      simpl. lia.
    + injection Hs as <- Hs. rewrite Hs1 in Hs.
      pose proof (brace_after_spaces_bracket _ _ _ _ Hws1 Hs) as Hlen.
      simpl. rewrite !str_length_app. simpl. rewrite str_length_app. simpl. lia.
  - destruct (match_lazy_close s) as [m'|] eqn:Hrec; [|done]. intros [= <-] Hws Hs.
    destruct body as [|y body]; simpl in Hs.
    + injection Hs as -> Hs. rewrite Ascii.eqb_refl in Hclose.
      rewrite Hs, (match_spaces_then_complete "]" ws rest Hws eq_refl) in Hclose. done.
    + injection Hs as <- Hs. specialize (IH m' body ws rest eq_refl Hws Hs).
      simpl. lia.
Qed.

Lemma match_array_here_shortest s g g' rest' :
  match_array_here s = Some g -> bracketed_object g' -> s = g' +:+ rest' ->
  (String.length g <= String.length g')%nat.
Proof.
  unfold match_array_here. destruct s as [|x s]; [done|].
  destruct (Ascii.eqb x "[") eqn:Hx; [|done]. apply Ascii.eqb_eq in Hx as ->.
  destruct (match_spaces_brace s) as [[m r]|] eqn:Hopen; [|done].
  destruct (match_lazy_close r) as [m'|] eqn:Hclose; [|done]. intros [= <-].
  intros (ws1 & body & ws2 & Hws1 & Hws2 & ->). simpl. rewrite !str_app_assoc. simpl.
  intros [= Hs].
  destruct (match_spaces_brace_sound _ _ _ Hopen) as (ws & Hws & -> & Hs').
  rewrite str_app_assoc in Hs'. simpl in Hs'. rewrite Hs in Hs'.
  destruct (spaces_then_unique "{" _ _ _ _ Hws1 Hws eq_refl Hs') as [-> Hr].
  rewrite !str_app_assoc in Hr. simpl in Hr. rewrite !str_app_assoc in Hr. simpl in Hr.
  pose proof (match_lazy_close_shortest r m' body ws2 rest' Hclose Hws2 (eq_sym Hr)) as Hlen.
  rewrite !str_length_app in *. simpl in *. rewrite !str_length_app in *. simpl in *.
  rewrite ?str_length_app in *. simpl in *. lia.
Qed.

(** The search takes the leftmost match and, there, the shortest: when
    the raw text holds a bracketed object after [pre'], the search finds
    one that starts earlier, or at the same place and is not longer.  So
    the match ends at the first closing brace that white space and a
    bracket follow, also when that brace closes a nested object. *)
Theorem array_substring_is_leftmost_and_shortest :
  forall (raw pre' g' post' : string),
    bracketed_object g' ->
    raw = pre' +:+ g' +:+ post' ->
    exists group1 pre post,
      re_search_array raw = Some group1
      /\ raw = pre +:+ group1 +:+ post
      /\ ((String.length pre < String.length pre')%nat
          \/ (String.length pre = String.length pre'
              /\ (String.length group1 <= String.length g')%nat)).
Proof.
  intros raw pre' g' post' Hshape ->. induction pre' as [|x pre' IH].
  - change (EmptyString +:+ g' +:+ post') with (g' +:+ post').
    pose proof (match_array_here_complete g' post' Hshape) as Hhere.
    destruct (match_array_here (g' +:+ post')) as [g|] eqn:Hm; [|done].
    destruct (match_array_here_sound _ _ Hm) as [_ [rest Hrest]].
    exists g, EmptyString, rest. split; [|split; [exact Hrest|]].
    + destruct (g' +:+ post') as [|y s]; [done|]. cbn [re_search_array]. by rewrite Hm.
    + right. split; [done|]. by apply (match_array_here_shortest _ _ _ post' Hm).
  - change (String x pre' +:+ g' +:+ post') with (String x (pre' +:+ g' +:+ post')).
    cbn [re_search_array].
    destruct (match_array_here (String x (pre' +:+ g' +:+ post'))) as [g|] eqn:Hm.
    + destruct (match_array_here_sound _ _ Hm) as [_ [rest Hrest]].
      exists g, EmptyString, rest. split; [done|]. split; [exact Hrest|].
      left. simpl. lia.
    + destruct IH as (g & pre & post & Hsearch & Heq & Hpos).
      exists g, (String x pre), post. split; [done|]. split; [simpl; by rewrite <- Heq|].
      simpl. lia.
Qed.

(** The theorem at an answer whose object holds an array of objects: the
    match found is not longer than the whole array. *)
Lemma array_substring_leftmost_witness :
  exists group1 pre post,
    re_search_array "Answer: [{a: [{b: 1}], c: 2}]" = Some group1
    /\ "Answer: [{a: [{b: 1}], c: 2}]" = pre +:+ group1 +:+ post
    /\ ((String.length pre < String.length "Answer: ")%nat
        \/ (String.length pre = String.length "Answer: "
            /\ (String.length group1 <= String.length "[{a: [{b: 1}], c: 2}]")%nat)).
Proof.
  apply (array_substring_is_leftmost_and_shortest
           "Answer: [{a: [{b: 1}], c: 2}]" "Answer: " "[{a: [{b: 1}], c: 2}]" EmptyString).
  - exists EmptyString, "a: [{b: 1}], c: 2", EmptyString. by repeat split.
  - reflexivity.
Defined.

(** * Absolute hyperlinks *)

Section AbsoluteHref.
Variables (sch host p : string).
Hypothesis scheme_http : sch = "http" \/ sch = "https".
Hypothesis host_plain : is_empty host = false /\ plain_text host = true.
Hypothesis p_path : str_forall path_char p = true.



End AbsoluteHref.



(** * The outcomes of the JSON recovery *)

Lemma new_events_refl w : new_events w w = [].
Proof. unfold new_events. apply drop_all. Qed.

Lemma new_events_one w ev a b :
  new_events w (mk_world (trace w ++ [ev]) a b) = [ev].
Proof. by apply new_events_app. Qed.

(** The recovery ladder as a whole.  It makes no request and no model
    call and prints at most one line.  A value it returns was produced by
    [json.loads] or by [json_repair.loads], from the raw text or from its
    array substring, and then no file is written.  It raises in two
    ways: with [ValueError], after writing the raw text to the debug file
    numbered by the batch size plus one, exactly when [json.loads] failed
    with a [JSONDecodeError], the repair failed, and there is no array
    substring; or with the error of one of its steps and without a file,
    namely an error of [json.loads] on the raw text that is no
    [JSONDecodeError], or an error of the steps on the array substring. *)
Theorem recovery_ladder_outcomes :
  forall (E : env) (raw_json_text : string) (all_new_data : list pyval) (w : world),
    let run := main.recover_json E raw_json_text all_new_data w in
    let new := new_events w run.2 in
    gets new = [] /\ generates new = [] /\ (length (stdout new) <= 1)%nat
    /\ match run.1 with
       | Returns v =>
           written_files new = []
           /\ exists text,
                (text = raw_json_text \/ re_search_array raw_json_text = Some text)
                /\ (json_loads E text = Returns v \/ json_repair_loads E text = Returns v)
       | Raises e =>
           (written_files new = [debug_bad_json (length all_new_data + 1)]
            /\ e = value_error "Could not parse JSON response even with repairs"
            /\ re_search_array raw_json_text = None
            /\ (exists e1, json_loads E raw_json_text = Raises e1
                           /\ is_JSONDecodeError e1 = true)
            /\ (exists e2, json_repair_loads E raw_json_text = Raises e2))
           \/ (written_files new = []
               /\ ((json_loads E raw_json_text = Raises e /\ is_JSONDecodeError e = false)
                   \/ exists group1,
                        re_search_array raw_json_text = Some group1
                        /\ (json_loads E group1 = Raises e
                            \/ json_repair_loads E group1 = Raises e)))
       end.
Proof.
  intros E raw batch w run new. subst run new.
  unfold main.recover_json, bind, try_, lift, print, write_file, emit, ret, raise.
  destruct (json_loads E raw) as [v|e1] eqn:H1; cbn [fst snd].
  { rewrite new_events_refl. repeat split; try done; [simpl; lia|].
    exists raw. by split; [left | left]. }
  destruct (is_JSONDecodeError e1) eqn:Hd1; cbn [fst snd].
  2:{ rewrite new_events_refl. repeat split; try done; [simpl; lia|].
      right. split; [done|]. by left. }
  destruct (json_repair_loads E raw) as [v|e2] eqn:H2; cbn [fst snd].
  { rewrite new_events_one. repeat split; try done.
    exists raw. by split; [left | right]. }
  destruct (re_search_array raw) as [g|] eqn:Hg; cbn [fst snd].
  2:{ rewrite new_events_one. repeat split; try done; [simpl; lia|].
      left. repeat split; try done; by eexists. }
  destruct (json_loads E g) as [v|e3] eqn:H3; cbn [fst snd].
  { rewrite new_events_refl. repeat split; try done; [simpl; lia|].
    exists g. by split; [right | left]. }
  destruct (is_JSONDecodeError e3) eqn:Hd3; cbn [fst snd].
  2:{ rewrite new_events_refl. repeat split; try done; [simpl; lia|].
      right. split; [done|]. right. exists g. split; [done | by left]. }
  destruct (json_repair_loads E g) as [v|e4] eqn:H4; cbn [fst snd].
  - rewrite new_events_one. repeat split; try done.
    exists g. by split; [right | right].
  - rewrite new_events_refl. repeat split; try done; [simpl; lia|].
    right. split; [done|]. right. exists g. split; [done | by right].
Qed.

(** * Every link is tried, in order *)

Lemma bind_first_event {A B} (m : M A) (K : A -> M B) (a : event) :
  (forall w, exists post, trace (m w).2 = trace w ++ a :: post) ->
  (forall x, emits (fun _ => True) (K x)) ->
  forall w, exists post, trace (bind m K w).2 = trace w ++ a :: post.
Proof.
  intros Hm HK w. unfold bind. destruct (Hm w) as [post Hpost].
  destruct (m w) as [[x|e] w']; cbn [snd] in *; [|by exists post].
  destruct (HK x w') as (new & Hnew & _). exists (post ++ new).
  rewrite Hnew, Hpost, <- app_assoc. reflexivity.
Qed.

Lemma emits_anything {A} (P : event -> Prop) (m : M A) :
  emits P m -> emits (fun _ => True) m.
Proof. apply emits_weaken. done. Qed.

(** The first thing done for a link is the request of its page. *)
Lemma extract_case_first_request E link all_new_data w :
  exists post,
    trace (main.extract_case E link all_new_data w).2 = trace w ++ EGet link 30 :: post.
Proof.
  unfold main.extract_case. apply bind_first_event.
  - intros w0. unfold main.fetch_page_with_retries. rewrite main_fetch_loop_retry_loop.
    apply (retry_loop_first_call (get_checked E link 30) is_RequestException
             (fun a => (a =? 4)%nat) (request_error_line 4)
             (fun n => checked_get_answer E n link 30) n_get (EGet link 30)
             (get_checked_spec E link 30)).
  - intros [page|]; [|apply emits_raise].
    apply emits_bind; [eapply emits_anything, emits_call_model_loop|].
    intros response. apply emits_bind.
    { destruct (response_is_empty response); [|apply emits_ret].
      apply emits_bind; [by apply emits_emit|]. intros _.
      apply emits_bind; [by apply emits_emit|]. intros _.
      apply emits_bind; [apply emits_try; eapply emits_anything, emits_call_model_loop|].
      intros [r|e]; [apply emits_ret | apply emits_raise]. }
    intros [resp|]; [|apply emits_raise].
    destruct (is_empty _).
    + apply emits_bind; [by apply emits_emit|]. intros _. apply emits_raise.
    + apply emits_bind; [eapply emits_anything, emits_recover_json|].
      intros new_data. eapply emits_anything, (emits_validate_and_extend O).
Qed.

Lemma process_link_first_events E link all_new_data w :
  exists post,
    trace (main.process_link E link all_new_data w).2
    = trace w ++ link_header link :: EGet link 30 :: post.
Proof.
  unfold main.process_link, print. rewrite bind_emit_run.
  set (w1 := mk_world _ _ _).
  destruct (bind_first_event
              (try_ (main.extract_case E link all_new_data))
              (fun r => match r with
                        | Returns data => ret data
                        | Raises e =>
                            bind (emit (EPrint ("ERROR: Failed to process link " +:+ link
                                                +:+ ". Skipping to next link.")))
                                 (fun _ => bind (emit (EPrint ("Error details: " +:+ exn_str e)))
                                             (fun _ => ret all_new_data))
                        end)
              (EGet link 30)) with (w := w1) as [post Hpost].
  - intros w0. unfold try_.
    destruct (extract_case_first_request E link all_new_data w0) as [post Hpost].
    exists post. by destruct (main.extract_case E link all_new_data w0).
  - intros [data|e]; [apply emits_ret|].
    apply emits_bind; [by apply emits_emit|]. intros _.
    apply emits_bind; [by apply emits_emit|]. intros _. apply emits_ret.
  - exists post. rewrite Hpost. subst w1. cbn [trace]. by rewrite <- app_assoc.
Qed.

Lemma all_equal_replicate (link : string) (l : list string) :
  Forall (fun u => u ∈ [link]) l -> l = replicate (length l) link.
Proof.
  induction 1 as [|u l Hu _ IH]; [done|].
  apply list_elem_of_singleton in Hu as ->. simpl. by rewrite <- IH.
Qed.

(** One link costs between one and four requests, all to the link. *)
Lemma process_link_requests E link all_new_data w :
  exists m,
    (1 <= m <= 4)%nat
    /\ gets (new_events w (main.process_link E link all_new_data w).2) = replicate m link.
Proof.
  destruct (process_link_first_events E link all_new_data w) as [post Hpost].
  pose proof (spends_new_events _ _ _ w
    (spends_process_link E request_weight 0 0 0 ltac:(lia) ltac:(lia) ltac:(lia)
       ltac:(done) ltac:(intros; simpl; lia) ltac:(intros; simpl; lia)
       ltac:(done) ltac:(done) link all_new_data)) as Hcount.
  pose proof (spends_new_events _ _ _ w
    (spends_process_link E (foreign_request_weight [link]) 0 0 0
       ltac:(lia) ltac:(lia) ltac:(lia)
       ltac:(done) ltac:(intros; simpl; lia)
       ltac:(intros; simpl; case_bool_decide; lia)
       ltac:(done) ltac:(done) link all_new_data)) as Hforeign.
  rewrite (new_events_app _ _ _ Hpost) in *.
  rewrite total_request_weight in Hcount. unfold link_cost in Hcount, Hforeign.
  cbn [request_weight foreign_request_weight] in Hcount, Hforeign.
  rewrite bool_decide_eq_true_2 in Hforeign by apply list_elem_of_singleton, eq_refl.
  assert (Hall : Forall (fun u => u ∈ [link])
                    (gets (link_header link :: EGet link 30 :: post)))
    by (apply total_foreign_request_weight; lia).
  exists (length (gets (link_header link :: EGet link 30 :: post))).
  split; [|by apply all_equal_replicate].
  split; [simpl; lia | lia].
Qed.

(** Every link of the list is tried, in the order of the list, also
    after links that failed: the requests of the loop are those of the
    first link, then those of the second, and so on, between one and four
    for each link. *)
Theorem every_link_is_requested_in_order :
  forall (E : env) (links : list string) (all_new_data : list pyval) (w : world),
    let run := main.process_links E links all_new_data w in
    exists attempts : list nat,
      length attempts = length links
      /\ Forall (fun m => (1 <= m <= 4)%nat) attempts
      /\ gets (new_events w run.2)
         = concat (zip_with (fun m link => replicate m link) attempts links).
Proof.
  intros E links. induction links as [|link links IH]; intros batch w run; subst run.
  - exists []. simpl. by rewrite new_events_refl.
  - cbn [main.process_links]. unfold bind.
    destruct (process_link_requests E link batch w) as (m & Hm & Hgets).
    destruct (process_link_spec E link batch w) as (data & new1 & Hres & Htr1 & _).
    rewrite (new_events_app _ _ _ Htr1) in Hgets.
    destruct (main.process_link E link batch w) as [[data'|e] w1]; cbn [fst snd] in *;
      [|done].
    destruct (IH data' w1) as (ms & Hlen & Hms & Hrest). cbv zeta in Hrest.
    destruct (spends_process_links E request_weight 0 0 0 ltac:(lia) ltac:(lia) ltac:(lia)
                ltac:(done) ltac:(intros; simpl; lia) ltac:(intros; simpl; lia)
                ltac:(done) ltac:(done) links data' w1) as (new2 & Htr2 & _).
    rewrite (new_events_app _ _ _ Htr2) in Hrest.
    exists (m :: ms). split; [simpl; by rewrite Hlen|]. split; [by constructor|].
    rewrite (new_events_app w _ (new1 ++ new2)) by (by rewrite Htr2, Htr1, <- app_assoc).
    rewrite gets_app, Hgets, Hrest. reflexivity.
Qed.
